(** * Catalog and product synchronisation engine (weni-integrations-engine)

  A shallow embedding of the synchronisation code of the marketplace:

  - [marketplace/services/vtex/generic_service.py]: seller extraction
    from a webhook, first-insertion and by-seller admission;
  - [marketplace/wpp_products/utils.py]: SKU extraction, the CSV feed
    encoder, the batch fetcher and the upload loop;
  - [marketplace/wpp_products/tasks.py]: reconciliation of the remote
    catalog listing with the local catalogs.

  Python values are modelled by [pyval], dictionaries by [gmap], sets by
  [gset], database tables by lists of records in the order in which an
  unordered query returns them, and exceptions by the [result] type.
  External collaborators (the Facebook, Flows and Redis clients, database
  failures) appear as fields of an environment record. *)

From Stdlib Require Import ZArith NArith Ascii String List Lia.
From Stdlib Require Import Decimal DecimalString DecimalPos DecimalN.
From stdpp Require Import base option list gmap strings sorting.

Local Open Scope string_scope.
Local Open Scope list_scope.

(** ** Python values and exceptions *)

Module Py.

(** The JSON-like values found in [App.config] and in webhook payloads. *)
#[local] Unset Elimination Schemes.
Inductive pyval : Type :=
| PNone
| PBool (b : bool)
| PInt (z : Z)
| PStr (s : string)
| PList (l : list pyval)
| PDict (d : list (string * pyval)).
#[local] Set Elimination Schemes.

(** [bool(v)]: the truth value used by [if v:], [not v] and [and]. *)
Definition truthy (v : pyval) : bool :=
  match v with
  | PNone => false
  | PBool b => b
  | PInt z => negb (z =? 0)%Z
  | PStr s => negb (String.eqb s "")
  | PList l => match l with [] => false | _ :: _ => true end
  | PDict d => match d with [] => false | _ :: _ => true end
  end.

(** [v is True] and [v is False]: identity with the two singletons. *)
Definition is_True (v : pyval) : bool :=
  match v with PBool true => true | _ => false end.

Definition is_False (v : pyval) : bool :=
  match v with PBool false => true | _ => false end.

(** [d.get(key)] and [d.get(key, dflt)]. *)
Definition get (d : gmap string pyval) (key : string) : pyval :=
  default PNone (d !! key).

Definition get_default (d : gmap string pyval) (key : string) (dflt : pyval)
  : pyval :=
  default dflt (d !! key).

Inductive exn : Type :=
| ValueError (msg : string)
| TypeError (msg : string)
| KeyError (key : string)
| AttributeError (msg : string)
| UnboundLocalError (name : string)
| UnicodeEncodeError
| StopIteration
| ImportError (name module : string)
| ExternalError (msg : string).

Inductive result (A : Type) : Type :=
| Ok (a : A)
| Raise (e : exn).
Global Arguments Ok {A} a.
Global Arguments Raise {A} e.

Definition is_ValueError (e : exn) : bool :=
  match e with ValueError _ => true | _ => false end.

(** [str(e)] for the exceptions above, as far as the log lines need it. *)
Definition str_exn (e : exn) : string :=
  match e with
  | ValueError m | TypeError m | AttributeError m | ExternalError m => m
  | KeyError k => k
  | UnboundLocalError n =>
      "local variable '" +:+ n +:+ "' referenced before assignment"
  | UnicodeEncodeError => "surrogates not allowed"
  | StopIteration => ""
  | ImportError name module =>
      "cannot import name '" +:+ name +:+ "' from '" +:+ module +:+ "'"
  end.

(** Computations that read and write a state [S] and may raise. *)
Definition M (S A : Type) : Type := S -> result A * S.

Definition ret {S A} (a : A) : M S A := fun s => (Ok a, s).
Definition raise {S A} (e : exn) : M S A := fun s => (Raise e, s).
Definition bind {S A B} (m : M S A) (k : A -> M S B) : M S B :=
  fun s => match m s with
           | (Ok a, s') => k a s'
           | (Raise e, s') => (Raise e, s')
           end.
(** [try: m except Exception as e: h e] *)
Definition try_except {S A} (m : M S A) (h : exn -> M S A) : M S A :=
  fun s => match m s with
           | (Ok a, s') => (Ok a, s')
           | (Raise e, s') => h e s'
           end.
Definition lift {S A} (r : result A) : M S A := fun s => (r, s).
Definition modify {S} (f : S -> S) : M S unit := fun s => (Ok tt, f s).
Definition gets {S A} (f : S -> A) : M S A := fun s => (Ok (f s), s).

(** [from module import name], where the module defines the names
    [defined]. *)
Definition import_from {S} (module : string) (defined : list string)
    (name : string) : M S unit :=
  if bool_decide (name ∈ defined) then ret tt
  else raise (ImportError name module).

End Py.

Import Py.

Declare Scope py_scope.
Delimit Scope py_scope with py.
Notation "x <- m ;; k" := (Py.bind m (fun x => k))
(at level 100, m at next level, right associativity) : py_scope.
Notation "m ;;; k" := (Py.bind m (fun _ => k))
(at level 100, right associativity) : py_scope.

(** ** Python strings

    A Python [str] is a sequence of Unicode code points; [bytes] is a
    sequence of octets.  The text of an exception is kept in UTF-8. *)

Abbreviation str := (list N) (only parsing).
Abbreviation bytes := (list N) (only parsing).

Module Text.

(** The octets of a code point in UTF-8; a lone surrogate, for which
    UTF-8 has no form, is written in the three-octet form of its value. *)
Definition octets (c : N) : list N :=
  (if c <? 128 then [c]
   else if c <? 2048 then [192 + c / 64; 128 + c mod 64]
   else if c <? 65536 then
     [224 + c / 4096; 128 + (c / 64) mod 64; 128 + c mod 64]
   else [240 + c / 262144; 128 + (c / 4096) mod 64;
         128 + (c / 64) mod 64; 128 + c mod 64])%N.

(** A [str] as it stands in the text of a message. *)
Definition show (s : str) : string :=
  string_of_list_ascii (map ascii_of_N (flat_map octets s)).

(** [str(n)] for a count. *)
Definition show_nat (n : nat) : string :=
  NilEmpty.string_of_uint (Nat.to_uint n).

End Text.

(** ** Seller extraction ([generic_service.py], lines 250-272) *)

Module Sellers.

Definition extract_sellers_ids (webhook : gmap string pyval) : pyval :=
  let seller_an := get webhook "An" in
  let seller_chain := get webhook "SellerChain" in
  if truthy seller_chain && truthy seller_an then seller_chain
  else if truthy seller_an && negb (truthy seller_chain) then seller_an
  else PNone.

(** [ProductUpdateService._get_sellers_ids]; [list_all_actives_sellers]
    is the answer of the VTEX private service for the domain. *)
Definition _get_sellers_ids (webhook : gmap string pyval)
    (list_all_actives_sellers : result (list pyval)) : result (list pyval) :=
  let seller_id := extract_sellers_ids webhook in
  if truthy seller_id then Ok [seller_id]
  else list_all_actives_sellers.

End Sellers.

(** ** SKU extraction ([utils.py], lines 155-161)

  A product identifier is a [str] of the form [sku#seller].  The tests
  [str.isdigit] and [int] read the Unicode database of the interpreter;
  the tables below are those of CPython 3.11 (Unicode 14.0), and the
  limit on the length of a number is its default. *)

Module Sku.

Definition HASH : N := 35.
Definition QUOTE : N := 39.

(** [s.split(sep)] for a one-character separator. *)
Fixpoint split (sep : N) (s : str) : list str :=
  match s with
  | [] => [[]]
  | c :: r =>
      if N.eqb c sep then [] :: split sep r
      else match split sep r with
           | p :: ps => (c :: p) :: ps
           | [] => [[c]]
           end
  end.

(** The decimal digits of every script come in runs of ten, from zero to
    nine; the table gives the zero of each run. *)
Definition decimal_zeros : list N :=
  [48; 1632; 1776; 1984; 2406; 2534; 2662; 2790; 2918; 3046; 3174; 3302;
   3430; 3558; 3664; 3792; 3872; 4160; 4240; 6112; 6160; 6470; 6608;
   6784; 6800; 6992; 7088; 7232; 7248; 42528; 43216; 43264; 43472; 43504;
   43600; 44016; 65296; 66720; 68912; 69734; 69872; 69942; 70096; 70384;
   70736; 70864; 71248; 71360; 71472; 71904; 72016; 72784; 73040; 73120;
   92768; 92864; 93008; 120782; 120792; 120802; 120812; 120822; 123200;
   123632; 125264; 130032]%N.

(** The other characters that have a digit value (superscripts,
    subscripts, circled and parenthesised digits and the like), in runs:
    the first code point, the length of the run, the value of the
    first. *)
Definition other_digits : list (N * N * N) :=
  [(178, 2, 2); (185, 1, 1); (4969, 9, 1); (6618, 1, 1); (8304, 1, 0);
   (8308, 6, 4); (8320, 10, 0); (9312, 9, 1); (9332, 9, 1); (9352, 9, 1);
   (9450, 1, 0); (9461, 9, 1); (9471, 1, 0); (10102, 9, 1); (10112, 9,
   1); (10122, 9, 1); (68160, 4, 1); (69216, 9, 1); (69714, 9, 1);
   (127232, 1, 0); (127233, 10, 0)]%N.

(** [unicodedata.decimal]: the value that [int] reads. *)
Definition to_decimal (c : N) : option N :=
  match List.find (fun z => (z <=? c) && (c <=? z + 9))%N decimal_zeros with
  | Some z => Some (c - z)%N
  | None => None
  end.

(** [unicodedata.digit]: defined where [str.isdigit] holds. *)
Definition to_digit (c : N) : option N :=
  match to_decimal c with
  | Some d => Some d
  | None =>
      match List.find (fun r => (r.1.1 <=? c) && (c <? r.1.1 + r.1.2))%N
              other_digits with
      | Some r => Some (r.2 + (c - r.1.1))%N
      | None => None
      end
  end.

Definition is_digit (c : N) : bool :=
  match to_digit c with Some _ => true | None => false end.

(** [s.isdigit()]: non-empty and made of characters with a digit value. *)
Definition isdigit (s : str) : bool :=
  match s with
  | [] => false
  | _ :: _ => forallb is_digit s
  end.

(** The values of the decimal digits that [s] begins with. *)
Fixpoint leading (s : str) : list N :=
  match s with
  | [] => []
  | c :: r =>
      match to_decimal c with
      | Some d => d :: leading r
      | None => []
      end
  end.

(** [sys.get_int_max_str_digits()] *)
Definition int_max_str_digits : nat := 4300.

(** [repr(s)] for a string of printable characters without a quote, as
    every string is that [isdigit] accepts. *)
Definition repr (s : str) : str := QUOTE :: s ++ [QUOTE].

(** [int(s)] for a string without blank, sign and underscore, none of
    which [isdigit] accepts.  The digits at the head are counted before
    the rest is looked at; the message of an invalid literal shows at
    most 200 characters of the [repr]. *)
Definition int (s : str) : result N :=
  let digits := leading s in
  if (int_max_str_digits <? length digits)%nat then
    Raise (ValueError
             ("Exceeds the limit (" +:+ Text.show_nat int_max_str_digits
              +:+ " digits) for integer string conversion: value has "
              +:+ Text.show_nat (length digits)
              +:+ " digits; use sys.set_int_max_str_digits() to increase the limit"))
  else if (length digits =? length s)%nat
          && negb (length s =? 0)%nat then
    Ok (fold_left (fun acc d => 10 * acc + d)%N digits 0%N)
  else
    Raise (ValueError
             ("invalid literal for int() with base 10: "
              +:+ Text.show (take 200 (repr s)))).

Definition extract_sku_id (product_id : str) : result N :=
  let sku_part := nth 0 (split HASH product_id) [] in
  if isdigit sku_part then int sku_part
  else Raise (ValueError
                ("Invalid SKU ID, error: " +:+ Text.show sku_part
                 +:+ " is not a number")).

End Sku.

(** ** Persistent records

    One Rocq record per Django model, with the fields the synchronisation
    code reads or writes.  Foreign keys hold the key of the row they point
    to. *)

Inductive Status : Type := pending | processing | success | error.

Global Instance Status_eq_dec : EqDecision Status.
Proof. solve_decision. Defined.


Module App.
Record t : Type := mk {
  uuid : string;
  code : string;
  config : gmap string pyval;
  flow_object_uuid : option string;
  modified_by : option string
}.
End App.

Module Catalog.
Record t : Type := mk {
  uuid : string;
  app : string;                  (* uuid of the wpp-cloud App *)
  facebook_catalog_id : string;
  name : string;
  category : string;
  vtex_app : option string;      (* uuid of the linked VTEX App *)
  modified_by : option string
}.
End Catalog.

Module ProductFeed.
Record t : Type := mk {
  facebook_feed_id : string;
  catalog : string               (* uuid of the Catalog *)
}.
End ProductFeed.

Module UploadProduct.
Record t : Type := mk {
  id : Z;
  facebook_product_id : str;
  catalog : string;              (* uuid of the Catalog *)
  data : str;
  status : Status;
  modified_on : Z
}.

Definition set_status (s : Status) (p : t) : t :=
  mk (id p) (facebook_product_id p) (catalog p) (data p) s (modified_on p).

Global Instance eq_dec : EqDecision t.
Proof. solve_decision. Defined.
End UploadProduct.

Module ProductUploadLog.
Record t : Type := mk {
  sku_id : N;
  vtex_app : option string
}.
End ProductUploadLog.

(** ** The feed encoder ([utils.py], lines 177-196 and 240-243) *)

Module Feed.

Definition DQUOTE : N := 34.
Definition SQUOTE : N := 39.
Definition SPACE : N := 32.
Definition NEWLINE : N := 10.

(** The code points of an ASCII literal of the source. *)
Definition literal (s : string) : str :=
  map N_of_ascii (list_ascii_of_string s).

(** [text.replace(old, new)] for a one-character [old]. *)
Definition replace (old : N) (new : str) (text : str) : str :=
  flat_map (fun c => if N.eqb c old then new else [c]) text.

Definition escape_quotes (text : str) : str :=
  replace SQUOTE [SPACE] (replace DQUOTE [] text).

(** [sep.join(lines)] *)
Fixpoint join (sep : str) (lines : list str) : str :=
  match lines with
  | [] => []
  | [l] => l
  | l :: ls => l ++ sep ++ join sep ls
  end.

(** UTF-8 encoding of one code point; lone surrogates and values beyond
    U+10FFFF are refused, as [str.encode] does. *)
Definition utf8_char (c : N) : result bytes :=
  (if c <? 128 then Ok [c]
   else if c <? 2048 then Ok [192 + c / 64; 128 + c mod 64]
   else if c <? 65536 then
     if (55296 <=? c) && (c <=? 57343) then Raise UnicodeEncodeError
     else Ok [224 + c / 4096; 128 + (c / 64) mod 64; 128 + c mod 64]
   else if c <? 1114112 then
     Ok [240 + c / 262144; 128 + (c / 4096) mod 64;
         128 + (c / 64) mod 64; 128 + c mod 64]
   else Raise UnicodeEncodeError)%N.

(** [text.encode("utf-8")] *)
Fixpoint encode (text : str) : result bytes :=
  match text with
  | [] => Ok []
  | c :: r =>
      match utf8_char c with
      | Raise e => Raise e
      | Ok bs => match encode r with
                 | Raise e => Raise e
                 | Ok rs => Ok (bs ++ rs)
                 end
      end
  end.

Definition header : str :=
  literal "id,title,description,availability,status,condition,price,link,image_link,brand,sale_price".

(** The [csv_content] string of [convert_to_csv]. *)
Definition csv_content (products : list UploadProduct.t)
    (include_header : bool) : str :=
  let csv_lines := if include_header then [header] else [] in
  let csv_lines :=
    csv_lines ++ map (fun product => escape_quotes (UploadProduct.data product))
                     products in
  join [NEWLINE] csv_lines.

(** [ProductUploadManager.convert_to_csv]: the content of the buffer. *)
Definition convert_to_csv (products : list UploadProduct.t)
    (include_header : bool) : result bytes :=
  encode (csv_content products include_header).

End Feed.

(** ** The batch fetcher and the upload loop ([utils.py], lines 28-77 and
    198-237) *)

Module Upload.

(** The [UploadProduct] table, in the order of an unordered query. *)
Abbreviation Table := (list UploadProduct.t) (only parsing).

(** [UploadProduct.objects.filter(sel).update(status=new)] *)
Definition update_status (sel : UploadProduct.t -> bool) (new : Status)
    (db : Table) : Table :=
  map (fun p => if sel p then UploadProduct.set_status new p else p) db.

Definition mark_products_as_sent (product_ids : list str) (db : Table)
  : Table :=
  update_status
    (fun p => bool_decide (UploadProduct.facebook_product_id p ∈ product_ids)
              && bool_decide (UploadProduct.status p = processing))
    success db.

Definition mark_products_as_error (product_ids : list str) (db : Table)
  : Table :=
  update_status
    (fun p => bool_decide (UploadProduct.facebook_product_id p ∈ product_ids)
              && bool_decide (UploadProduct.status p = processing))
    error db.

Record ProductBatchFetcher : Type := {
  catalog : Catalog.t;
  batch_size : nat
}.

(** [order_by("modified_on")] *)
Definition older_eq (p q : UploadProduct.t) : Prop :=
  (UploadProduct.modified_on p <= UploadProduct.modified_on q)%Z.

Global Instance older_eq_dec : RelDecision older_eq.
Proof. intros p q. unfold older_eq. apply _. Defined.

Definition order_by_modified_on (rows : list UploadProduct.t)
  : list UploadProduct.t :=
  merge_sort older_eq rows.

(** The query of lines 222-224:
    [filter(catalog=self.catalog, status="pending")
       .order_by("modified_on")[: self.batch_size]]. *)
Definition pending_products (self : ProductBatchFetcher) (db : Table)
  : list UploadProduct.t :=
  take (batch_size self)
    (order_by_modified_on
       (filter (fun p => UploadProduct.catalog p = Catalog.uuid (catalog self)
                         /\ UploadProduct.status p = pending) db)).

(** Line 231: [filter(id__in=product_ids).update(status="processing")]. *)
Definition claim (product_ids : list Z) (db : Table) : Table :=
  update_status (fun p => bool_decide (UploadProduct.id p ∈ product_ids))
    processing db.

(** Line 232: [filter(id__in=product_ids)]. *)
Definition claimed (product_ids : list Z) (db : Table) : list UploadProduct.t :=
  filter (fun p => UploadProduct.id p ∈ product_ids) db.

(** [ProductBatchFetcher.__next__], run without interruption. *)
Definition __next__ (self : ProductBatchFetcher)
  : M Table (list UploadProduct.t * list str) :=
  fun db =>
    let products := pending_products self db in
    match products with
    | [] => (Raise StopIteration, db)
    | _ :: _ =>
        let product_ids := map UploadProduct.id products in
        let db' := claim product_ids db in
        let products := claimed product_ids db' in
        let products_ids := map UploadProduct.facebook_product_id products in
        (Ok (products, products_ids), db')
    end.

(** What [process_and_upload] reads and writes. *)
Record World : Type := mkWorld {
  table : Table;                            (* UploadProduct rows *)
  upload_log : list ProductUploadLog.t;     (* ProductUploadLog rows *)
  lock_renewals : nat;                      (* calls of redis.expire *)
  error_log : list string;                  (* logger.error lines *)
  fetches : nat                             (* calls of __next__ so far *)
}.

(** The steps of the loop that reach out of the process, each with the
    number of its batch (the calls of [__next__] before it, less one) and,
    for a log row, its place in the batch. *)
Inductive Op : Type :=
| SendToMeta (batch : nat)            (* self.send_to_meta(csv_content) *)
| MarkSent (batch : nat)              (* the update of mark_products_as_sent *)
| MarkError (batch : nat)             (* the update of mark_products_as_error *)
| CreateLog (batch row : nat)         (* ProductUploadLog.objects.create *)
| Expire (batch : nat)                (* redis_client.expire *)
| HandlerMark (batch : nat).          (* the update of line 77 *)

(** The collaborators of the loop: the answer of [send_to_meta] for the
    n-th batch when it returns; the database failure, if any, that
    interrupts the n-th call of [__next__] before its update, in the
    queries of lines 222-230 or in the update itself; the message of the
    database error, if any, that interrupts it after the update, when the
    rows are counted and read back (lines 232-236); and the exception, if
    any, that each of the other steps raises.  A step that raises has
    written nothing. *)
Record Env : Type := {
  send_to_meta : nat -> bytes -> bool;
  db_fault : nat -> option exn;
  reload_fault : nat -> option string;
  fault : Op -> option exn
}.

Record ProductUploader : Type := {
  up_catalog : Catalog.t;
  product_manager : ProductBatchFetcher
}.

(** [ProductUploader.__init__]: the fetcher works on the catalog of the
    uploader, in batches of 30000. *)
Definition BATCH_SIZE : nat := 30 * 1000.

Definition __init__ (catalog : Catalog.t) : ProductUploader :=
  {| up_catalog := catalog;
     product_manager := {| catalog := catalog; batch_size := BATCH_SIZE |} |}.

Definition set_table (f : Table -> Table) (w : World) : World :=
  mkWorld (f (table w)) (upload_log w) (lock_renewals w) (error_log w)
    (fetches w).

Definition fetch (env : Env) (self : ProductUploader)
  : M World (list UploadProduct.t * list str) :=
  fun w =>
    let w1 := mkWorld (table w) (upload_log w) (lock_renewals w) (error_log w)
                (S (fetches w)) in
    match db_fault env (fetches w) with
    | Some e => (Raise e, w1)
    | None =>
        let '(r, db') := __next__ (product_manager self) (table w) in
        match r, reload_fault env (fetches w) with
        | Ok _, Some msg =>
            (Raise (ExternalError msg), set_table (fun _ => db') w1)
        | _, _ => (r, set_table (fun _ => db') w1)
        end
    end.

(** A step that may fail. *)
Definition guard (env : Env) (op : Op) : M World unit :=
  match fault env op with
  | Some e => raise e
  | None => ret tt
  end.

(** [log_sent_products]: one [ProductUploadLog] row per product id, until
    an identifier without a SKU raises or a row cannot be created; [row]
    counts the identifiers gone through. *)
Fixpoint log_sent_products (env : Env) (self : ProductUploader)
    (batch row : nat) (product_ids : list str) : M World unit :=
  match product_ids with
  | [] => ret tt
  | product_id :: rest =>
      (sku_id <- lift (Sku.extract_sku_id product_id) ;;
       guard env (CreateLog batch row) ;;;
       modify (fun w =>
         mkWorld (table w)
           (upload_log w ++
              [ProductUploadLog.mk sku_id (Catalog.vtex_app (up_catalog self))])
           (lock_renewals w) (error_log w) (fetches w)) ;;;
       log_sent_products env self batch (S row) rest)%py
  end.

Definition expire : M World unit :=
  modify (fun w => mkWorld (table w) (upload_log w) (S (lock_renewals w))
                     (error_log w) (fetches w)).

(** The body of the [for] loop, lines 58-69. *)
Definition body (env : Env) (self : ProductUploader)
    (products : list UploadProduct.t) (products_ids : list str)
  : M World unit :=
  (csv_content <- lift (Feed.convert_to_csv products true) ;;
   batch <- gets (fun w => pred (fetches w)) ;;
   guard env (SendToMeta batch) ;;;
   (if send_to_meta env batch csv_content
    then (guard env (MarkSent batch) ;;;
          modify (set_table (mark_products_as_sent products_ids)) ;;;
          log_sent_products env self batch 0 products_ids)
    else (guard env (MarkError batch) ;;;
          modify (set_table (mark_products_as_error products_ids)))) ;;;
   guard env (Expire batch) ;;;
   expire)%py.

(** The [for] statement of line 57.  The local variable [products_ids] is
    [None] as long as it is unbound; the final binding is returned with the
    outcome.  [fuel] bounds the number of iterations. *)
Fixpoint for_loop (fuel : nat) (env : Env) (self : ProductUploader)
    (products_ids : option (list str)) (w : World)
  : option (result unit * option (list str) * World) :=
  match fuel with
  | O => None
  | S fuel' =>
      match fetch env self w with
      | (Raise StopIteration, w1) => Some (Ok tt, products_ids, w1)
      | (Raise e, w1) => Some (Raise e, products_ids, w1)
      | (Ok (products, ids), w1) =>
          match body env self products ids w1 with
          | (Ok _, w2) => for_loop fuel' env self (Some ids) w2
          | (Raise e, w2) => Some (Raise e, Some ids, w2)
          end
      end
  end.

(** The [except Exception as e] clause, lines 71-77. *)
Definition handler (env : Env) (self : ProductUploader) (e : exn)
    (products_ids : option (list str)) : M World unit :=
  match Catalog.vtex_app (up_catalog self) with
  | None =>
      raise (AttributeError "'NoneType' object has no attribute 'uuid'")
  | Some vtex_uuid =>
      (modify (fun w =>
         mkWorld (table w) (upload_log w) (lock_renewals w)
           (error_log w ++
              ["Error on 'process_and_upload' " +:+ vtex_uuid +:+ ": "
                 +:+ str_exn e])
           (fetches w)) ;;;
       match products_ids with
       | None => raise (UnboundLocalError "products_ids")
       | Some ids =>
           batch <- gets (fun w => pred (fetches w)) ;;
           guard env (HandlerMark batch) ;;;
           modify (set_table (mark_products_as_error ids))
       end)%py
  end.

Definition process_and_upload_fuel (fuel : nat) (env : Env)
    (self : ProductUploader) (w : World) : option (result unit * World) :=
  match for_loop fuel env self None w with
  | None => None
  | Some (Ok _, _, w') => Some (Ok tt, w')
  | Some (Raise e, products_ids, w') =>
      Some (handler env self e products_ids w')
  end.

(** [ProductUploader.process_and_upload]: every iteration claims a pending
    row, so one more iteration than there are rows is enough. *)
Definition process_and_upload (env : Env) (self : ProductUploader) (w : World)
  : option (result unit * World) :=
  process_and_upload_fuel (S (length (table w))) env self w.

End Upload.

(** ** Catalog reconciliation ([tasks.py])

    The Facebook client is built per app from its access token (building
    it is taken to succeed), so its answers are indexed by the app.  A
    remote catalog and the details of a catalog are dictionaries with
    string values.  The set of identifiers to create is walked in the order
    of [elements]. *)

Module Reconcile.

(** The names that [tasks.py] defines at module level, imports included. *)
Definition module_names : list string :=
  ["logging"; "wraps"; "shared_task"; "FacebookClient"; "Catalog";
   "FlowsClient"; "APPTYPES"; "get_redis_connection"; "logger";
   "SYNC_WHATSAPP_CATALOGS_LOCK_KEY"; "sync_facebook_catalogs";
   "handle_exceptions"; "get_extra_info"; "list_all_catalogs_task";
   "update_catalogs_on_flows_task"; "get_catalog_details_task";
   "create_catalog_task"; "delete_catalogs_task"].

Record Env : Type := {
  lock_held : bool;                (* redis.get(SYNC_WHATSAPP_CATALOGS_LOCK_KEY) *)
  apps : list App.t;               (* apptype.apps *)
  list_all_catalogs : App.t -> result (list string * list (gmap string string));
  get_catalog_details : App.t -> string -> result (gmap string string);
  client_uuid : App.t -> option string;   (* the attribute client.uuid, if any *)
  update_catalogs : string -> list (gmap string string) -> result unit;
  create_fault : App.t -> gmap string string -> option exn;
  delete_fault : App.t -> gset string -> option exn;
  new_uuid : nat -> string
}.

Record World : Type := mkWorld {
  catalogs : list Catalog.t;                             (* Catalog rows *)
  flows_calls : list (string * list (gmap string string)); (* update_catalogs calls *)
  log : list string                                      (* logger lines *)
}.

Definition logger (line : string) : M World unit :=
  modify (fun w => mkWorld (catalogs w) (flows_calls w) (log w ++ [line])).

(** [get_extra_info(app, *args)] reads the attribute [uuid] of the first
    argument of the decorated call. *)
Definition get_extra_info (uuid_attr : option string) : result string :=
  match uuid_attr with
  | Some u => Ok ("- UUID: " +:+ u)
  | None => Raise (AttributeError "object has no attribute 'uuid'")
  end.

(** The decorator of lines 61-79; the wrapper returns [None] after an
    exception it does not raise again. *)
Definition handle_exceptions {A} (error_msg : string)
    (continue_on_exception : bool) (extra_info : option (result string))
    (func : M World A) : M World (option A) :=
  try_except
    (a <- func ;; ret (Some a))%py
    (fun e =>
       (extra_info_str <- lift (match extra_info with
                                | Some r => r
                                | None => Ok ""
                                end) ;;
        logger (error_msg +:+ extra_info_str +:+ ": " +:+ str_exn e) ;;;
        if continue_on_exception then ret None else raise e)%py).

Definition list_all_catalogs_task (env : Env) (app : App.t)
  : M World (option (list string * list (gmap string string))) :=
  handle_exceptions "Error listing all catalogs for App: " true
    (Some (get_extra_info (Some (App.uuid app))))
    (try_except
       (lift (list_all_catalogs env app))
       (fun e =>
          (logger ("Error on list all catalogs for App: " +:+ str_exn e) ;;;
           ret ([], []))%py)).

Definition str_opt (o : option string) : string := default "None" o.

Definition update_catalogs_on_flows_task (env : Env) (app : App.t)
    (all_catalogs : list (gmap string string)) : M World (option unit) :=
  handle_exceptions "Error updating catalogs for App: " true
    (Some (get_extra_info (Some (App.uuid app))))
    (let key := str_opt (App.flow_object_uuid app) in
     modify (fun w => mkWorld (catalogs w)
                        (flows_calls w ++ [(key, all_catalogs)]) (log w)) ;;;
     lift (update_catalogs env key all_catalogs))%py.

Definition get_catalog_details_task (env : Env) (app : App.t)
    (catalog_id : string) : M World (option (gmap string string)) :=
  handle_exceptions "Error getting catalog details for App" false
    (Some (get_extra_info (client_uuid env app)))
    (lift (get_catalog_details env app catalog_id)).

(** [details[key]] *)
Definition getitem (details : gmap string string) (key : string)
  : result string :=
  match details !! key with
  | Some v => Ok v
  | None => Raise (KeyError key)
  end.

Definition create_catalog_task (env : Env) (app : App.t)
    (details : gmap string string) : M World (option unit) :=
  handle_exceptions "Error creating catalog for App: " true
    (Some (get_extra_info (Some (App.uuid app))))
    (facebook_catalog_id <- lift (getitem details "id") ;;
     name <- lift (getitem details "name") ;;
     category <- lift (getitem details "vertical") ;;
     match create_fault env app details with
     | Some e => raise e
     | None =>
         modify (fun w =>
           mkWorld
             (catalogs w ++
                [Catalog.mk (new_uuid env (length (catalogs w))) (App.uuid app)
                   facebook_catalog_id name category None None])
             (flows_calls w) (log w))
     end)%py.

Definition delete_catalogs_task (env : Env) (app : App.t)
    (to_delete : gset string) : M World (option unit) :=
  handle_exceptions "Error deleting catalogs for App: " true
    (Some (get_extra_info (Some (App.uuid app))))
    (match delete_fault env app to_delete with
     | Some e => raise e
     | None =>
         modify (fun w =>
           mkWorld
             (filter (fun c => ~ (Catalog.app c = App.uuid app
                                  /\ Catalog.facebook_catalog_id c ∈ to_delete))
                     (catalogs w))
             (flows_calls w) (log w))
     end).

(** [app.catalogs.values_list("facebook_catalog_id", flat=True)] *)
Definition local_catalogs (app : App.t) (w : World) : list string :=
  map Catalog.facebook_catalog_id
    (filter (fun c => Catalog.app c = App.uuid app) (catalogs w)).

(** Lines 52-55: the loop over [to_create]. *)
Fixpoint create_missing (env : Env) (app : App.t) (to_create : list string)
  : M World unit :=
  match to_create with
  | [] => ret tt
  | catalog_id :: rest =>
      (details <- get_catalog_details_task env app catalog_id ;;
       match details with
       | Some d =>
           if bool_decide (d = ∅) then ret None
           else create_catalog_task env app d
       | None => ret None
       end ;;;
       create_missing env app rest)%py
  end.

(** Lines 34-58: the body of the loop over the apps. *)
Definition sync_app (env : Env) (app : App.t) : M World unit :=
  let wa_business_id := get (App.config app) "wa_business_id" in
  let wa_waba_id := get (App.config app) "wa_waba_id" in
  if truthy wa_business_id && truthy wa_waba_id then
    (local_catalog_ids <- gets (fun w => list_to_set (C := gset string)
                                           (local_catalogs app w)) ;;
     listing <- list_all_catalogs_task env app ;;
     match listing with
     | None => raise (TypeError "cannot unpack non-iterable NoneType object")
     | Some (all_catalogs_id, all_catalogs) =>
         match all_catalogs_id with
         | [] => ret tt
         | _ :: _ =>
             update_catalogs_on_flows_task env app all_catalogs ;;;
             let fba_catalogs_ids : gset string := list_to_set all_catalogs_id in
             let to_create := fba_catalogs_ids ∖ local_catalog_ids in
             let to_delete := local_catalog_ids ∖ fba_catalogs_ids in
             create_missing env app (elements to_create) ;;;
             if bool_decide (to_delete = ∅) then ret tt
             else (delete_catalogs_task env app to_delete ;;; ret tt)
         end
     end)%py
  else ret tt.

Fixpoint for_apps (env : Env) (apps : list App.t) : M World unit :=
  match apps with
  | [] => ret tt
  | app :: rest => (sync_app env app ;;; for_apps env rest)%py
  end.

Definition sync_facebook_catalogs (env : Env) : M World unit :=
  if lock_held env then
    logger "The catalogs are already syncing by another task!"
  else for_apps env (apps env).

End Reconcile.

(** ** Admission of a synchronisation ([generic_service.py], lines 275-628) *)

Module Admission.

Record Task : Type := mkTask {
  task_name : string;
  credentials : pyval;
  catalog_uuid : string;
  sellers : option (list string);
  queue : string
}.

Record World : Type := mkWorld {
  apps : list App.t;                (* App rows *)
  catalogs : list Catalog.t;        (* Catalog rows *)
  feeds : list ProductFeed.t;       (* ProductFeed rows *)
  tasks : list Task                 (* celery_app.send_task calls *)
}.

(** What the entry points name and the files at hand do not hold: the
    method [sync_catalogs] of the class that [_get_or_sync_catalog]
    imports, and the administrator account. *)
Record Env : Type := {
  sync_catalogs : App.t -> M World unit;
  admin_user : string
}.

(** [needle in haystack] for two strings. *)
Fixpoint is_prefix (p s : string) : bool :=
  match p, s with
  | EmptyString, _ => true
  | String a p', String b s' => Ascii.eqb a b && is_prefix p' s'
  | String _ _, EmptyString => false
  end.

Fixpoint is_substring (p s : string) : bool :=
  is_prefix p s
  || match s with
     | EmptyString => false
     | String _ s' => is_substring p s'
     end.

(** [key in v] *)
Definition py_in (key : string) (v : pyval) : result bool :=
  match v with
  | PDict d => Ok (bool_decide (key ∈ map fst d))
  | PList l =>
      Ok (existsb (fun x => match x with
                            | PStr s => String.eqb s key
                            | _ => false
                            end) l)
  | PStr s => Ok (is_substring key s)
  | PNone | PBool _ | PInt _ =>
      Raise (TypeError "argument is not iterable")
  end.

(** [all(key in v for key in keys)] *)
Fixpoint all_in (keys : list string) (v : pyval) : result bool :=
  match keys with
  | [] => Ok true
  | key :: rest =>
      match py_in key v with
      | Raise e => Raise e
      | Ok false => Ok false
      | Ok true => all_in rest v
      end
  end.

Definition _get_wpp_cloud_uuid (vtex_app : App.t) : result pyval :=
  let wpp_cloud_uuid := get (App.config vtex_app) "wpp_cloud_uuid" in
  if negb (truthy wpp_cloud_uuid) then
    Raise (ValueError
      "The VTEX app does not have the WPP Cloud UUID in its configuration.")
  else Ok wpp_cloud_uuid.

Definition _get_credentials (vtex_app : App.t) : result pyval :=
  let api_credentials :=
    get_default (App.config vtex_app) "api_credentials" (PDict []) in
  match all_in ["app_key"; "app_token"; "domain"] api_credentials with
  | Raise e => Raise e
  | Ok false => Raise (ValueError "Missing one or more API credentials.")
  | Ok true => Ok api_credentials
  end.

(** The lookup [uuid=v] matches a row whose key is the string [v]. *)
Definition is_str (v : pyval) (s : string) : bool :=
  match v with PStr s' => String.eqb s' s | _ => false end.

(** [queryset.first()] *)
Definition first {A} (rows : list A) : option A := head rows.

(** [BaseModel.save] ([core/models.py]) refuses a stored row without
    [modified_by]; the write replaces the row with the same key. *)
Definition save_app (a : App.t) : M World unit :=
  fun w =>
    match App.modified_by a with
    | None => (Raise (ValueError "modified_by can't be None"), w)
    | Some _ =>
        (Ok tt,
         mkWorld
           (map (fun r => if bool_decide (App.uuid r = App.uuid a) then a else r)
                (apps w))
           (catalogs w) (feeds w) (tasks w))
    end.

Definition save_catalog (c : Catalog.t) : M World unit :=
  fun w =>
    match Catalog.modified_by c with
    | None => (Raise (ValueError "modified_by can't be None"), w)
    | Some _ =>
        (Ok tt,
         mkWorld (apps w)
           (map (fun r => if bool_decide (Catalog.uuid r = Catalog.uuid c)
                          then c else r)
                (catalogs w))
           (feeds w) (tasks w))
    end.

Definition send_task (t : Task) : M World unit :=
  modify (fun w => mkWorld (apps w) (catalogs w) (feeds w) (tasks w ++ [t])).

(** *** First insertion: [CatalogProductInsertion] *)

Module CatalogProductInsertion.

(** [App.objects.get(uuid=wpp_cloud_uuid)] *)
Definition _get_wpp_cloud (wpp_cloud_uuid : pyval) : M World App.t :=
  fun w =>
    match first (filter (fun a => is_str wpp_cloud_uuid (App.uuid a) = true)
                        (apps w))
    with
    | Some a => (Ok a, w)
    | None =>
        (Raise (ValueError
                  "The cloud app linked to the VTEX app does not exist."), w)
    end.

(** [wpp_cloud.catalogs.filter(facebook_catalog_id=catalog_id).first()] *)
Definition find_catalog (wpp_cloud : App.t) (catalog_id : string) (w : World)
  : option Catalog.t :=
  first (filter (fun c => Catalog.app c = App.uuid wpp_cloud
                          /\ Catalog.facebook_catalog_id c = catalog_id)
                (catalogs w)).

(** The first statement of the method imports
    [FacebookCatalogSyncService] from [marketplace.wpp_products.tasks]. *)
Definition _get_or_sync_catalog (env : Env) (wpp_cloud : App.t)
    (catalog_id : string) : M World Catalog.t :=
  (import_from "marketplace.wpp_products.tasks" Reconcile.module_names
     "FacebookCatalogSyncService" ;;;
   catalog <- gets (find_catalog wpp_cloud catalog_id) ;;
   match catalog with
   | Some c => ret c
   | None =>
       sync_catalogs env wpp_cloud ;;;
       catalog <- gets (find_catalog wpp_cloud catalog_id) ;;
       match catalog with
       | Some c => ret c
       | None =>
           raise (ValueError
                    ("Catalog " +:+ catalog_id
                     +:+ " not found for cloud app after synchronization."))
       end
   end)%py.

Definition _delete_existing_feeds_ifexists (catalog : Catalog.t)
  : M World unit :=
  modify (fun w =>
    mkWorld (apps w) (catalogs w)
      (filter (fun f => ProductFeed.catalog f <> Catalog.uuid catalog) (feeds w))
      (tasks w)).

(** The app object is changed in place; the changed object is returned. *)
Definition _update_app_connected_catalog_flag (app : App.t) : M World App.t :=
  let connected_catalog :=
    get_default (App.config app) "connected_catalog" PNone in
  if negb (is_True connected_catalog) then
    let app' :=
      App.mk (App.uuid app) (App.code app)
        (<["connected_catalog" := PBool true]> (App.config app))
        (App.flow_object_uuid app) (App.modified_by app) in
    (save_app app' ;;; ret app')%py
  else ret app.

Definition _link_catalog_to_vtex_app_if_needed (env : Env)
    (catalog : Catalog.t) (vtex_app : App.t) : M World unit :=
  match Catalog.vtex_app catalog with
  | None =>
      save_catalog
        (Catalog.mk (Catalog.uuid catalog) (Catalog.app catalog)
           (Catalog.facebook_catalog_id catalog) (Catalog.name catalog)
           (Catalog.category catalog) (Some (App.uuid vtex_app))
           (Some (admin_user env)))
  | Some _ => ret tt
  end.

Definition _send_insert_task (credentials : pyval) (catalog : Catalog.t)
    (sellers : option (list string)) : M World unit :=
  send_task (mkTask "task_insert_vtex_products" credentials
               (Catalog.uuid catalog) sellers "product_first_synchronization").

(** The result is the app object as the call leaves it. *)
Definition first_product_insert_with_catalog (env : Env) (vtex_app : App.t)
    (catalog_id : string) (sellers : option (list string)) : M World App.t :=
  (wpp_cloud_uuid <- lift (_get_wpp_cloud_uuid vtex_app) ;;
   credentials <- lift (_get_credentials vtex_app) ;;
   wpp_cloud <- _get_wpp_cloud wpp_cloud_uuid ;;
   catalog <- _get_or_sync_catalog env wpp_cloud catalog_id ;;
   _delete_existing_feeds_ifexists catalog ;;;
   vtex_app <- _update_app_connected_catalog_flag vtex_app ;;
   _link_catalog_to_vtex_app_if_needed env catalog vtex_app ;;;
   _send_insert_task credentials catalog sellers ;;;
   ret vtex_app)%py.

End CatalogProductInsertion.

(** *** Insertion by seller: [CatalogInsertionBySeller] *)

Module CatalogInsertionBySeller.

(** [App.objects.get(uuid=wpp_cloud_uuid, code="wpp-cloud")] *)
Definition _get_wpp_cloud (wpp_cloud_uuid : pyval) : M World App.t :=
  fun w =>
    match first (filter (fun a => is_str wpp_cloud_uuid (App.uuid a) = true
                                  /\ App.code a = "wpp-cloud") (apps w))
    with
    | Some a => (Ok a, w)
    | None =>
        (Raise (ValueError
                  "The cloud app linked to the VTEX app does not exist."), w)
    end.

Definition _validate_link_apps (wpp_cloud vtex_app : App.t)
  : M World Catalog.t :=
  fun w =>
    match first (filter (fun c => Catalog.vtex_app c = Some (App.uuid vtex_app))
                        (catalogs w)) with
    | None =>
        (Raise (ValueError
                  ("There must be a catalog linked to the vtex app "
                   +:+ App.uuid vtex_app)), w)
    | Some vtex_catalog =>
        match first (filter (fun c =>
                       Catalog.app c = App.uuid wpp_cloud
                       /\ Catalog.facebook_catalog_id c
                          = Catalog.facebook_catalog_id vtex_catalog)
                       (catalogs w)) with
        | None => (Raise (ValueError "Catalog not found for cloud app."), w)
        | Some catalog => (Ok catalog, w)
        end
    end.

Definition _validate_sync_status (vtex_app : App.t) : result unit :=
  let can_synchronize :=
    get_default (App.config vtex_app) "initial_sync_completed" (PBool false) in
  if negb (truthy can_synchronize) then
    Raise (ValueError "Initial synchronization not completed.")
  else Ok tt.

Definition _use_sync_v2 (vtex_app : App.t) : pyval :=
  get_default (App.config vtex_app) "use_sync_v2" (PBool false).

Definition _validate_catalog_feed (catalog : Catalog.t) : M World unit :=
  fun w =>
    match first (filter (fun f => ProductFeed.catalog f = Catalog.uuid catalog)
                        (feeds w)) with
    | None => (Raise (ValueError "At least 1 feed created is required"), w)
    | Some _ => (Ok tt, w)
    end.

Definition _validate_connected_catalog_flag (vtex_app : App.t) : result unit :=
  let connected_catalog :=
    get_default (App.config vtex_app) "connected_catalog" PNone in
  if negb (is_True connected_catalog) then
    Raise (ValueError "Change connected_catalog to True.")
  else Ok tt.

Definition _send_task (credentials : pyval) (catalog : Catalog.t)
    (sellers : list string) : M World unit :=
  send_task (mkTask "task_insert_vtex_products_by_sellers" credentials
               (Catalog.uuid catalog) (Some sellers)
               "product_first_synchronization").

(** Lines 510-514: the checks shared with the first insertion. *)
Definition linked_catalog (vtex_app : App.t) : M World (pyval * Catalog.t) :=
  (wpp_cloud_uuid <- lift (_get_wpp_cloud_uuid vtex_app) ;;
   credentials <- lift (_get_credentials vtex_app) ;;
   wpp_cloud <- _get_wpp_cloud wpp_cloud_uuid ;;
   catalog <- _validate_link_apps wpp_cloud vtex_app ;;
   ret (credentials, catalog))%py.

Definition start_insertion_by_seller (vtex_app : option App.t)
    (sellers : list string) : M World unit :=
  match vtex_app with
  | None => raise (ValueError "'vtex_app' is required.")
  | Some vtex_app =>
      match sellers with
      | [] => raise (ValueError "'sellers' is required.")
      | _ :: _ =>
          (linked <- linked_catalog vtex_app ;;
           let '(credentials, catalog) := linked in
           lift (_validate_sync_status vtex_app) ;;;
           let use_sync_v2 := _use_sync_v2 vtex_app in
           (if is_False use_sync_v2 then _validate_catalog_feed catalog
            else ret tt) ;;;
           lift (_validate_connected_catalog_flag vtex_app) ;;;
           _send_task credentials catalog sellers)%py
      end
  end.

End CatalogInsertionBySeller.

End Admission.

(** ** Vocabulary of the properties

    Predicates and observations used to state the properties below; they
    describe inputs and outputs and are not part of the program. *)

Module Vocabulary.





(** The lines of a text or of a file: the pieces between line feeds. *)
Fixpoint lines_of (s : list N) : list (list N) :=
  match s with
  | [] => [[]]
  | c :: r =>
      if N.eqb c Feed.NEWLINE then [] :: lines_of r
      else match lines_of r with
           | l :: ls => (c :: l) :: ls
           | [] => [[c]]
           end
  end.

(** How many lines of [s] are the header of the feed. *)
Definition header_lines (s : list N) : nat :=
  length (filter (fun l => l = Feed.header) (lines_of s)).

(** The octets of a text that can be encoded. *)
Definition encoded (text : str) : bytes :=
  match Feed.encode text with
  | Ok bs => bs
  | Raise _ => []
  end.

(** Values on which the test [key in v] is defined. *)
Definition iterable (v : pyval) : Prop :=
  match v with
  | PNone | PBool _ | PInt _ => False
  | PStr _ | PList _ | PDict _ => True
  end.

(** The catalog has at least one [ProductFeed]. *)
Definition has_feed (catalog : Catalog.t) (w : Admission.World) : Prop :=
  exists f, f ∈ Admission.feeds w
            /\ ProductFeed.catalog f = Catalog.uuid catalog.

(** The three flags of a VTEX app, as the admission code reads them. *)
Definition sync_completed (vtex_app : App.t) : bool :=
  truthy (get_default (App.config vtex_app) "initial_sync_completed"
            (PBool false)).

Definition connected (vtex_app : App.t) : bool :=
  is_True (get_default (App.config vtex_app) "connected_catalog" PNone).

Definition legacy_sync (vtex_app : App.t) : bool :=
  is_False (get_default (App.config vtex_app) "use_sync_v2" (PBool false)).

(** The connection has a business identity and a catalog-account
    identity. *)
Definition both_identities (app : App.t) : bool :=
  truthy (get (App.config app) "wa_business_id")
  && truthy (get (App.config app) "wa_waba_id").


(** A computation that never raises, and one that makes no call to the
    downstream consumer. *)
Definition total {S A} (m : M S A) : Prop :=
  forall w, exists a w', m w = (Ok a, w').

Definition keeps_flows {A} (m : M Reconcile.World A) : Prop :=
  forall w, Reconcile.flows_calls (snd (m w)) = Reconcile.flows_calls w.

(** Lines 46-58 of [sync_facebook_catalogs]: what [sync_app] does after
    a listing that is not empty. *)
Definition reconcile (env : Reconcile.Env) (app : App.t)
    (local_catalog_ids : gset string) (all_catalogs_id : list string)
    (all_catalogs : list (gmap string string)) : M Reconcile.World unit :=
  (Reconcile.update_catalogs_on_flows_task env app all_catalogs ;;;
   let fba_catalogs_ids : gset string := list_to_set all_catalogs_id in
   let to_create := fba_catalogs_ids ∖ local_catalog_ids in
   let to_delete := local_catalog_ids ∖ fba_catalogs_ids in
   Reconcile.create_missing env app (elements to_create) ;;;
   if bool_decide (to_delete = ∅) then ret tt
   else (Reconcile.delete_catalogs_task env app to_delete ;;; ret tt))%py.


(** A row that the fetcher of [self] may select. *)
Definition pending_for (self : Upload.ProductBatchFetcher)
    (p : UploadProduct.t) : Prop :=
  UploadProduct.catalog p = Catalog.uuid (Upload.catalog self)
  /\ UploadProduct.status p = pending.

(** The rows of the catalog that are [pending], oldest first: the query
    of [__next__] before it is cut to the batch size. *)
Definition queue (self : Upload.ProductBatchFetcher)
    (db : list UploadProduct.t) : list UploadProduct.t :=
  Upload.order_by_modified_on
    (filter (fun p => UploadProduct.catalog p
                      = Catalog.uuid (Upload.catalog self)
                      /\ UploadProduct.status p = pending) db).

(** How many rows the fetcher of [self] has still to hand out. *)
Definition pending_count (self : Upload.ProductBatchFetcher)
    (db : list UploadProduct.t) : nat :=
  length (filter (fun p => pending_for self p) db).

(** What may happen to the table between two calls of [__next__] in one
    pass: keys stay unique and no row is put back to [pending]. *)
Definition requeues_nothing (db db' : list UploadProduct.t) : Prop :=
  NoDup (map UploadProduct.id db')
  /\ forall p', p' ∈ db' -> UploadProduct.status p' = pending ->
               exists p, p ∈ db /\ UploadProduct.id p = UploadProduct.id p'
                         /\ UploadProduct.status p = pending.

(** The batches handed out by successive calls of [__next__] on one
    fetcher, from the table [db] on. *)
Inductive pass (self : Upload.ProductBatchFetcher)
  : list UploadProduct.t -> list (list UploadProduct.t) -> Prop :=
| pass_stop db : pass self db []
| pass_batch db products products_ids db1 db2 batches :
    Upload.__next__ self db = (Ok (products, products_ids), db1) ->
    requeues_nothing db1 db2 ->
    pass self db2 batches ->
    pass self db (products :: batches).

(** The state that first-insertion admission aims at: the flag is set,
    the catalog is found and linked, and it has no feed left. *)
Definition target_state (app : App.t) (catalog_id : string)
    (w : Admission.World) : Prop :=
  connected app = true
  /\ exists u credentials wpp c,
      Admission._get_wpp_cloud_uuid app = Ok u
      /\ Admission._get_credentials app = Ok credentials
      /\ Admission.CatalogProductInsertion._get_wpp_cloud u w = (Ok wpp, w)
      /\ Admission.CatalogProductInsertion.find_catalog wpp catalog_id w
         = Some c
      /\ Catalog.vtex_app c <> None
      /\ forall f, f ∈ Admission.feeds w ->
                   ProductFeed.catalog f <> Catalog.uuid c.

(** The app object once [connected_catalog] has been set. *)
Definition flagged (app : App.t) : App.t :=
  App.mk (App.uuid app) (App.code app)
    (<["connected_catalog" := PBool true]> (App.config app))
    (App.flow_object_uuid app) (App.modified_by app).

End Vocabulary.

(** ** Sample data

    Concrete rows and configurations for the examples below. *)

Module Samples.

Definition credentials : pyval :=
  PDict [("domain", PStr "shop.example"); ("app_key", PStr "key");
         ("app_token", PStr "token")].

(** A VTEX app as [configure] leaves it, with the three flags given. *)
Definition vtex_config (initial_sync_completed connected_catalog use_sync_v2
    : pyval) : gmap string pyval :=
  <["api_credentials" := credentials]>
    (<["wpp_cloud_uuid" := PStr "w1"]>
       (<["initial_sync_completed" := initial_sync_completed]>
          (<["connected_catalog" := connected_catalog]>
             (<["use_sync_v2" := use_sync_v2]> ∅)))).

Definition vtex (initial_sync_completed connected_catalog use_sync_v2 : pyval)
  : App.t :=
  App.mk "v1" "vtex"
    (vtex_config initial_sync_completed connected_catalog use_sync_v2)
    None (Some "admin").

Definition wpp_cloud : App.t :=
  App.mk "w1" "wpp-cloud"
    (<["wa_business_id" := PStr "b1"]> (<["wa_waba_id" := PStr "a1"]> ∅))
    (Some "f1") (Some "admin").

Definition catalog (vtex_app : option string) : Catalog.t :=
  Catalog.mk "c1" "w1" "101" "Store" "commerce" vtex_app (Some "admin").

Definition feed : ProductFeed.t := ProductFeed.mk "feed1" "c1".

Definition admission_world (v : App.t) (linked : option string)
    (feeds : list ProductFeed.t) : Admission.World :=
  Admission.mkWorld [v; wpp_cloud] [catalog linked] feeds [].

Definition no_sync : Admission.Env :=
  {| Admission.sync_catalogs := fun _ => ret tt;
     Admission.admin_user := "admin" |}.

(** Two WhatsApp connections.  The first one lists a catalog that is not
    known locally. *)
Definition wpp_cloud2 : App.t :=
  App.mk "w2" "wpp-cloud"
    (<["wa_business_id" := PStr "b2"]> (<["wa_waba_id" := PStr "a2"]> ∅))
    (Some "f2") (Some "admin").

Definition entry (id name : string) : gmap string string :=
  <["id" := id]> (<["name" := name]> ∅).

Definition details (id name : string) : gmap string string :=
  <["id" := id]> (<["name" := name]> (<["vertical" := "commerce"]> ∅)).

Definition listing (app : App.t)
  : result (list string * list (gmap string string)) :=
  if String.eqb (App.uuid app) "w1" then Ok (["101"], [entry "101" "Store"])
  else Ok (["202"], [entry "202" "Shop"]).

(** Every collaborator answers. *)
Definition healthy : Reconcile.Env :=
  {| Reconcile.lock_held := false;
     Reconcile.apps := [wpp_cloud; wpp_cloud2];
     Reconcile.list_all_catalogs := listing;
     Reconcile.get_catalog_details :=
       fun app id => Ok (details id "Store");
     Reconcile.client_uuid := fun _ => None;
     Reconcile.update_catalogs := fun _ _ => Ok tt;
     Reconcile.create_fault := fun _ _ => None;
     Reconcile.delete_fault := fun _ _ => None;
     Reconcile.new_uuid := fun n => "new" |}.

(** The details of a catalog cannot be fetched. *)
Definition details_down : Reconcile.Env :=
  {| Reconcile.lock_held := false;
     Reconcile.apps := [wpp_cloud; wpp_cloud2];
     Reconcile.list_all_catalogs := listing;
     Reconcile.get_catalog_details :=
       fun app id => Raise (ExternalError "details unavailable");
     Reconcile.client_uuid := fun app => Some (App.uuid app);
     Reconcile.update_catalogs := fun _ _ => Ok tt;
     Reconcile.create_fault := fun _ _ => None;
     Reconcile.delete_fault := fun _ _ => None;
     Reconcile.new_uuid := fun n => "new" |}.

(** The listing, the push, the creation and the deletion all fail. *)
Definition all_but_details_down : Reconcile.Env :=
  {| Reconcile.lock_held := false;
     Reconcile.apps := [wpp_cloud; wpp_cloud2];
     Reconcile.list_all_catalogs :=
       fun app => if String.eqb (App.uuid app) "w1"
                  then Raise (ExternalError "listing unavailable")
                  else listing app;
     Reconcile.get_catalog_details :=
       fun app id => Ok (details id "Store");
     Reconcile.client_uuid := fun _ => None;
     Reconcile.update_catalogs :=
       fun _ _ => Raise (ExternalError "flows unavailable");
     Reconcile.create_fault :=
       fun _ _ => Some (ExternalError "insert refused");
     Reconcile.delete_fault :=
       fun _ _ => Some (ExternalError "delete refused");
     Reconcile.new_uuid := fun n => "new" |}.

(** The remote listing of the only connection is empty. *)
Definition empty_listing : Reconcile.Env :=
  {| Reconcile.lock_held := false;
     Reconcile.apps := [wpp_cloud];
     Reconcile.list_all_catalogs := fun _ => Ok ([], []);
     Reconcile.get_catalog_details :=
       fun app id => Ok (details id "Store");
     Reconcile.client_uuid := fun _ => None;
     Reconcile.update_catalogs := fun _ _ => Ok tt;
     Reconcile.create_fault := fun _ _ => None;
     Reconcile.delete_fault := fun _ _ => None;
     Reconcile.new_uuid := fun n => "new" |}.

Definition no_catalogs : Reconcile.World := Reconcile.mkWorld [] [] [].

Definition stale_catalog : Reconcile.World :=
  Reconcile.mkWorld [catalog None] [] [].

(** Two pending products of catalog [c1], the older one first, and a
    product whose identifier has no numeric SKU. *)
Definition p1 : UploadProduct.t :=
  UploadProduct.mk 1 (Feed.literal "55#7") "c1" (Feed.literal "55#7,Pan")
    pending 10.

Definition p2 : UploadProduct.t :=
  UploadProduct.mk 2 (Feed.literal "56#7") "c1" (Feed.literal "56#7,Pot")
    pending 20.

Definition bad : UploadProduct.t :=
  UploadProduct.mk 3 (Feed.literal "abc#7") "c1" (Feed.literal "abc#7,Lid")
    pending 30.

Definition fetcher (batch_size : nat) : Upload.ProductBatchFetcher :=
  {| Upload.catalog := catalog (Some "v1"); Upload.batch_size := batch_size |}.

Definition uploader (batch_size : nat) : Upload.ProductUploader :=
  {| Upload.up_catalog := catalog (Some "v1");
     Upload.product_manager := fetcher batch_size |}.

Definition upload_world (rows : list UploadProduct.t) : Upload.World :=
  Upload.mkWorld rows [] 0 [] 0.

(** Every upload succeeds and the database answers. *)
Definition uploads_ok : Upload.Env :=
  {| Upload.send_to_meta := fun _ _ => true;
     Upload.db_fault := fun _ => None;
     Upload.reload_fault := fun _ => None;
     Upload.fault := fun _ => None |}.

(** Every upload is refused. *)
Definition uploads_refused : Upload.Env :=
  {| Upload.send_to_meta := fun _ _ => false;
     Upload.db_fault := fun _ => None;
     Upload.reload_fault := fun _ => None;
     Upload.fault := fun _ => None |}.

(** The database is unreachable when the n-th batch is fetched, and
    answers again afterwards. *)
Definition db_down_at (n : nat) : Upload.Env :=
  {| Upload.send_to_meta := fun _ _ => true;
     Upload.db_fault :=
       fun k => if Nat.eqb k n then Some (ExternalError "connection lost")
                else None;
     Upload.reload_fault := fun _ => None;
     Upload.fault := fun _ => None |}.

(** The database is lost from the n-th batch on: the queries and the
    updates fail alike. *)
Definition db_lost_from (n : nat) : Upload.Env :=
  {| Upload.send_to_meta := fun _ _ => true;
     Upload.db_fault :=
       fun k => if Nat.leb n k then Some (ExternalError "connection lost")
                else None;
     Upload.reload_fault :=
       fun k => if Nat.leb n k then Some "connection lost" else None;
     Upload.fault :=
       fun op =>
         match op with
         | Upload.SendToMeta _ | Upload.Expire _ => None
         | Upload.MarkSent k | Upload.MarkError k | Upload.CreateLog k _
         | Upload.HandlerMark k =>
             if Nat.leb n k then Some (ExternalError "connection lost")
             else None
         end |}.

End Samples.


(** ** The VTEX service ([generic_service.py], lines 34-137) and the
    view that starts a synchronisation by seller
    ([core/types/ecommerce/vtex/views.py], lines 102-117) *)

Module Service.

(** [CredentialsValidationError] is declared in
    [services/vtex/exceptions.py]. *)
Definition CredentialsValidationError : exn :=
  ExternalError "CredentialsValidationError".

(** The dataclass of lines 34-45; the fields hold whatever they are
    given. *)
Record APICredentials : Type := mkAPICredentials {
  domain : pyval;
  app_key : pyval;
  app_token : pyval
}.

Definition to_dict (self : APICredentials) : pyval :=
  PDict [("domain", domain self); ("app_key", app_key self);
         ("app_token", app_token self)].

(** [v[key]] for a string [key]. *)
Fixpoint assoc (key : string) (d : list (string * pyval)) : option pyval :=
  match d with
  | [] => None
  | (k, v) :: rest => if String.eqb k key then Some v else assoc key rest
  end.

Definition subscript (v : pyval) (key : string) : result pyval :=
  match v with
  | PDict d =>
      match assoc key d with
      | Some x => Ok x
      | None => Raise (KeyError key)
      end
  | PStr _ => Raise (TypeError "string indices must be integers")
  | PList _ =>
      Raise (TypeError "list indices must be integers or slices, not str")
  | PNone | PBool _ | PInt _ => Raise (TypeError "object is not subscriptable")
  end.

Definition RULES : pyval :=
  PList [PStr "exclude_alcoholic_drinks"; PStr "calculate_by_weight";
         PStr "currency_pt_br"; PStr "unifies_id_with_seller"].

(** [VtexServiceBase.configure].  The column [configured], which the
    method sets as well, is not among the fields that [App.t] keeps. *)
Definition configure (app : App.t) (credentials : APICredentials)
    (wpp_cloud_uuid store_domain : pyval) : M Admission.World App.t :=
  let config :=
    <["store_domain" := store_domain]>
      (<["use_sync_v2" := PBool true]>
         (<["rules" := RULES]>
            (<["connected_catalog" := PBool false]>
               (<["title" := domain credentials]>
                  (<["initial_sync_completed" := PBool false]>
                     (<["wpp_cloud_uuid" := wpp_cloud_uuid]>
                        (<["api_credentials" := to_dict credentials]>
                           (App.config app)))))))) in
  let app' :=
    App.mk (App.uuid app) (App.code app) config (App.flow_object_uuid app)
      (App.modified_by app) in
  (Admission.save_app app' ;;; ret app')%py.

Definition get_vtex_credentials_or_raise (app : App.t)
  : result APICredentials :=
  match App.config app !! "api_credentials" with
  | None => Raise (KeyError "api_credentials")
  | Some api_credentials =>
      match subscript api_credentials "domain" with
      | Raise e => Raise e
      | Ok domain =>
          match subscript api_credentials "app_key" with
          | Raise e => Raise e
          | Ok app_key =>
              match subscript api_credentials "app_token" with
              | Raise e => Raise e
              | Ok app_token =>
                  if negb (truthy domain) || negb (truthy app_key)
                     || negb (truthy app_token)
                  then Raise CredentialsValidationError
                  else Ok {| domain := domain; app_key := app_key;
                             app_token := app_token |}
              end
          end
      end
  end.

(** The database together with the lines of [logger.error]. *)
Record World : Type := mkWorld {
  db : Admission.World;
  error_log : list string
}.

Definition on_db {A} (m : M Admission.World A) : M World A :=
  fun w => let '(r, d) := m (db w) in (r, mkWorld d (error_log w)).

Definition logger_error (line : string) : M World unit :=
  modify (fun w => mkWorld (db w) (error_log w ++ [line])).

(** [VtexServiceBase.synchronized_sellers].  The handler reads
    [app.uuid] for the extra fields of the log line before it logs. *)
Definition synchronized_sellers (app : option App.t)
    (sellers_id : list string) : M World bool :=
  try_except
    (on_db (Admission.CatalogInsertionBySeller.start_insertion_by_seller
              app sellers_id) ;;;
     ret true)%py
    (fun e =>
       match app with
       | None =>
           raise (AttributeError "'NoneType' object has no attribute 'uuid'")
       | Some _ =>
           (logger_error ("Error on synchronized_sellers: " +:+ str_exn e) ;;;
            ret false)%py
       end).

Record Response : Type := mkResponse {
  data : pyval;
  status : Z
}.

Definition HTTP_200_OK : Z := 200.
Definition HTTP_400_BAD_REQUEST : Z := 400.

(** [VtexViewSet.sync_sellers], once the serializer has accepted the
    request and [get_object] has found the app. *)
Definition sync_sellers (app : App.t) (sellers_id : list string)
  : M World Response :=
  (success <- synchronized_sellers (Some app) sellers_id ;;
   if negb success then
     ret (mkResponse
            (PDict [("message", PStr "failure to start synchronization")])
            HTTP_400_BAD_REQUEST)
   else ret (mkResponse PNone HTTP_200_OK))%py.

End Service.

(** ** Locks in Redis ([utils.py], lines 263-309)

    Redis is seen at the time of a call: the keys that have not expired,
    each with its value and, when it was set with [ex=], the seconds it
    has left.  The JSON codec, the clock and the check that the server
    makes of an expire time are outside the program. *)

Module Locks.

Record Env : Type := {
  dumps : pyval -> string;            (* json.dumps *)
  loads : string -> result pyval;     (* json.loads *)
  now : string;                       (* datetime.now(timezone.utc).isoformat() *)
  expire_error : Z -> option exn      (* the error of the server for an
                                         expire time that it refuses *)
}.

Record Task : Type := mkTask {
  task_name : string;
  app_vtex_uuid : string;
  queue : string
}.

Record Entry : Type := mkEntry {
  value : string;
  ttl : option N                      (* seconds left; None: no expiry *)
}.

Record World : Type := mkWorld {
  redis : gmap string Entry;
  sent : list Task                    (* celery_app.send_task calls *)
}.

(** Time goes by: a key that has no more than [seconds] left is gone. *)
Definition age (seconds : N) (e : Entry) : option Entry :=
  match ttl e with
  | None => Some e
  | Some remaining =>
      if (seconds <? remaining)%N
      then Some (mkEntry (value e) (Some (remaining - seconds)%N))
      else None
  end.

Definition elapse (seconds : N) (w : World) : World :=
  mkWorld (omap (age seconds) (redis w)) (sent w).

Definition expiration_time_default : Z := 86400.

(** [redis_client.set(key, value, nx=True, ex=ex)]: the server checks the
    expire time first, then writes the key only if it is absent. *)
Definition set_nx_ex (env : Env) (key val : string) (ex : Z)
  : M World bool :=
  fun w =>
    match expire_error env ex with
    | Some e => (Raise e, w)
    | None =>
        match redis w !! key with
        | None =>
            (Ok true,
             mkWorld (<[key := mkEntry val (Some (Z.to_N ex))]> (redis w))
               (sent w))
        | Some _ => (Ok false, w)
        end
    end.

(** [SellerSyncUtils.create_lock] *)
Definition create_lock (env : Env) (app_uuid : string) (sellers : list string)
    (expiration_time : Z) : M World (option string) :=
  let lock_key := "sync-sellers:" +:+ app_uuid in
  let lock_value :=
    dumps env (PDict [("app_uuid", PStr app_uuid);
                      ("sellers", PList (map PStr sellers));
                      ("start_time", PStr (now env))]) in
  (written <- set_nx_ex env lock_key lock_value expiration_time ;;
   if written : bool then ret (Some lock_key) else ret None)%py.

Definition release_lock (lock_key : string) : M World unit :=
  modify (fun w => mkWorld (delete lock_key (redis w)) (sent w)).

Definition get_lock_data (env : Env) (lock_key : string)
  : M World (option pyval) :=
  fun w =>
    match redis w !! lock_key with
    | Some entry =>
        let lock_value := value entry in
        if negb (String.eqb lock_value "") then
          match loads env lock_value with
          | Ok v => (Ok (Some v), w)
          | Raise e => (Raise e, w)
          end
        else (Ok None, w)
    | None => (Ok None, w)
    end.

(** [UploadManager.check_and_start_upload] *)
Definition check_and_start_upload (app_uuid : string) : M World unit :=
  fun w =>
    let lock_upload_key := "upload_lock:" +:+ app_uuid in
    match redis w !! lock_upload_key with
    | None =>
        (Ok tt,
         mkWorld (redis w)
           (sent w ++ [mkTask "task_upload_vtex_products" app_uuid
                         "vtex-product-upload"]))
    | Some _ => (Ok tt, w)
    end.

End Locks.

(** ** Sending a file to Meta ([utils.py], lines 33-142 and 163-173,
    246-260)

    The Facebook service and the notification service answer as the
    environment says. *)

Module Meta.

Record Uploader : Type := {
  catalog : Catalog.t;
  feed_id : option string
}.

(** The part of [ProductUploader.__init__] that reads the feed of the
    catalog. *)
Definition __init__ (catalog : Catalog.t) (feeds : list ProductFeed.t)
  : result Uploader :=
  match Admission.first
          (filter (fun f => ProductFeed.catalog f = Catalog.uuid catalog)
                  feeds) with
  | None =>
      Raise (AttributeError
               "'NoneType' object has no attribute 'facebook_feed_id'")
  | Some f =>
      Ok {| catalog := catalog;
            feed_id := if negb (String.eqb (ProductFeed.facebook_feed_id f) "")
                       then Some (ProductFeed.facebook_feed_id f)
                       else None |}
  end.

Record Env : Type := {
  uploads_in_progress : option string -> result pyval;
  _wait_for_upload_completion : option string -> pyval -> result pyval;
  update_product_feed : option string -> bytes -> string -> result pyval;
  create_notification : Catalog.t -> string -> exn -> result unit;
  now : string                        (* datetime.now().strftime(...) *)
}.

(** One call of [generate_log_with_file]: the attachment and the log
    record. *)
Record FileLog : Type := mkFileLog {
  attachment : bytes;
  filename : string;
  message : string;
  log_catalog : string;
  log_vtex_app : string;
  log_feed_id : option string;
  log_file_name : string;
  log_upload_id : pyval
}.

Record World : Type := mkWorld {
  file_logs : list FileLog;
  notifications : list (string * string)   (* create_notification calls *)
}.

(** [TimeoutError] is a built-in exception; only its text is used. *)
Definition TimeoutError (msg : string) : exn := ExternalError msg.

Definition _generate_file_upload_log (self : Uploader) (csv_content : bytes)
    (exception : exn) (file_name : string) (upload_id : pyval)
  : M World unit :=
  match Catalog.vtex_app (catalog self) with
  | None =>
      raise (AttributeError "'NoneType' object has no attribute 'uuid'")
  | Some vtex_uuid =>
      modify (fun w =>
        mkWorld
          (file_logs w ++
             [mkFileLog csv_content file_name
                ("Error on upload feed to Meta: " +:+ str_exn exception)
                (Catalog.name (catalog self)) vtex_uuid (feed_id self)
                file_name upload_id])
          (notifications w))
  end.

(** The [except] clause of lines 122-142, with the values that
    [file_name] and [upload_id] have when the exception is caught. *)
Definition handler (env : Env) (self : Uploader) (csv_content : bytes)
    (e : exn) (file_name : string) (upload_id : pyval) : M World bool :=
  match Catalog.vtex_app (catalog self) with
  | None =>
      raise (AttributeError "'NoneType' object has no attribute 'uuid'")
  | Some _ =>
      (_generate_file_upload_log self csv_content e file_name upload_id ;;;
       let incident_name :=
         "Error sending data to Meta to " +:+ Catalog.name (catalog self) in
       try_except
         (modify (fun w =>
            mkWorld (file_logs w)
              (notifications w
               ++ [(Catalog.name (catalog self), incident_name)])) ;;;
          lift (create_notification env (catalog self) incident_name e))
         (fun _ => ret tt) ;;;
       ret false)%py
  end.

Definition is_None (v : pyval) : bool :=
  match v with PNone => true | _ => false end.

Definition send_to_meta (env : Env) (self : Uploader) (csv_content : bytes)
  : M World bool :=
  fun w =>
    let file_name := "DefaultFile.csv" in
    match uploads_in_progress env (feed_id self) with
    | Raise e => handler env self csv_content e file_name PNone w
    | Ok upload_id_in_process =>
        match (if truthy upload_id_in_process
               then _wait_for_upload_completion env (feed_id self)
                      upload_id_in_process
               else Ok PNone) with
        | Raise e => handler env self csv_content e file_name PNone w
        | Ok _ =>
            let file_name :=
              "update_" +:+ now env +:+ "_"
              +:+ Catalog.facebook_catalog_id (catalog self) in
            match update_product_feed env (feed_id self) csv_content
                    file_name with
            | Raise e => handler env self csv_content e file_name PNone w
            | Ok upload_id =>
                if is_None upload_id then
                  match _generate_file_upload_log self csv_content
                          (ValueError "Feed upload was not complete.")
                          file_name upload_id w with
                  | (Raise e, w1) =>
                      handler env self csv_content e file_name upload_id w1
                  | (Ok _, w1) => (Ok false, w1)
                  end
                else
                  match _wait_for_upload_completion env (feed_id self)
                          upload_id with
                  | Raise e =>
                      handler env self csv_content e file_name upload_id w
                  | Ok upload_complete =>
                      if is_False upload_complete then
                        match _generate_file_upload_log self csv_content
                                (TimeoutError
                                   "Upload did not complete within the expected time frame.")
                                file_name upload_id w with
                        | (Raise e, w1) =>
                            handler env self csv_content e file_name
                              upload_id w1
                        | (Ok _, w1) => (Ok false, w1)
                        end
                      else (Ok true, w)
                  end
            end
        end
    end.

End Meta.

(** ** Fetching and saving products ([generic_service.py], lines
    165-248 and 425-498)

    The VTEX private service and the product manager answer as the
    environment says; a product is known by its identifier only. *)

Module Products.

Abbreviation DTO := string (only parsing).

Record Env : Type := {
  list_all_actives_sellers : pyval -> result (list pyval);
  update_webhook_product_info :
    pyval -> list string -> list pyval -> Catalog.t -> result (list DTO);
  save_csv_product_data :
    list DTO -> Catalog.t -> ProductFeed.t -> result bool;
  update_batch_webhook : pyval -> list string -> Catalog.t -> result bool;
  list_all_products :
    pyval -> Catalog.t -> list string -> pyval -> result (list DTO);
  bulk_save_csv_product_data :
    list DTO -> Catalog.t -> option ProductFeed.t -> result bool
}.

(** One call of [save_csv_product_data] or [bulk_save_csv_product_data]. *)
Record Save : Type := mkSave {
  products_dto : list DTO;
  save_catalog : string;
  product_feed : option ProductFeed.t
}.

Record World : Type := mkWorld {
  db : Admission.World;
  saves : list Save
}.

Definition record_save (s : Save) : M World unit :=
  modify (fun w => mkWorld (db w) (saves w ++ [s])).

(** [Exception(msg)] *)
Definition Exception (msg : string) : exn := ExternalError msg.

Record ProductUpdateService : Type := {
  api_credentials : Service.APICredentials;
  catalog : Catalog.t;
  skus_ids : list string;
  webhook : option (gmap string pyval);
  sellers_skus : list string;
  feed : option ProductFeed.t               (* self.product_feed *)
}.

Definition webhook_product_insert (env : Env) (self : ProductUpdateService)
  : M World (option (list DTO)) :=
  match webhook self with
  | None => raise (AttributeError "'NoneType' object has no attribute 'get'")
  | Some wh =>
      (seller_ids <-
         lift (Sellers._get_sellers_ids wh
                 (list_all_actives_sellers env
                    (Service.domain (api_credentials self)))) ;;
       products <-
         lift (update_webhook_product_info env
                 (Service.domain (api_credentials self)) (skus_ids self)
                 seller_ids (catalog self)) ;;
       match products with
       | [] => ret None
       | _ :: _ =>
           match feed self with
           | None =>
               raise (ValueError
                        "Product feed is required for legacy synchronization.")
           | Some f =>
               record_save (mkSave products (Catalog.uuid (catalog self))
                              (Some f)) ;;;
               all_success <-
                 lift (save_csv_product_data env products (catalog self) f) ;;
               if negb all_success then
                 raise (Exception
                          ("Error saving products in database for Catalog: "
                           +:+ Catalog.facebook_catalog_id (catalog self)))
               else ret (Some products)
           end
       end)%py
  end.

Definition process_batch_sync (env : Env) (self : ProductUpdateService)
  : M World bool :=
  (all_success <-
     lift (update_batch_webhook env (Service.domain (api_credentials self))
             (sellers_skus self) (catalog self)) ;;
   if negb all_success then
     raise (Exception
              ("Error saving batch products in database for Catalog: "
               +:+ Catalog.facebook_catalog_id (catalog self)))
   else ret all_success)%py.

(** [catalog.vtex_app], the row that the foreign key points to, and
    [catalog.feeds.first()]. *)
Definition vtex_app_of (catalog : Catalog.t) (w : World) : option App.t :=
  match Catalog.vtex_app catalog with
  | None => None
  | Some u =>
      Admission.first
        (filter (fun a => App.uuid a = u) (Admission.apps (db w)))
  end.

Definition first_feed (catalog : Catalog.t) (w : World)
  : option ProductFeed.t :=
  Admission.first
    (filter (fun f => ProductFeed.catalog f = Catalog.uuid catalog)
            (Admission.feeds (db w))).

Definition insertion_products_by_seller (env : Env)
    (credentials : Service.APICredentials) (catalog : Catalog.t)
    (sellers : list string) : M World (option (list DTO)) :=
  match sellers with
  | [] => raise (ValueError "'sellers' is required")
  | _ :: _ =>
      (vtex_app <- gets (vtex_app_of catalog) ;;
       match vtex_app with
       | None =>
           raise (AttributeError
                    "'NoneType' object has no attribute 'config'")
       | Some vtex_app =>
           let use_sync_v2 :=
             get_default (App.config vtex_app) "use_sync_v2" (PBool false) in
           let upload_on_sync := use_sync_v2 in
           products <-
             lift (list_all_products env (Service.domain credentials) catalog
                     sellers upload_on_sync) ;;
           if negb (truthy use_sync_v2) then
             match products with
             | [] => ret None
             | _ :: _ =>
                 product_feed <- gets (first_feed catalog) ;;
                 record_save (mkSave products (Catalog.uuid catalog)
                                product_feed) ;;;
                 all_success <-
                   lift (bulk_save_csv_product_data env products catalog
                           product_feed) ;;
                 if negb all_success then
                   raise (Exception
                            ("Error saving CSV to the database. Catalog: "
                             +:+ Catalog.facebook_catalog_id catalog))
                 else ret (Some products)
             end
           else ret (Some products)
       end)%py
  end.

End Products.

(** ** Further vocabulary

    Predicates and observations for the further properties below. *)

Module Terms.

(** A code point that [str.encode] accepts: below U+110000 and not a
    surrogate. *)
Definition encodable (c : N) : bool :=
  (c <? 1114112)%N && negb ((55296 <=? c)%N && (c <=? 57343)%N).

(** How a row may differ after the upload loop has run: in its status
    only, and never backwards -- [success] and [error] are final, and no
    row returns to [pending]. *)
Definition advances (p p' : UploadProduct.t) : Prop :=
  p' = UploadProduct.set_status (UploadProduct.status p') p
  /\ (UploadProduct.status p = success -> UploadProduct.status p' = success)
  /\ (UploadProduct.status p = error -> UploadProduct.status p' = error)
  /\ (UploadProduct.status p' = pending -> UploadProduct.status p = pending).

(** The SKU of a product identifier that has one. *)
Definition sku_of (product_id : list N) : N :=
  match Sku.extract_sku_id product_id with
  | Ok n => n
  | Raise _ => 0%N
  end.

(** What the upload loop may do to the world it runs in. *)
Definition upload_step (self : Upload.ProductUploader)
    (w w' : Upload.World) : Prop :=
  NoDup (map UploadProduct.id (Upload.table w)) ->
  Forall2 advances (Upload.table w) (Upload.table w')
  /\ exists logged,
      Upload.upload_log w' = Upload.upload_log w ++ logged
      /\ Forall (fun l => ProductUploadLog.vtex_app l
                          = Catalog.vtex_app (Upload.up_catalog self)) logged.

(** The identifiers of the catalogs that a connection has locally. *)
Definition local_ids (app : App.t) (w : Reconcile.World) : gset string :=
  list_to_set (Reconcile.local_catalogs app w).

(** The rows of the catalogs of other connections. *)
Definition foreign_rows (app : App.t) (w : Reconcile.World)
  : list Catalog.t :=
  filter (fun c => Catalog.app c <> App.uuid app) (Reconcile.catalogs w).

(** A row as [create_catalog_task] makes it: of this connection, and not
    linked to a VTEX app. *)
Definition created_for (app : App.t) (c : Catalog.t) : Prop :=
  Catalog.app c = App.uuid app /\ Catalog.vtex_app c = None.

(** Facebook describes every catalog of the list in full and under the
    identifier that was asked for. *)
Definition details_complete (env : Reconcile.Env) (app : App.t)
    (ids : list string) : Prop :=
  forall catalog_id, catalog_id ∈ ids ->
    exists d name vertical,
      Reconcile.get_catalog_details env app catalog_id = Ok d
      /\ d !! "id" = Some catalog_id
      /\ d !! "name" = Some name
      /\ d !! "vertical" = Some vertical.

(** The database takes every insertion and deletion for the connection. *)
Definition db_accepts (env : Reconcile.Env) (app : App.t) : Prop :=
  (forall d, Reconcile.create_fault env app d = None)
  /\ (forall s, Reconcile.delete_fault env app s = None).

(** Facebook answers for the connection, with a listing that is not
    empty and the details of every catalog listed, and the database takes
    what is written for it. *)
Definition served (env : Reconcile.Env) (app : App.t) : Prop :=
  exists ids cats,
    Reconcile.list_all_catalogs env app = Ok (ids, cats)
    /\ ids <> []
    /\ details_complete env app ids
    /\ db_accepts env app.

(** The job that admission by seller dispatches. *)
Definition by_seller_task (credentials : pyval) (catalog : Catalog.t)
    (sellers : list string) : Admission.Task :=
  Admission.mkTask "task_insert_vtex_products_by_sellers" credentials
    (Catalog.uuid catalog) (Some sellers) "product_first_synchronization".

(** The credentials are all there: none of the three is empty. *)
Definition usable (credentials : Service.APICredentials) : bool :=
  truthy (Service.domain credentials)
  && truthy (Service.app_key credentials)
  && truthy (Service.app_token credentials).

(** The row of a catalog once it has been linked to a VTEX app. *)
Definition linked_to (env : Admission.Env) (vtex_app : App.t)
    (c : Catalog.t) : Catalog.t :=
  Catalog.mk (Catalog.uuid c) (Catalog.app c) (Catalog.facebook_catalog_id c)
    (Catalog.name c) (Catalog.category c) (Some (App.uuid vtex_app))
    (Some (Admission.admin_user env)).

(** The key of the lock of a synchronisation by seller, and of the lock
    of an upload. *)
Definition seller_key (app_uuid : string) : string :=
  "sync-sellers:" +:+ app_uuid.

Definition upload_key (app_uuid : string) : string :=
  "upload_lock:" +:+ app_uuid.

(** The codec gives back what it was given, and writes no empty text. *)
Definition codec_sound (env : Locks.Env) : Prop :=
  forall v, Locks.loads env (Locks.dumps env v) = Ok v
            /\ Locks.dumps env v <> "".

(** The upload went through: every request was answered, Meta gave an
    upload identifier and did not report it unfinished. *)
Definition accepted (env : Meta.Env) (self : Meta.Uploader)
    (csv_content : list N) : Prop :=
  exists in_process upload_id upload_complete,
    Meta.uploads_in_progress env (Meta.feed_id self) = Ok in_process
    /\ (truthy in_process = true ->
        exists r, Meta._wait_for_upload_completion env (Meta.feed_id self)
                    in_process = Ok r)
    /\ Meta.update_product_feed env (Meta.feed_id self) csv_content
         ("update_" +:+ Meta.now env +:+ "_"
          +:+ Catalog.facebook_catalog_id (Meta.catalog self))
       = Ok upload_id
    /\ upload_id <> PNone
    /\ Meta._wait_for_upload_completion env (Meta.feed_id self) upload_id
       = Ok upload_complete
    /\ upload_complete <> PBool false.

(** Two environments that differ at most in the list of active
    sellers. *)
Definition same_but_sellers (env1 env2 : Products.Env) : Prop :=
  Products.update_webhook_product_info env1
  = Products.update_webhook_product_info env2
  /\ Products.save_csv_product_data env1
     = Products.save_csv_product_data env2.

End Terms.

(** ** Further sample data *)

Module Cases.

(** Meta takes the file but gives no upload identifier. *)
Definition meta_without_id : Meta.Env :=
  {| Meta.uploads_in_progress := fun _ => Ok PNone;
     Meta._wait_for_upload_completion := fun _ _ => Ok (PBool true);
     Meta.update_product_feed := fun _ _ _ => Ok PNone;
     Meta.create_notification := fun _ _ _ => Ok tt;
     Meta.now := "2024-01-01_00-00" |}.

(** Meta cannot be reached, and neither can the notification service. *)
Definition meta_down : Meta.Env :=
  {| Meta.uploads_in_progress :=
       fun _ => Raise (ExternalError "connection refused");
     Meta._wait_for_upload_completion := fun _ _ => Ok (PBool true);
     Meta.update_product_feed := fun _ _ _ => Ok (PStr "u1");
     Meta.create_notification :=
       fun _ _ _ => Raise (ExternalError "connection refused");
     Meta.now := "2024-01-01_00-00" |}.

Definition meta_uploader (vtex_app : option string) : Meta.Uploader :=
  {| Meta.catalog := Samples.catalog vtex_app;
     Meta.feed_id := Some "feed1" |}.

(** A server that refuses the expire times that are not positive. *)
Definition codec : Locks.Env :=
  {| Locks.dumps := fun _ => "{}";
     Locks.loads := fun _ => Ok PNone;
     Locks.now := "2024-01-01T00:00:00+00:00";
     Locks.expire_error :=
       fun ex => if (ex <=? 0)%Z
                 then Some (ExternalError
                              "invalid expire time in 'set' command")
                 else None |}.

End Cases.

(** * Properties *)

(** ** Seller extraction *)

Section SellersFacts.
Import Sellers.

Example extract_both :
  extract_sellers_ids
    (<["An" := PStr "store"]> (<["SellerChain" := PStr "franchise"]> ∅))
  = PStr "franchise".
Proof. reflexivity. Qed.

Example extract_an_only :
  extract_sellers_ids (<["An" := PStr "store"]> ∅) = PStr "store".
Proof. reflexivity. Qed.

Example extract_chain_only :
  extract_sellers_ids (<["SellerChain" := PStr "franchise"]> ∅) = PNone.
Proof. reflexivity. Qed.

Example extract_empty_chain :
  extract_sellers_ids
    (<["An" := PStr "store"]> (<["SellerChain" := PStr ""]> ∅))
  = PStr "store".
Proof. reflexivity. Qed.

Lemma extract_sellers_ids_table (webhook : gmap string pyval) :
  extract_sellers_ids webhook
  = if truthy (get webhook "An")
    then if truthy (get webhook "SellerChain")
         then get webhook "SellerChain" else get webhook "An"
    else PNone.
Proof.
  unfold extract_sellers_ids.
  destruct (truthy (get webhook "An")), (truthy (get webhook "SellerChain"));
    reflexivity.
Qed.

Lemma extract_sellers_ids_truthy (webhook : gmap string pyval) :
  truthy (extract_sellers_ids webhook) = truthy (get webhook "An").
Proof.
  rewrite extract_sellers_ids_table.
  destruct (truthy (get webhook "An")) eqn:Han; [|reflexivity].
  destruct (truthy (get webhook "SellerChain")) eqn:Hch; assumption.
Qed.

(** C10: the seller of a webhook is the [SellerChain] value when both
    [An] and [SellerChain] are present and truthy, the [An] value when only
    [An] is truthy, and [None] in every other case (a [SellerChain] without
    [An] included); the caller answers with that single seller, and falls
    back to the list of all active sellers exactly when the result is
    [None]. *)
Theorem extract_sellers_ids_precedence
    (webhook : gmap string pyval) (active : result (list pyval)) :
  let seller_an := get webhook "An" in
  let seller_chain := get webhook "SellerChain" in
  extract_sellers_ids webhook
  = (if truthy seller_an
     then if truthy seller_chain then seller_chain else seller_an
     else PNone)
  /\ _get_sellers_ids webhook active
     = (if truthy seller_an
        then Ok [if truthy seller_chain then seller_chain else seller_an]
        else active)
  /\ (extract_sellers_ids webhook = PNone <-> truthy seller_an = false).
Proof.
  cbn zeta. split; [apply extract_sellers_ids_table|]. split.
  - unfold _get_sellers_ids. rewrite extract_sellers_ids_truthy.
    rewrite extract_sellers_ids_table.
    destruct (truthy (get webhook "An")); reflexivity.
  - pose proof (extract_sellers_ids_truthy webhook) as Ht. split.
    + intros He. rewrite He in Ht. symmetry. exact Ht.
    + intros Han. rewrite extract_sellers_ids_table, Han. reflexivity.
Qed.

End SellersFacts.

(** ** SKU extraction *)

Section SkuFacts.
Import Sku Vocabulary.

Example extract_sku_55 : extract_sku_id (Feed.literal "55#7") = Ok 55%N.
Proof. reflexivity. Qed.

Example extract_sku_abc :
  extract_sku_id (Feed.literal "abc#7")
  = Raise (ValueError "Invalid SKU ID, error: abc is not a number").
Proof. reflexivity. Qed.

Example extract_sku_empty :
  extract_sku_id (Feed.literal "#7")
  = Raise (ValueError "Invalid SKU ID, error:  is not a number").
Proof. reflexivity. Qed.

Example extract_sku_leading_zero :
  extract_sku_id (Feed.literal "007#1") = Ok 7%N.
Proof. reflexivity. Qed.

(** The Arabic-Indic digit three is a decimal digit. *)
Example extract_sku_arabic_indic : extract_sku_id [1635; 35; 55]%N = Ok 3%N.
Proof. reflexivity. Qed.

(** Superscript two has a digit value and no decimal value: it passes
    [isdigit], and [int] refuses it. *)
Example extract_sku_superscript :
  extract_sku_id [178; 35; 55]%N
  = Raise (ValueError "invalid literal for int() with base 10: '²'").
Proof. reflexivity. Qed.





Lemma to_decimal_digit c d : to_decimal c = Some d -> is_digit c = true.
Proof. unfold is_digit, to_digit. intros ->. reflexivity. Qed.


















End SkuFacts.

(** ** The feed encoder *)

Section FeedFacts.
Import Feed Vocabulary.

Example escape_quotes_example :
  escape_quotes (literal "7#1," ++ [DQUOTE] ++ literal "Tom's" ++ [DQUOTE]
                 ++ literal " pan")
  = literal "7#1,Tom s pan".
Proof. reflexivity. Qed.

Lemma replace_elem old new text c :
  c ∈ replace old new text ->
  (c ∈ text /\ c <> old) \/ c ∈ new.
Proof.
  unfold replace. rewrite list_elem_of_In, in_flat_map.
  intros (x & Hx & Hc). destruct (N.eqb_spec x old) as [->|Hne].
  - right. apply list_elem_of_In. assumption.
  - left. destruct Hc as [<- | []]. split; [apply list_elem_of_In|]; assumption.
Qed.

Lemma escape_quotes_clean text c :
  c ∈ escape_quotes text -> c <> DQUOTE /\ c <> SQUOTE.
Proof.
  unfold escape_quotes. intros H.
  apply replace_elem in H as [[H Hsq] | H].
  - apply replace_elem in H as [[_ Hdq] | H]; [auto | inversion H].
  - apply list_elem_of_singleton in H as ->. split; discriminate.
Qed.

(** Double quotes are deleted, single quotes become spaces. *)
Lemma escape_quotes_map text :
  escape_quotes text
  = map (fun c => if N.eqb c SQUOTE then SPACE else c)
        (filter (fun c => c <> DQUOTE) text).
Proof.
  unfold escape_quotes, replace.
  induction text as [|c r IH]; [reflexivity|].
  cbn [flat_map]. rewrite filter_cons.
  destruct (N.eqb_spec c DQUOTE) as [->|Hne].
  - rewrite decide_False by (intros H; apply H; reflexivity).
    simpl. exact IH.
  - rewrite decide_True by assumption. cbn [app flat_map map].
    rewrite IH. destruct (N.eqb c SQUOTE); reflexivity.
Qed.

Lemma join_cons sep l ls :
  join sep (l :: ls) = l ++ concat (map (fun x => sep ++ x) ls).
Proof.
  revert l. induction ls as [|l' ls IH]; intros l.
  - simpl. rewrite app_nil_r. reflexivity.
  - change (join sep (l :: l' :: ls)) with (l ++ sep ++ join sep (l' :: ls)).
    rewrite IH. simpl. rewrite <- app_assoc. reflexivity.
Qed.

Lemma octet_lead (c k q base : N) :
  (c < k * q)%N -> (128 <= base)%N -> (base + q <= 256)%N ->
  (128 <= base + c / k < 256)%N.
Proof.
  intros Hc Hb Hq. apply N.Div0.div_lt_upper_bound in Hc.
  generalize dependent (c / k)%N. intros; lia.
Qed.

Lemma octet_cont (c : N) : (128 <= 128 + c mod 64 < 256)%N.
Proof.
  assert (H : (c mod 64 < 64)%N) by (apply N.mod_upper_bound; discriminate).
  generalize dependent (c mod 64)%N. intros; lia.
Qed.

Lemma utf8_char_bytes c bs b :
  utf8_char c = Ok bs -> b ∈ bs ->
  (b = c /\ (c < 128)%N) \/ (128 <= b < 256)%N.
Proof.
  unfold utf8_char.
  destruct (N.ltb_spec c 128).
  { intros [= <-] Hb. apply list_elem_of_singleton in Hb. auto. }
  destruct (N.ltb_spec c 2048).
  { intros [= <-] Hb. right.
    repeat (apply elem_of_cons in Hb as [-> | Hb]);
      [apply (octet_lead c 64 32); lia | apply octet_cont | inversion Hb]. }
  destruct (N.ltb_spec c 65536).
  { destruct ((55296 <=? c)%N && (c <=? 57343)%N); [discriminate|].
    intros [= <-] Hb. right.
    repeat (apply elem_of_cons in Hb as [-> | Hb]);
      [apply (octet_lead c 4096 16); lia | apply octet_cont | apply octet_cont
      | inversion Hb]. }
  destruct (N.ltb_spec c 1114112); [|discriminate].
  intros [= <-] Hb. right.
  repeat (apply elem_of_cons in Hb as [-> | Hb]);
    [apply (octet_lead c 262144 5); lia | apply octet_cont | apply octet_cont
    | apply octet_cont | inversion Hb].
Qed.

Lemma encode_app a b out :
  encode (a ++ b) = Ok out ->
  exists x y, encode a = Ok x /\ encode b = Ok y /\ out = x ++ y.
Proof.
  revert out. induction a as [|c a IH]; intros out; simpl.
  - intros H. exists [], out. auto.
  - destruct (utf8_char c) as [bs|]; [|discriminate].
    destruct (encode (a ++ b)) as [rs|] eqn:E; [|discriminate].
    intros [= <-]. destruct (IH rs eq_refl) as (x & y & -> & -> & ->).
    exists (bs ++ x), y. rewrite app_assoc. auto.
Qed.

Lemma encode_bytes text out b :
  encode text = Ok out -> b ∈ out ->
  (b ∈ text /\ (b < 128)%N) \/ (128 <= b < 256)%N.
Proof.
  revert out. induction text as [|c r IH]; intros out; simpl.
  - intros [= <-] Hb. inversion Hb.
  - destruct (utf8_char c) as [bs|] eqn:Hc; [|discriminate].
    destruct (encode r) as [rs|]; [|discriminate].
    intros [= <-] Hb. apply elem_of_app in Hb as [Hb | Hb].
    + destruct (utf8_char_bytes _ _ _ Hc Hb) as [[-> ?] | ?]; [left | right];
        [split; [left | assumption] | assumption].
    + destruct (IH rs eq_refl Hb) as [[? ?] | ?]; [left | right];
        [split; [right |]; assumption | assumption].
Qed.

(** An octet of the output is an octet: below 256. *)
Lemma encode_octets text out b :
  encode text = Ok out -> b ∈ out -> (b < 256)%N.
Proof.
  intros H Hb. destruct (encode_bytes _ _ _ H Hb) as [[_ ?] | ?]; lia.
Qed.

Lemma encode_ascii text :
  Forall (fun c => (c < 128)%N) text -> encode text = Ok text.
Proof.
  induction 1 as [|c r Hc _ IH]; [reflexivity|].
  simpl. unfold utf8_char. destruct (N.ltb_spec c 128); [|lia].
  rewrite IH. reflexivity.
Qed.

Lemma header_ascii : Forall (fun c => (c < 128)%N) header.
Proof. apply Forall_forall. intros c Hc. vm_compute in Hc.
  repeat (apply elem_of_cons in Hc as [-> | Hc]; [reflexivity|]).
  inversion Hc.
Qed.

Lemma header_clean c : c ∈ header -> c <> DQUOTE /\ c <> SQUOTE.
Proof.
  intros Hc. vm_compute in Hc.
  repeat (apply elem_of_cons in Hc as [-> | Hc]; [split; discriminate|]).
  inversion Hc.
Qed.

Lemma join_elem sep ls c :
  c ∈ join sep ls -> c ∈ sep \/ exists l, l ∈ ls /\ c ∈ l.
Proof.
  induction ls as [|l ls IH]; [intros H; inversion H|].
  destruct ls as [|l' ls'].
  - simpl. intros H. right. exists l. split; [left | assumption].
  - change (join sep (l :: l' :: ls')) with (l ++ sep ++ join sep (l' :: ls')).
    rewrite !elem_of_app. intros [H | [H | H]].
    + right. exists l. split; [left | assumption].
    + left. assumption.
    + destruct (IH H) as [? | (l0 & Hl0 & Hc)]; [left; assumption|].
      right. exists l0. split; [right |]; assumption.
Qed.

Lemma csv_content_clean products include_header c :
  c ∈ csv_content products include_header -> c <> DQUOTE /\ c <> SQUOTE.
Proof.
  unfold csv_content. intros Hc.
  apply join_elem in Hc as [Hc | (l & Hl & Hc)].
  - apply list_elem_of_singleton in Hc as ->. split; discriminate.
  - apply elem_of_app in Hl as [Hl | Hl].
    + destruct include_header; [|inversion Hl].
      apply list_elem_of_singleton in Hl as ->. apply header_clean, Hc.
    + apply list_elem_of_fmap in Hl as (p & -> & _).
      eapply escape_quotes_clean, Hc.
Qed.

Lemma convert_to_csv_clean products include_header out b :
  convert_to_csv products include_header = Ok out -> b ∈ out ->
  b <> DQUOTE /\ b <> SQUOTE.
Proof.
  unfold convert_to_csv. intros H Hb.
  destruct (encode_bytes _ _ _ H Hb) as [[Hin _] | Hhi].
  - eapply csv_content_clean; eassumption.
  - unfold DQUOTE, SQUOTE. lia.
Qed.

Lemma lines_of_nonempty s : lines_of s <> [].
Proof.
  destruct s as [|c r]; simpl; [discriminate|].
  destruct (N.eqb c NEWLINE); [discriminate|].
  destruct (lines_of r); discriminate.
Qed.

Lemma lines_of_app a b :
  lines_of (a ++ NEWLINE :: b) = lines_of a ++ lines_of b.
Proof.
  induction a as [|c a IH]; [reflexivity|].
  simpl. destruct (N.eqb c NEWLINE).
  - rewrite IH. reflexivity.
  - rewrite IH. destruct (lines_of a) as [|l ls] eqn:E.
    + exfalso. exact (lines_of_nonempty _ E).
    + reflexivity.
Qed.

Lemma lines_of_header : lines_of header = [header].
Proof. vm_compute. reflexivity. Qed.

Lemma encode_lines a ls out :
  encode (a ++ concat (map (fun x => [NEWLINE] ++ x) ls)) = Ok out ->
  lines_of out
  = lines_of (encoded a) ++ flat_map (fun l => lines_of (encoded l)) ls.
Proof.
  revert a out. induction ls as [|l ls IH]; intros a out.
  - simpl. rewrite !app_nil_r. intros H. unfold encoded. rewrite H. reflexivity.
  - cbn [map concat flat_map]. intros H.
    apply encode_app in H as (x & y & Hx & Hy & ->).
    rewrite <- app_assoc in Hy.
    apply encode_app in Hy as (n & z & Hn & Hz & ->).
    vm_compute in Hn. injection Hn as <-.
    change ([10%N] ++ z) with (NEWLINE :: z).
    rewrite lines_of_app, (IH _ _ Hz).
    replace (encoded a) with x by (unfold encoded; rewrite Hx; reflexivity).
    reflexivity.
Qed.

(** The lines of the encoded feed: the header, then the lines of every
    record, in order. *)
Lemma convert_to_csv_lines products out :
  convert_to_csv products true = Ok out ->
  lines_of out
  = header :: flat_map (fun p => lines_of
                                   (encoded (escape_quotes (UploadProduct.data p))))
                       products.
Proof.
  unfold convert_to_csv, csv_content. cbn [app].
  rewrite join_cons. intros H. rewrite (encode_lines _ _ _ H).
  unfold encoded at 1. rewrite (encode_ascii _ header_ascii), lines_of_header.
  cbn [app]. f_equal. rewrite flat_map_concat_map, map_map,
    <- flat_map_concat_map. reflexivity.
Qed.

Lemma header_lines_count products out :
  convert_to_csv products true = Ok out ->
  header_lines out
  = S (length (filter (fun l => l = header)
                 (flat_map (fun p => lines_of
                              (encoded (escape_quotes (UploadProduct.data p))))
                           products))).
Proof.
  intros H. unfold header_lines. rewrite (convert_to_csv_lines _ _ H).
  rewrite filter_cons, decide_True by reflexivity. reflexivity.
Qed.

(** A record whose data is the text of the header: the header is then the
    first line of the feed and also its second line. *)
Lemma convert_to_csv_header_twice :
  convert_to_csv [UploadProduct.mk 1 (Feed.literal "1#1") "c1" header pending 0] true
  = Ok (header ++ NEWLINE :: header)
  /\ header_lines (header ++ NEWLINE :: header) = 2.
Proof. split; vm_compute; reflexivity. Qed.

(** C7 (amended): whatever the records contain, the encoded feed holds no
    double quote and no single quote (double quotes are deleted from the
    data, single quotes become spaces); the encoder writes the header once,
    as the first line, and every later line is a line of the escaped data of
    a record, so that the header is a line of the feed exactly once as soon
    as it is not a line of the data of a record. *)
Theorem convert_to_csv_spec (products : list UploadProduct.t) (out : list N) :
  convert_to_csv products true = Ok out ->
  (forall b, b ∈ out -> b <> DQUOTE /\ b <> SQUOTE /\ (b < 256)%N)
  /\ (forall text,
        escape_quotes text
        = map (fun c => if N.eqb c SQUOTE then SPACE else c)
              (filter (fun c => c <> DQUOTE) text))
  /\ lines_of out
     = header :: flat_map (fun p => lines_of
                             (encoded (escape_quotes (UploadProduct.data p))))
                          products
  /\ ((forall p, p ∈ products ->
         header ∉ lines_of (encoded (escape_quotes (UploadProduct.data p)))) ->
      header_lines out = 1).
Proof.
  intros H. repeat split.
  - eapply convert_to_csv_clean; eassumption.
  - eapply convert_to_csv_clean; eassumption.
  - eapply encode_octets; eassumption.
  - apply escape_quotes_map.
  - apply convert_to_csv_lines. assumption.
  - intros Hfree. rewrite (header_lines_count _ _ H). f_equal.
    apply length_zero_iff_nil, elem_of_nil_inv. intros l Hl.
    apply list_elem_of_filter in Hl as [-> Hl].
    apply list_elem_of_In, in_flat_map in Hl as (p & Hp & Hl).
    apply (Hfree p); apply list_elem_of_In; assumption.
Qed.

Lemma convert_to_csv_spec_witness :
  let products :=
    [UploadProduct.mk 1 (Feed.literal "7#1") "c1"
       (literal "7#1,Tom's 12" ++ [DQUOTE] ++ literal " pan") pending 0] in
  convert_to_csv products true = Ok (encoded (csv_content products true))
  /\ header_lines (encoded (csv_content products true)) = 1.
Proof.
  intros products.
  assert (H : convert_to_csv products true
              = Ok (encoded (csv_content products true)))
    by (vm_compute; reflexivity).
  split; [exact H|].
  apply (convert_to_csv_spec products _ H).
  intros p Hp. apply list_elem_of_singleton in Hp as ->.
  vm_compute. intros Hin.
  apply list_elem_of_singleton in Hin. discriminate.
Defined.

End FeedFacts.

(** ** Admission by seller *)

Section BySellerFacts.
Import Admission Admission.CatalogInsertionBySeller Vocabulary.

Lemma py_in_iterable key v :
  iterable v -> exists b, py_in key v = Ok b.
Proof. destruct v; simpl; intros H; try contradiction; eauto. Qed.

Lemma all_in_iterable keys v :
  iterable v -> exists b, all_in keys v = Ok b.
Proof.
  intros Hv. induction keys as [|k ks IH]; simpl; [eauto|].
  destruct (py_in_iterable k v Hv) as [[|] ->]; eauto.
Qed.

(** The shared checks read the database and never write it; their errors
    are [ValueError]s as long as [api_credentials] supports [in]. *)
Lemma linked_catalog_outcome vtex_app w :
  (exists credentials catalog,
      linked_catalog vtex_app w = (Ok (credentials, catalog), w))
  \/ (exists e, linked_catalog vtex_app w = (Raise e, w)
                /\ (iterable (get_default (App.config vtex_app)
                                "api_credentials" (PDict [])) ->
                    is_ValueError e = true)).
Proof.
  unfold linked_catalog, bind, lift, ret.
  unfold _get_wpp_cloud_uuid.
  destruct (negb (truthy (get (App.config vtex_app) "wpp_cloud_uuid")));
    [right; eexists; split; [reflexivity | reflexivity]|].
  unfold _get_credentials.
  destruct (all_in _ _) as [[|]|e] eqn:Hall.
  2:{ right; eexists; split; [reflexivity | reflexivity]. }
  2:{ right; eexists; split; [reflexivity|]. intros Hit.
      destruct (all_in_iterable ["app_key"; "app_token"; "domain"] _ Hit)
        as [b Hb]. congruence. }
  unfold _get_wpp_cloud.
  destruct (first (filter _ (apps w))) as [wpp|];
    [|right; eexists; split; [reflexivity | reflexivity]].
  unfold _validate_link_apps.
  destruct (first (filter _ (catalogs w))) as [vc|];
    [|right; eexists; split; [reflexivity | reflexivity]].
  destruct (first (filter _ (catalogs w))) as [c|];
    [|right; eexists; split; [reflexivity | reflexivity]].
  left. eauto.
Qed.

Lemma validate_catalog_feed_missing catalog w :
  ~ has_feed catalog w ->
  _validate_catalog_feed catalog w
  = (Raise (ValueError "At least 1 feed created is required"), w).
Proof.
  intros Hno. unfold _validate_catalog_feed.
  destruct (first _) as [f|] eqn:E; [|reflexivity].
  exfalso. apply Hno. unfold first in E. apply head_Some_elem_of in E.
  apply list_elem_of_filter in E as [? ?]. exists f. auto.
Qed.

Lemma validate_catalog_feed_present catalog w :
  has_feed catalog w -> _validate_catalog_feed catalog w = (Ok tt, w).
Proof.
  intros (f & Hf & Hc). unfold _validate_catalog_feed.
  destruct (first _) as [f'|] eqn:E; [reflexivity|].
  exfalso. unfold first in E. apply head_None in E.
  assert (Hin : f ∈ filter (fun f => ProductFeed.catalog f = Catalog.uuid catalog)
                      (feeds w)) by (apply list_elem_of_filter; auto).
  rewrite E in Hin. inversion Hin.
Qed.

(** What the call does once the shared checks have passed. *)
Lemma start_insertion_by_seller_checked vtex_app sellers w credentials catalog :
  sellers <> [] ->
  linked_catalog vtex_app w = (Ok (credentials, catalog), w) ->
  start_insertion_by_seller (Some vtex_app) sellers w
  = if negb (sync_completed vtex_app) then
      (Raise (ValueError "Initial synchronization not completed."), w)
    else
      match (if legacy_sync vtex_app then _validate_catalog_feed catalog w
             else (Ok tt, w)) with
      | (Raise e, w') => (Raise e, w')
      | (Ok _, w') =>
          if negb (connected vtex_app) then
            (Raise (ValueError "Change connected_catalog to True."), w')
          else _send_task credentials catalog sellers w'
      end.
Proof.
  intros Hs Hl. unfold start_insertion_by_seller.
  destruct sellers as [|s ss]; [contradiction|].
  unfold bind at 1. rewrite Hl. unfold bind, lift, ret.
  unfold _validate_sync_status, sync_completed.
  destruct (negb (truthy _)); [reflexivity|].
  unfold _use_sync_v2, legacy_sync.
  destruct (is_False _).
  - destruct (_validate_catalog_feed catalog w) as [[[]|e] w']; [|reflexivity].
    unfold _validate_connected_catalog_flag, connected.
    destruct (negb (is_True _)); reflexivity.
  - unfold _validate_connected_catalog_flag, connected.
    destruct (negb (is_True _)); reflexivity.
Qed.

Lemma start_insertion_by_seller_rejects vtex_app sellers w :
  sync_completed vtex_app = false \/ connected vtex_app = false ->
  exists e,
    start_insertion_by_seller (Some vtex_app) sellers w = (Raise e, w)
    /\ (iterable (get_default (App.config vtex_app) "api_credentials"
                    (PDict [])) -> is_ValueError e = true).
Proof.
  intros Hflag.
  destruct sellers as [|s ss] eqn:Hs.
  { eexists; split; [reflexivity | reflexivity]. }
  rewrite <- Hs. assert (Hne : sellers <> []) by (subst; discriminate).
  clear Hs.
  destruct (linked_catalog_outcome vtex_app w)
    as [(credentials & catalog & Hl) | (e & Hl & He)].
  - rewrite (start_insertion_by_seller_checked _ _ _ _ _ Hne Hl).
    destruct (sync_completed vtex_app);
      [|eexists; split; [reflexivity | reflexivity]].
    destruct Hflag as [? | Hc]; [discriminate|]. rewrite Hc. cbn [negb].
    destruct (legacy_sync vtex_app).
    + unfold _validate_catalog_feed. destruct (first _);
        eexists; split; reflexivity || reflexivity.
    + eexists; split; reflexivity || reflexivity.
  - exists e. split; [|exact He].
    unfold start_insertion_by_seller. destruct sellers; [contradiction|].
    unfold bind at 1. rewrite Hl. reflexivity.
Qed.

(** C6: admission by seller raises, and dispatches nothing, whenever
    [initial_sync_completed] is false or [connected_catalog] is not [True]
    (the error is a [ValueError] for every configuration whose
    [api_credentials] is a dictionary, a list or a string).  When the shared
    checks pass and both flags hold, a [ProductFeed] of the linked catalog
    is required exactly when [use_sync_v2] is [False] (or absent); otherwise
    the job [task_insert_vtex_products_by_sellers] is dispatched whether or
    not a feed exists. *)
Theorem start_insertion_by_seller_admission
    (vtex_app : App.t) (sellers : list string) (w : World) :
  (sync_completed vtex_app = false \/ connected vtex_app = false ->
   exists e,
     start_insertion_by_seller (Some vtex_app) sellers w = (Raise e, w)
     /\ (iterable (get_default (App.config vtex_app) "api_credentials"
                     (PDict [])) -> is_ValueError e = true))
  /\ (forall credentials catalog,
        sellers <> [] ->
        linked_catalog vtex_app w = (Ok (credentials, catalog), w) ->
        sync_completed vtex_app = true -> connected vtex_app = true ->
        let dispatched :=
          mkWorld (apps w) (catalogs w) (feeds w)
            (tasks w ++
               [mkTask "task_insert_vtex_products_by_sellers" credentials
                  (Catalog.uuid catalog) (Some sellers)
                  "product_first_synchronization"]) in
        (legacy_sync vtex_app = true -> ~ has_feed catalog w ->
         start_insertion_by_seller (Some vtex_app) sellers w
         = (Raise (ValueError "At least 1 feed created is required"), w))
        /\ (legacy_sync vtex_app = true -> has_feed catalog w ->
            start_insertion_by_seller (Some vtex_app) sellers w
            = (Ok tt, dispatched))
        /\ (legacy_sync vtex_app = false ->
            start_insertion_by_seller (Some vtex_app) sellers w
            = (Ok tt, dispatched))).
Proof.
  split; [apply start_insertion_by_seller_rejects|].
  intros credentials catalog Hs Hl Hsync Hconn dispatched.
  rewrite (start_insertion_by_seller_checked _ _ _ _ _ Hs Hl).
  rewrite Hsync, Hconn. cbn [negb]. repeat split.
  - intros -> Hno. rewrite validate_catalog_feed_missing by assumption.
    reflexivity.
  - intros -> Hyes. rewrite validate_catalog_feed_present by assumption.
    reflexivity.
  - intros ->. reflexivity.
Qed.

Lemma start_insertion_by_seller_admission_witness :
  let v := Samples.vtex (PBool true) (PBool true) (PBool true) in
  let w := Samples.admission_world v (Some "v1") [] in
  start_insertion_by_seller (Some v) ["7"] w
  = (Ok tt,
     mkWorld (apps w) (catalogs w) (feeds w)
       [mkTask "task_insert_vtex_products_by_sellers" Samples.credentials
          "c1" (Some ["7"]) "product_first_synchronization"]).
Proof.
  intros v w.
  refine (proj2 (proj2 (proj2 (start_insertion_by_seller_admission v ["7"] w)
                          Samples.credentials (Samples.catalog (Some "v1"))
                          _ _ _ _)) _);
    solve [discriminate | vm_compute; reflexivity].
Defined.

Example by_seller_sync_not_completed :
  let v := Samples.vtex (PBool false) (PBool true) (PBool true) in
  let w := Samples.admission_world v (Some "v1") [Samples.feed] in
  start_insertion_by_seller (Some v) ["7"] w
  = (Raise (ValueError "Initial synchronization not completed."), w).
Proof. vm_compute. reflexivity. Qed.

Example by_seller_not_connected :
  let v := Samples.vtex (PBool true) PNone (PBool true) in
  let w := Samples.admission_world v (Some "v1") [Samples.feed] in
  start_insertion_by_seller (Some v) ["7"] w
  = (Raise (ValueError "Change connected_catalog to True."), w).
Proof. vm_compute. reflexivity. Qed.

Example by_seller_legacy_without_feed :
  let v := Samples.vtex (PBool true) (PBool true) (PBool false) in
  let w := Samples.admission_world v (Some "v1") [] in
  start_insertion_by_seller (Some v) ["7"] w
  = (Raise (ValueError "At least 1 feed created is required"), w).
Proof. vm_compute. reflexivity. Qed.

Example by_seller_legacy_with_feed :
  let v := Samples.vtex (PBool true) (PBool true) (PBool false) in
  let w := Samples.admission_world v (Some "v1") [Samples.feed] in
  fst (start_insertion_by_seller (Some v) ["7"] w) = Ok tt.
Proof. vm_compute. reflexivity. Qed.

End BySellerFacts.

(** ** First insertion *)

Section MonadFacts.
Context {S A B : Type}.

Lemma bind_Ok_inv (m : M S A) (k : A -> M S B) s b s' :
  bind m k s = (Ok b, s') ->
  exists a s1, m s = (Ok a, s1) /\ k a s1 = (Ok b, s').
Proof.
  unfold bind. destruct (m s) as [[a|e] s1]; [eauto | discriminate].
Qed.

Lemma bind_Ok (m : M S A) (k : A -> M S B) s a s1 :
  m s = (Ok a, s1) -> bind m k s = k a s1.
Proof. unfold bind. intros ->. reflexivity. Qed.

Lemma bind_Raise (m : M S A) (k : A -> M S B) s e s1 :
  m s = (Raise e, s1) -> bind m k s = (Raise e, s1).
Proof. unfold bind. intros ->. reflexivity. Qed.

End MonadFacts.

Section FirstInsertionFacts.
Import Admission Admission.CatalogProductInsertion Vocabulary.

Lemma update_flag_noop app w :
  connected app = true ->
  _update_app_connected_catalog_flag app w = (Ok app, w).
Proof.
  unfold connected, _update_app_connected_catalog_flag. intros ->. reflexivity.
Qed.

Lemma link_noop env catalog vtex_app w :
  Catalog.vtex_app catalog <> None ->
  _link_catalog_to_vtex_app_if_needed env catalog vtex_app w = (Ok tt, w).
Proof.
  unfold _link_catalog_to_vtex_app_if_needed.
  destruct (Catalog.vtex_app catalog); [reflexivity | contradiction].
Qed.

Lemma flagged_connected app : connected (flagged app) = true.
Proof.
  unfold connected, flagged, get_default. simpl.
  rewrite lookup_insert_eq. reflexivity.
Qed.

Lemma flagged_uuid app : _get_wpp_cloud_uuid (flagged app) = _get_wpp_cloud_uuid app.
Proof.
  unfold _get_wpp_cloud_uuid, flagged, get. simpl.
  rewrite lookup_insert_ne by discriminate. reflexivity.
Qed.

Lemma flagged_credentials app :
  _get_credentials (flagged app) = _get_credentials app.
Proof.
  unfold _get_credentials, flagged, get_default. simpl.
  rewrite lookup_insert_ne by discriminate. reflexivity.
Qed.

(** The outcome of the flag update: nothing, or the flag set and saved. *)
Lemma update_flag_inv app w app1 w1 :
  _update_app_connected_catalog_flag app w = (Ok app1, w1) ->
  (app1 = app /\ w1 = w /\ connected app = true)
  \/ (app1 = flagged app
      /\ w1 = mkWorld
                (map (fun r => if bool_decide (App.uuid r = App.uuid app)
                               then flagged app else r) (apps w))
                (catalogs w) (feeds w) (tasks w)).
Proof.
  unfold _update_app_connected_catalog_flag.
  fold (connected app). destruct (connected app) eqn:Hc; cbn [negb].
  - intros [= <- <-]. left. auto.
  - fold (flagged app). unfold bind, save_app, ret. simpl.
    destruct (App.modified_by app); [|discriminate].
    intros [= <- <-]. right. auto.
Qed.

(** The import of [_get_or_sync_catalog] fails, whatever the catalog. *)
Lemma get_or_sync_catalog_import env wpp catalog_id w :
  _get_or_sync_catalog env wpp catalog_id w
  = (Raise (ImportError "FacebookCatalogSyncService"
              "marketplace.wpp_products.tasks"), w).
Proof. reflexivity. Qed.

Lemma delete_feeds_twice c c2 (fs : list ProductFeed.t) :
  Catalog.uuid c2 = Catalog.uuid c ->
  filter (fun f => ProductFeed.catalog f <> Catalog.uuid c2)
    (filter (fun f => ProductFeed.catalog f <> Catalog.uuid c) fs)
  = filter (fun f => ProductFeed.catalog f <> Catalog.uuid c) fs.
Proof.
  intros ->. induction fs as [|f fs IH]; [reflexivity|].
  rewrite filter_cons. destruct (decide _) as [Hf|Hf]; [|exact IH].
  rewrite filter_cons, decide_True by assumption. rewrite IH. reflexivity.
Qed.

Lemma get_wpp_cloud_inv u w wpp w' :
  _get_wpp_cloud u w = (Ok wpp, w') ->
  w' = w
  /\ first (filter (fun a => is_str u (App.uuid a) = true) (apps w)) = Some wpp.
Proof.
  unfold _get_wpp_cloud. destruct (first _) as [a|]; [|discriminate].
  intros [= <- <-]. auto.
Qed.

Lemma link_inv env c vtex_app w w' :
  _link_catalog_to_vtex_app_if_needed env c vtex_app w = (Ok tt, w') ->
  (w' = w /\ Catalog.vtex_app c <> None)
  \/ (let c' := Catalog.mk (Catalog.uuid c) (Catalog.app c)
                   (Catalog.facebook_catalog_id c) (Catalog.name c)
                   (Catalog.category c) (Some (App.uuid vtex_app))
                   (Some (admin_user env)) in
      w' = mkWorld (apps w)
             (map (fun r => if bool_decide (Catalog.uuid r = Catalog.uuid c)
                            then c' else r) (catalogs w))
             (feeds w) (tasks w)).
Proof.
  unfold _link_catalog_to_vtex_app_if_needed.
  destruct (Catalog.vtex_app c) eqn:E.
  - intros [= <-]. left. split; [reflexivity | discriminate].
  - unfold save_catalog. simpl. intros [= <-]. right. reflexivity.
Qed.

Lemma filter_all {A} (P : A -> Prop) `{!forall x, Decision (P x)}
    (l : list A) :
  (forall x, x ∈ l -> P x) -> filter P l = l.
Proof.
  induction l as [|x l IH]; intros Hall; [reflexivity|].
  rewrite filter_cons, decide_True by (apply Hall; left).
  rewrite IH by (intros y Hy; apply Hall; right; exact Hy). reflexivity.
Qed.

(** No call gets past the import: the feeds, the flag, the link and the
    queue are as they were. *)
Lemma first_insert_raises env vtex_app catalog_id sellers w :
  exists e,
    first_product_insert_with_catalog env vtex_app catalog_id sellers w
    = (Raise e, w)
    /\ (forall u credentials wpp,
          _get_wpp_cloud_uuid vtex_app = Ok u ->
          _get_credentials vtex_app = Ok credentials ->
          _get_wpp_cloud u w = (Ok wpp, w) ->
          e = ImportError "FacebookCatalogSyncService"
                "marketplace.wpp_products.tasks").
Proof.
  unfold first_product_insert_with_catalog.
  destruct (_get_wpp_cloud_uuid vtex_app) as [u|e] eqn:Hu.
  2:{ exists e. split; [reflexivity|]. intros; discriminate. }
  destruct (_get_credentials vtex_app) as [cr|e] eqn:Hc.
  2:{ exists e. split; [reflexivity|]. intros; discriminate. }
  unfold bind at 1, lift. unfold bind at 1. unfold bind at 1.
  destruct (_get_wpp_cloud u w) as [[wpp|e] w1] eqn:Hw.
  - apply get_wpp_cloud_inv in Hw as [-> _].
    unfold bind at 1. rewrite get_or_sync_catalog_import.
    eexists. split; [reflexivity|]. reflexivity.
  - assert (w1 = w) as ->.
    { unfold _get_wpp_cloud in Hw. destruct (first _) in Hw;
        injection Hw as _ <-; reflexivity. }
    exists e. split; [reflexivity|].
    intros u' cr' wpp' [= <-] _ Hw'. rewrite Hw' in Hw. discriminate.
Qed.

(** C8: first-insertion admission never gets as far as its writes.  On a
    state where the target holds -- the flag is set, the catalog of the
    connection is found and linked, and it has no feed -- the call raises
    [ImportError]: [_get_or_sync_catalog] begins by importing
    [FacebookCatalogSyncService] from [marketplace.wpp_products.tasks],
    which defines no such name.  Nothing is written and no job is
    dispatched. *)
Theorem first_insertion_import_fails :
  let v := Samples.vtex (PBool true) (PBool true) (PBool true) in
  let w := Samples.admission_world v (Some "v1") [] in
  target_state v "101" w
  /\ first_product_insert_with_catalog Samples.no_sync v "101" None w
     = (Raise (ImportError "FacebookCatalogSyncService"
                 "marketplace.wpp_products.tasks"), w).
Proof.
  intros v w. split; [|vm_compute; reflexivity].
  split; [reflexivity|].
  exists (PStr "w1"), Samples.credentials, Samples.wpp_cloud,
    (Samples.catalog (Some "v1")).
  repeat split; try reflexivity; try discriminate.
  intros f Hf. inversion Hf.
Qed.

(** The two guarded writes, taken alone, do nothing when there is nothing
    to do. *)
Example flag_and_link_guarded :
  let v := Samples.vtex (PBool true) (PBool true) (PBool true) in
  let w := Samples.admission_world v (Some "v1") [] in
  _update_app_connected_catalog_flag v w = (Ok v, w)
  /\ _link_catalog_to_vtex_app_if_needed Samples.no_sync
       (Samples.catalog (Some "v1")) v w = (Ok tt, w).
Proof. split; reflexivity. Qed.

End FirstInsertionFacts.

(** ** Catalog reconciliation *)

Section ReconcileFacts.
Import Reconcile Vocabulary.



Lemma total_modify {S} (f : S -> S) : total (modify f).
Proof. intros w. eexists _, _. reflexivity. Qed.

Lemma total_gets {S A} (f : S -> A) : total (gets f).
Proof. intros w. eexists _, _. reflexivity. Qed.

Lemma total_logger line : total (logger line).
Proof. apply total_modify. Qed.



Lemma keeps_flows_ret {A} (a : A) : keeps_flows (ret a).
Proof. intros w. reflexivity. Qed.

Lemma keeps_flows_raise {A} e : keeps_flows (raise (A := A) e).
Proof. intros w. reflexivity. Qed.

Lemma keeps_flows_lift {A} (r : result A) : keeps_flows (lift r).
Proof. intros w. reflexivity. Qed.

Lemma keeps_flows_logger line : keeps_flows (logger line).
Proof. intros w. reflexivity. Qed.

Lemma keeps_flows_bind {A B} (m : M World A) (k : A -> M World B) :
  keeps_flows m -> (forall a, keeps_flows (k a)) -> keeps_flows (bind m k).
Proof.
  intros Hm Hk w. unfold bind. specialize (Hm w).
  destruct (m w) as [[a|e] w1]; simpl in Hm.
  - rewrite Hk. exact Hm.
  - exact Hm.
Qed.

Lemma keeps_flows_try {A} (m : M World A) (h : exn -> M World A) :
  keeps_flows m -> (forall e, keeps_flows (h e)) -> keeps_flows (try_except m h).
Proof.
  intros Hm Hh w. unfold try_except. specialize (Hm w).
  destruct (m w) as [[a|e] w1]; simpl in Hm.
  - exact Hm.
  - rewrite Hh. exact Hm.
Qed.

Lemma keeps_flows_handle {A} msg continue info (func : M World A) :
  keeps_flows func -> keeps_flows (handle_exceptions msg continue info func).
Proof.
  intros Hf. unfold handle_exceptions. apply keeps_flows_try.
  - apply keeps_flows_bind; [exact Hf | intros; apply keeps_flows_ret].
  - intros e. apply keeps_flows_bind; [apply keeps_flows_lift|].
    intros s. apply keeps_flows_bind; [apply keeps_flows_logger|].
    intros _. destruct continue;
      [apply keeps_flows_ret | apply keeps_flows_raise].
Qed.

Lemma keeps_flows_details env app catalog_id :
  keeps_flows (get_catalog_details_task env app catalog_id).
Proof. apply keeps_flows_handle, keeps_flows_lift. Qed.

Lemma keeps_flows_create env app d :
  keeps_flows (create_catalog_task env app d).
Proof.
  apply keeps_flows_handle.
  repeat (apply keeps_flows_bind; [apply keeps_flows_lift | intros ?]).
  destruct (create_fault env app d); [apply keeps_flows_raise|].
  intros w. reflexivity.
Qed.

Lemma keeps_flows_delete env app to_delete :
  keeps_flows (delete_catalogs_task env app to_delete).
Proof.
  apply keeps_flows_handle.
  destruct (delete_fault env app to_delete); [apply keeps_flows_raise|].
  intros w. reflexivity.
Qed.

Lemma keeps_flows_create_missing env app to_create :
  keeps_flows (create_missing env app to_create).
Proof.
  induction to_create as [|catalog_id rest IH]; [apply keeps_flows_ret|].
  cbn [create_missing].
  apply keeps_flows_bind; [apply keeps_flows_details | intros details].
  apply keeps_flows_bind; [|intros _; exact IH].
  destruct details as [d|]; [|apply keeps_flows_ret].
  destruct (bool_decide (d = ∅));
    [apply keeps_flows_ret | apply keeps_flows_create].
Qed.

Lemma keeps_flows_list env app : keeps_flows (list_all_catalogs_task env app).
Proof.
  apply keeps_flows_handle, keeps_flows_try; [apply keeps_flows_lift|].
  intros e. apply keeps_flows_bind; [apply keeps_flows_logger|].
  intros _. apply keeps_flows_ret.
Qed.

(** Fetching the listing never fails: an error of the client is logged and
    read as an empty listing. *)
Lemma list_all_catalogs_task_spec env app w :
  exists p w',
    list_all_catalogs_task env app w = (Ok (Some p), w')
    /\ catalogs w' = catalogs w /\ flows_calls w' = flows_calls w
    /\ match list_all_catalogs env app with
       | Ok r => p = r /\ w' = w
       | Raise _ => p = ([], [])
       end.
Proof.
  unfold list_all_catalogs_task, handle_exceptions, try_except, bind, lift,
    ret, logger, modify.
  destruct (list_all_catalogs env app) as [r|e]; eexists _, _;
    (split; [reflexivity|]); auto.
Qed.

(** The push: one call with the listing, whatever the consumer answers. *)
Lemma update_catalogs_on_flows_task_spec env app all_catalogs w :
  exists r w',
    update_catalogs_on_flows_task env app all_catalogs w = (Ok r, w')
    /\ catalogs w' = catalogs w
    /\ flows_calls w'
       = flows_calls w ++ [(str_opt (App.flow_object_uuid app), all_catalogs)].
Proof.
  unfold update_catalogs_on_flows_task, handle_exceptions, try_except, bind,
    lift, ret, logger, modify. simpl.
  destruct (update_catalogs env _ all_catalogs) as [[]|e]; eexists _, _;
    (split; [reflexivity|]); auto.
Qed.

Example healthy_pass :
  let '(r, w) := sync_facebook_catalogs Samples.healthy Samples.no_catalogs in
  r = Ok tt
  /\ map Catalog.facebook_catalog_id (catalogs w) = ["101"; "202"]
  /\ flows_calls w = [("f1", [Samples.entry "101" "Store"]);
                      ("f2", [Samples.entry "202" "Shop"])]
  /\ log w = [].
Proof. vm_compute. repeat split. Qed.

Example all_but_details_down_pass :
  let old := Catalog.mk "c9" "w2" "999" "Old" "commerce" None None in
  let '(r, w) :=
    sync_facebook_catalogs Samples.all_but_details_down
      (mkWorld [old] [] []) in
  r = Ok tt /\ catalogs w = [old]
  /\ flows_calls w = [("f2", [Samples.entry "202" "Shop"])]
  /\ log w
     = ["Error on list all catalogs for App: listing unavailable";
        "Error updating catalogs for App: - UUID: w2: flows unavailable";
        "Error creating catalog for App: - UUID: w2: insert refused";
        "Error deleting catalogs for App: - UUID: w2: delete refused"].
Proof. vm_compute. repeat split. Qed.


Lemma details_task_ok env app catalog_id d w :
  get_catalog_details env app catalog_id = Ok d ->
  get_catalog_details_task env app catalog_id w = (Ok (Some d), w).
Proof.
  intros H. unfold get_catalog_details_task, handle_exceptions, try_except,
    bind, lift, ret. rewrite H. reflexivity.
Qed.

(** A failure of the details request is logged and raised again; when the
    client has no [uuid] the log line itself fails. *)
Lemma details_task_raise env app catalog_id e w :
  get_catalog_details env app catalog_id = Raise e ->
  get_catalog_details_task env app catalog_id w
  = match client_uuid env app with
    | Some u =>
        (Raise e,
         mkWorld (catalogs w) (flows_calls w)
           (log w ++ ["Error getting catalog details for App"
                        +:+ ("- UUID: " +:+ u) +:+ ": " +:+ str_exn e]))
    | None => (Raise (AttributeError "object has no attribute 'uuid'"), w)
    end.
Proof.
  intros H. unfold get_catalog_details_task, handle_exceptions, try_except,
    bind, lift, ret, get_extra_info. rewrite H.
  destruct (client_uuid env app); reflexivity.
Qed.



Lemma sync_app_skip env app w :
  both_identities app = false -> sync_app env app w = (Ok tt, w).
Proof.
  unfold sync_app, both_identities. intros ->. reflexivity.
Qed.

Lemma sync_app_unfold env app w :
  both_identities app = true ->
  exists p w1,
    list_all_catalogs_task env app w = (Ok (Some p), w1)
    /\ catalogs w1 = catalogs w /\ flows_calls w1 = flows_calls w
    /\ match list_all_catalogs env app with
       | Ok r => p = r /\ w1 = w
       | Raise _ => p = ([], [])
       end
    /\ sync_app env app w
       = match fst p with
         | [] => (Ok tt, w1)
         | _ :: _ =>
             reconcile env app (list_to_set (local_catalogs app w))
               (fst p) (snd p) w1
         end.
Proof.
  intros Hb.
  destruct (list_all_catalogs_task_spec env app w)
    as (p & w1 & E & Hc & Hf & Hm).
  exists p, w1. repeat (split; [assumption|]).
  unfold sync_app. fold (both_identities app). rewrite Hb.
  unfold bind at 1, gets. unfold bind at 1. rewrite E.
  destruct p as [[|i ids] cats]; reflexivity.
Qed.

Lemma reconcile_flows env app local ids cats w :
  flows_calls (snd (reconcile env app local ids cats w))
  = flows_calls w ++ [(str_opt (App.flow_object_uuid app), cats)].
Proof.
  unfold reconcile.
  destruct (update_catalogs_on_flows_task_spec env app cats w)
    as (r & w1 & E & _ & Hf).
  unfold bind at 1. rewrite E. rewrite <- Hf.
  apply (keeps_flows_bind (create_missing env app _)).
  - apply keeps_flows_create_missing.
  - intros _. destruct (bool_decide _); [apply keeps_flows_ret|].
    apply keeps_flows_bind; [apply keeps_flows_delete|].
    intros _. apply keeps_flows_ret.
Qed.






Lemma sync_app_push env app w ids cats :
  both_identities app = true ->
  list_all_catalogs env app = Ok (ids, cats) -> ids <> [] ->
  flows_calls (snd (sync_app env app w))
  = flows_calls w ++ [(str_opt (App.flow_object_uuid app), cats)].
Proof.
  intros Hb Hl Hne.
  destruct (sync_app_unfold env app w Hb) as (p & w1 & _ & _ & _ & Hm & ->).
  rewrite Hl in Hm. destruct Hm as [-> ->]. cbn [fst snd].
  destruct ids; [contradiction|]. apply reconcile_flows.
Qed.

Lemma sync_app_empty env app w cats :
  both_identities app = true ->
  list_all_catalogs env app = Ok ([], cats) ->
  sync_app env app w = (Ok tt, w).
Proof.
  intros Hb Hl.
  destruct (sync_app_unfold env app w Hb) as (p & w1 & _ & _ & _ & Hm & ->).
  rewrite Hl in Hm. destruct Hm as [-> ->]. reflexivity.
Qed.

Lemma sync_app_unlisted env app w e :
  both_identities app = true ->
  list_all_catalogs env app = Raise e ->
  exists w', sync_app env app w = (Ok tt, w')
             /\ flows_calls w' = flows_calls w /\ catalogs w' = catalogs w.
Proof.
  intros Hb Hl.
  destruct (sync_app_unfold env app w Hb) as (p & w1 & _ & Hc & Hf & Hm & ->).
  rewrite Hl in Hm. subst p. exists w1. auto.
Qed.

(** The calls to the downstream consumer are only ever added to. *)
Lemma sync_app_flows_prefix env app w :
  exists l, flows_calls (snd (sync_app env app w)) = flows_calls w ++ l.
Proof.
  destruct (both_identities app) eqn:Hb.
  - destruct (sync_app_unfold env app w Hb) as (p & w1 & _ & _ & Hf & _ & ->).
    destruct (fst p).
    + exists []. rewrite app_nil_r. exact Hf.
    + eexists. rewrite reconcile_flows, Hf. reflexivity.
  - rewrite sync_app_skip by assumption. exists []. rewrite app_nil_r.
    reflexivity.
Qed.

Lemma for_apps_flows_prefix env apps w :
  exists l, flows_calls (snd (for_apps env apps w)) = flows_calls w ++ l.
Proof.
  revert w. induction apps as [|app rest IH]; intros w.
  - exists []. rewrite app_nil_r. reflexivity.
  - cbn [for_apps]. unfold bind.
    destruct (sync_app_flows_prefix env app w) as [l1 H1].
    destruct (sync_app env app w) as [[[]|e] w1]; cbn [snd] in *.
    + destruct (IH w1) as [l2 H2]. exists (l1 ++ l2).
      rewrite H2, H1, app_assoc. reflexivity.
    + exists l1. exact H1.
Qed.

Lemma for_apps_app env pre post w :
  for_apps env (pre ++ post) w
  = match for_apps env pre w with
    | (Ok _, w1) => for_apps env post w1
    | (Raise e, w1) => (Raise e, w1)
    end.
Proof.
  revert w. induction pre as [|a pre IH]; intros w; [reflexivity|].
  rewrite <- app_comm_cons. cbn [for_apps]. unfold bind.
  destruct (sync_app env a w) as [[[]|e] w1]; [apply IH | reflexivity].
Qed.






(** The remote listing of a connection with both identities is empty:
    the pass pushes nothing and leaves the local catalog in place. *)
Lemma empty_listing_not_pushed :
  both_identities Samples.wpp_cloud = true
  /\ sync_facebook_catalogs Samples.empty_listing Samples.stale_catalog
     = (Ok tt, Samples.stale_catalog)
  /\ flows_calls Samples.stale_catalog = [].
Proof. vm_compute. repeat split. Qed.

(** C2 (amended): for a connection with both identities, reconciliation
    pushes the full remote listing downstream whenever that listing is not
    empty -- with or without a difference to the local catalogs, and before
    any catalog is created or deleted -- and a pass that is not locked out
    and reaches the connection has made that call when it ends.  When the
    listing is empty, or cannot be fetched, nothing is pushed and the local
    catalogs stay as they are. *)
Theorem listing_pushed_when_not_empty (env : Env) (app : App.t) (w : World) :
  both_identities app = true ->
  (forall ids cats,
      list_all_catalogs env app = Ok (ids, cats) -> ids <> [] ->
      let call := (str_opt (App.flow_object_uuid app), cats) in
      flows_calls (snd (sync_app env app w)) = flows_calls w ++ [call]
      /\ (forall pre post w0,
            lock_held env = false ->
            apps env = pre ++ app :: post ->
            for_apps env pre w0 = (Ok tt, w) ->
            call ∈ flows_calls (snd (sync_facebook_catalogs env w0))))
  /\ (forall cats,
        list_all_catalogs env app = Ok ([], cats) ->
        sync_app env app w = (Ok tt, w))
  /\ (forall e,
        list_all_catalogs env app = Raise e ->
        exists w', sync_app env app w = (Ok tt, w')
                   /\ flows_calls w' = flows_calls w
                   /\ catalogs w' = catalogs w).
Proof.
  intros Hb. split; [|split].
  - intros ids cats Hl Hne call.
    pose proof (sync_app_push env app w ids cats Hb Hl Hne) as Hpush.
    split; [exact Hpush|].
    intros pre post w0 Hlock Happs Hpre.
    unfold sync_facebook_catalogs. rewrite Hlock, Happs, for_apps_app, Hpre.
    cbn [for_apps]. unfold bind.
    destruct (sync_app env app w) as [[[]|e] w1]; cbn [snd] in *.
    + destruct (for_apps_flows_prefix env post w1) as [l ->].
      rewrite Hpush. apply elem_of_app. left. apply elem_of_app. right.
      left.
    + rewrite Hpush. apply elem_of_app. right. left.
  - intros cats Hl. eapply sync_app_empty; eassumption.
  - intros e Hl. eapply sync_app_unlisted; eassumption.
Qed.

Lemma listing_pushed_when_not_empty_witness :
  both_identities Samples.wpp_cloud = true
  /\ flows_calls (snd (sync_app Samples.healthy Samples.wpp_cloud
                         Samples.stale_catalog))
     = [("f1", [Samples.entry "101" "Store"])].
Proof.
  assert (Hb : both_identities Samples.wpp_cloud = true) by reflexivity.
  split; [exact Hb|].
  refine (proj1 (proj1 (listing_pushed_when_not_empty Samples.healthy
                          Samples.wpp_cloud Samples.stale_catalog Hb)
                   ["101"] [Samples.entry "101" "Store"] _ _));
    [reflexivity | discriminate].
Defined.

End ReconcileFacts.

(** ** The batch fetcher and the upload loop *)

Section UploadFacts.
Import Upload Vocabulary.

(** The example of the specification: two pending rows, batches of one. *)
Example next_first_batch :
  __next__ (Samples.fetcher 1) [Samples.p1; Samples.p2]
  = (Ok ([UploadProduct.set_status processing Samples.p1],
         [Feed.literal "55#7"]),
     [UploadProduct.set_status processing Samples.p1; Samples.p2]).
Proof. vm_compute. reflexivity. Qed.

Example next_second_batch :
  __next__ (Samples.fetcher 1)
    (mark_products_as_error [Feed.literal "55#7"]
       [UploadProduct.set_status processing Samples.p1; Samples.p2])
  = (Ok ([UploadProduct.set_status processing Samples.p2],
         [Feed.literal "56#7"]),
     [UploadProduct.set_status error Samples.p1;
      UploadProduct.set_status processing Samples.p2]).
Proof. vm_compute. reflexivity. Qed.

Example next_exhausted :
  __next__ (Samples.fetcher 1)
    [UploadProduct.set_status error Samples.p1;
     UploadProduct.set_status success Samples.p2]
  = (Raise StopIteration,
     [UploadProduct.set_status error Samples.p1;
      UploadProduct.set_status success Samples.p2]).
Proof. vm_compute. reflexivity. Qed.

Example next_oldest_first :
  fst (__next__ (Samples.fetcher 1) [Samples.p2; Samples.p1])
  = Ok ([UploadProduct.set_status processing Samples.p1],
        [Feed.literal "55#7"]).
Proof. vm_compute. reflexivity. Qed.

Example upload_two_batches :
  match process_and_upload Samples.uploads_ok (Samples.uploader 1)
          (Samples.upload_world [Samples.p1; Samples.p2]) with
  | Some (r, w) =>
      r = Ok tt
      /\ map UploadProduct.status (table w) = [success; success]
      /\ map ProductUploadLog.sku_id (upload_log w) = [55%N; 56%N]
      /\ lock_renewals w = 2 /\ fetches w = 3
  | None => False
  end.
Proof. vm_compute. repeat split. Qed.

Example upload_refused :
  match process_and_upload Samples.uploads_refused (Samples.uploader 1)
          (Samples.upload_world [Samples.p1; Samples.p2]) with
  | Some (r, w) =>
      r = Ok tt
      /\ map UploadProduct.status (table w) = [error; error]
      /\ upload_log w = [] /\ lock_renewals w = 2
  | None => False
  end.
Proof. vm_compute. repeat split. Qed.

(** The database fails when the second batch is fetched: the loop ends, the
    handler marks the identifiers of the first batch -- which are no longer
    [processing] -- and the first batch stays [success]. *)
Example upload_second_fetch_fails :
  match process_and_upload (Samples.db_down_at 1) (Samples.uploader 1)
          (Samples.upload_world [Samples.p1; Samples.p2]) with
  | Some (r, w) =>
      r = Ok tt
      /\ map UploadProduct.status (table w) = [success; pending]
      /\ fetches w = 2
      /\ error_log w = ["Error on 'process_and_upload' v1: connection lost"]
  | None => False
  end.
Proof. vm_compute. repeat split. Qed.

(** An identifier without a numeric SKU stops the loop while the sent
    products are logged; the batch has already been marked [success]. *)
Example upload_bad_sku :
  match process_and_upload Samples.uploads_ok (Samples.uploader 1)
          (Samples.upload_world [Samples.bad; Samples.p1]) with
  | Some (r, w) =>
      r = Ok tt
      /\ map UploadProduct.status (table w) = [success; success]
      /\ map ProductUploadLog.sku_id (upload_log w) = [55%N]
      /\ fetches w = 2
  | None => False
  end.
Proof. vm_compute. repeat split. Qed.

#[local] Instance older_eq_total : Total older_eq.
Proof. intros p q. unfold older_eq. lia. Qed.

#[local] Instance older_eq_trans : Transitive older_eq.
Proof. intros p q r. unfold older_eq. lia. Qed.

Lemma pending_products_queue self db :
  pending_products self db = take (batch_size self) (queue self db).
Proof. reflexivity. Qed.

Lemma queue_elem self db p :
  p ∈ queue self db <-> p ∈ db /\ pending_for self p.
Proof.
  unfold queue, order_by_modified_on.
  rewrite merge_sort_Permutation, list_elem_of_filter. unfold pending_for.
  tauto.
Qed.

Lemma take_elem {A} (l : list A) n x : x ∈ take n l -> x ∈ l.
Proof.
  intros H. rewrite <- (take_drop n l). apply elem_of_app. left. exact H.
Qed.

Lemma pending_products_elem self db p :
  p ∈ pending_products self db -> p ∈ db /\ pending_for self p.
Proof. intros H. apply queue_elem. eapply take_elem. exact H. Qed.

Lemma pending_products_length self db :
  length (pending_products self db)
  = min (batch_size self)
      (length (filter (fun p => pending_for self p) db)).
Proof.
  rewrite pending_products_queue, length_take. f_equal.
  unfold queue, order_by_modified_on.
  rewrite merge_sort_Permutation. reflexivity.
Qed.

Lemma queue_sorted self db : StronglySorted older_eq (queue self db).
Proof. apply StronglySorted_merge_sort; apply _. Qed.

Lemma pending_products_sorted self db :
  Sorted older_eq (pending_products self db).
Proof.
  apply StronglySorted_Sorted.
  pose proof (queue_sorted self db) as H.
  rewrite <- (take_drop (batch_size self) (queue self db)) in H.
  apply StronglySorted_app_1_l in H. exact H.
Qed.

(** No pending row that is left out is older than a selected one. *)
Lemma pending_products_oldest self db p q :
  p ∈ pending_products self db ->
  q ∈ db -> pending_for self q -> q ∉ pending_products self db ->
  older_eq p q.
Proof.
  intros Hp Hq Hpend Hnot.
  pose proof (queue_sorted self db) as Hs.
  assert (Hin : q ∈ queue self db) by (apply queue_elem; auto).
  rewrite <- (take_drop (batch_size self) (queue self db)) in Hs, Hin.
  apply elem_of_app in Hin as [Hin | Hin]; [contradiction|].
  eapply StronglySorted_app_1_elem_of; eassumption.
Qed.

Lemma NoDup_ids db : NoDup (map UploadProduct.id db) -> NoDup db.
Proof. apply (NoDup_fmap_1 UploadProduct.id). Qed.

Lemma pending_products_NoDup self db :
  NoDup db -> NoDup (pending_products self db).
Proof.
  intros H. apply (sublist_NoDup _ (queue self db)); [|apply sublist_take].
  unfold queue, order_by_modified_on. rewrite merge_sort_Permutation.
  apply NoDup_filter. exact H.
Qed.

(** With unique keys, a row is selected exactly when its key is. *)
Lemma selected_by_id db (sel : list UploadProduct.t) p :
  NoDup (map UploadProduct.id db) ->
  (forall q, q ∈ sel -> q ∈ db) -> p ∈ db ->
  UploadProduct.id p ∈ map UploadProduct.id sel <-> p ∈ sel.
Proof.
  intros Hnd Hsub Hp. split.
  - intros Hid. apply list_elem_of_fmap in Hid as (q & Hq & Hqs).
    assert (Hqdb : q ∈ db) by auto.
    apply list_elem_of_lookup in Hp as [i Hi].
    apply list_elem_of_lookup in Hqdb as [j Hj].
    assert (i = j).
    { eapply NoDup_lookup; [exact Hnd | |].
      - rewrite list_lookup_fmap, Hi. reflexivity.
      - rewrite list_lookup_fmap, Hj. simpl. rewrite Hq. reflexivity. }
    subst j. rewrite Hi in Hj. injection Hj as ->. exact Hqs.
  - intros Hs. apply list_elem_of_fmap. eauto.
Qed.

Lemma claim_ids ids db :
  map UploadProduct.id (claim ids db) = map UploadProduct.id db.
Proof.
  unfold claim, update_status. rewrite map_map. apply map_ext.
  intros p. destruct (bool_decide _); reflexivity.
Qed.

Lemma claimed_claim ids db :
  claimed ids (claim ids db)
  = map (UploadProduct.set_status processing)
        (filter (fun p => UploadProduct.id p ∈ ids) db).
Proof.
  unfold claimed, claim, update_status.
  induction db as [|p db IH]; [reflexivity|].
  cbn [map]. rewrite !filter_cons.
  destruct (decide (UploadProduct.id p ∈ ids)) as [Hin|Hin].
  - rewrite bool_decide_eq_true_2 by assumption.
    rewrite decide_True by assumption. cbn [map]. rewrite IH. reflexivity.
  - rewrite bool_decide_eq_false_2 by assumption.
    rewrite decide_False by assumption. exact IH.
Qed.

Lemma filter_ext_in {A} (P Q : A -> Prop) `{!forall x, Decision (P x)}
    `{!forall x, Decision (Q x)} (l : list A) :
  (forall x, x ∈ l -> P x <-> Q x) -> filter P l = filter Q l.
Proof.
  induction l as [|x l IH]; intros Hext; [reflexivity|].
  rewrite !filter_cons.
  assert (Hx : P x <-> Q x) by (apply Hext; left).
  rewrite IH by (intros y Hy; apply Hext; right; exact Hy).
  destruct (decide (P x)), (decide (Q x)); tauto || reflexivity.
Qed.

Lemma map_ext_elem {A B} (f g : A -> B) (l : list A) :
  (forall x, x ∈ l -> f x = g x) -> map f l = map g l.
Proof.
  intros H. apply map_ext_in. intros x Hx. apply H, list_elem_of_In, Hx.
Qed.

(** The two results of a call that finds pending rows. *)
Lemma next_batch self db :
  pending_products self db <> [] ->
  let product_ids := map UploadProduct.id (pending_products self db) in
  __next__ self db
  = (Ok (claimed product_ids (claim product_ids db),
         map UploadProduct.facebook_product_id
           (claimed product_ids (claim product_ids db))),
     claim product_ids db).
Proof.
  intros Hne. unfold __next__. destruct (pending_products self db); [contradiction|].
  reflexivity.
Qed.

Lemma next_exhausted_iff self db :
  pending_products self db = [] <-> __next__ self db = (Raise StopIteration, db).
Proof.
  unfold __next__. destruct (pending_products self db); split;
    (reflexivity || discriminate).
Qed.

(** Exactly the selected rows change, and they become [processing]. *)
Lemma claim_selected self db :
  NoDup (map UploadProduct.id db) ->
  claim (map UploadProduct.id (pending_products self db)) db
  = map (fun p => if bool_decide (p ∈ pending_products self db)
                  then UploadProduct.set_status processing p else p) db.
Proof.
  intros Hnd. unfold claim, update_status. apply map_ext_elem.
  intros p Hp.
  rewrite (bool_decide_ext _ (p ∈ pending_products self db)); [reflexivity|].
  apply (selected_by_id db); [assumption | | assumption].
  intros q Hq. apply (pending_products_elem self db q Hq).
Qed.

(** The rows handed out are the selected rows, now [processing]. *)
Lemma claimed_selected self db :
  NoDup (map UploadProduct.id db) ->
  claimed (map UploadProduct.id (pending_products self db))
    (claim (map UploadProduct.id (pending_products self db)) db)
  ≡ₚ map (UploadProduct.set_status processing) (pending_products self db).
Proof.
  intros Hnd. rewrite claimed_claim. apply Permutation_map.
  pose proof (NoDup_ids db Hnd) as Hdb.
  apply NoDup_Permutation.
  - apply NoDup_filter. exact Hdb.
  - apply pending_products_NoDup. exact Hdb.
  - intros p. rewrite list_elem_of_filter. split.
    + intros [Hid Hp].
      refine (proj1 (selected_by_id db _ p Hnd _ Hp) Hid).
      intros q Hq. apply (pending_products_elem self db q Hq).
    + intros Hp. pose proof (pending_products_elem self db p Hp) as [Hin _].
      split; [|exact Hin]. apply list_elem_of_fmap. eauto.
Qed.

Lemma id_inj db p q :
  NoDup (map UploadProduct.id db) -> p ∈ db -> q ∈ db ->
  UploadProduct.id p = UploadProduct.id q -> p = q.
Proof.
  intros Hnd Hp Hq Hid.
  apply list_elem_of_lookup in Hp as [i Hi].
  apply list_elem_of_lookup in Hq as [j Hj].
  assert (i = j).
  { eapply NoDup_lookup; [exact Hnd | |].
    - rewrite list_lookup_fmap, Hi. reflexivity.
    - rewrite list_lookup_fmap, Hj. simpl. rewrite Hid. reflexivity. }
  subst j. congruence.
Qed.

Lemma claim_elem ids db p1 :
  p1 ∈ claim ids db ->
  exists p, p ∈ db /\ UploadProduct.id p = UploadProduct.id p1
            /\ (if bool_decide (UploadProduct.id p ∈ ids)
                then UploadProduct.status p1 = processing
                else p1 = p).
Proof.
  unfold claim, update_status. intros H.
  apply list_elem_of_fmap in H as (p & -> & Hp). exists p.
  split; [exact Hp|]. destruct (bool_decide _); split; reflexivity.
Qed.

Lemma next_Ok_inv self db products products_ids db1 :
  __next__ self db = (Ok (products, products_ids), db1) ->
  let product_ids := map UploadProduct.id (pending_products self db) in
  pending_products self db <> []
  /\ db1 = claim product_ids db
  /\ products = claimed product_ids db1
  /\ products_ids = map UploadProduct.facebook_product_id products.
Proof.
  unfold __next__. destruct (pending_products self db) as [|p sel] eqn:E;
    [discriminate|].
  intros [= <- <- <-]. repeat split. discriminate.
Qed.

(** The keys of a batch are distinct, and they are the keys of the rows
    that were selected. *)
Lemma batch_ids self db :
  NoDup (map UploadProduct.id db) ->
  let product_ids := map UploadProduct.id (pending_products self db) in
  NoDup (map UploadProduct.id (claimed product_ids (claim product_ids db)))
  /\ forall p, p ∈ claimed product_ids (claim product_ids db) ->
               exists q, q ∈ pending_products self db
                         /\ UploadProduct.id q = UploadProduct.id p.
Proof.
  intros Hnd product_ids.
  pose proof (claimed_selected self db Hnd) as Hperm.
  fold product_ids in Hperm. split.
  - rewrite Hperm, map_map. cbn [UploadProduct.set_status UploadProduct.id].
    apply (NoDup_fmap_2_strong UploadProduct.id).
    + intros p q Hp Hq. apply (id_inj db); [assumption | |];
        eapply pending_products_elem; eassumption.
    + apply pending_products_NoDup, NoDup_ids, Hnd.
  - intros p Hp. rewrite Hperm in Hp.
    apply list_elem_of_fmap in Hp as (q & -> & Hq). exists q. auto.
Qed.

(** Within one pass no row is handed out twice, and every row handed out
    was [pending] when the pass began. *)
Lemma pass_no_reemit self db batches :
  pass self db batches ->
  NoDup (map UploadProduct.id db) ->
  NoDup (map UploadProduct.id (concat batches))
  /\ forall p, p ∈ concat batches ->
               exists q, q ∈ db /\ UploadProduct.id q = UploadProduct.id p
                         /\ UploadProduct.status q = pending.
Proof.
  induction 1 as [db | db products products_ids db1 db2 batches Hnext Hq _ IH];
    intros Hnd.
  - split; [constructor | intros p Hp; inversion Hp].
  - apply next_Ok_inv in Hnext as (Hne & Hdb1 & Hprod & _).
    rewrite Hdb1 in Hprod.
    destruct (batch_ids self db Hnd) as [Hbnd Hbsel].
    rewrite <- Hprod in Hbnd, Hbsel.
    destruct Hq as [Hnd2 Hq]. destruct (IH Hnd2) as [IHnd IHp].
    (* a row that is still pending after the call was pending before it and
       is not in the batch *)
    assert (Hlater : forall p, p ∈ concat batches ->
              exists q, q ∈ db /\ UploadProduct.id q = UploadProduct.id p
                        /\ UploadProduct.status q = pending
                        /\ UploadProduct.id q
                           ∉ map UploadProduct.id (pending_products self db)).
    { intros p Hp. destruct (IHp p Hp) as (q2 & Hq2 & Hid2 & Hst2).
      destruct (Hq q2 Hq2 Hst2) as (q1 & Hq1 & Hid1 & Hst1).
      rewrite Hdb1 in Hq1. apply claim_elem in Hq1 as (q & Hqdb & Hid & Hcase).
      destruct (bool_decide _) eqn:Hb.
      - congruence.
      - subst q1. exists q.
        apply bool_decide_eq_false in Hb. repeat split; try assumption.
        congruence. }
    cbn [concat]. split.
    + rewrite map_app. apply NoDup_app. split; [exact Hbnd|].
      split; [|exact IHnd].
      intros x Hx Hx'.
      apply list_elem_of_fmap in Hx as (p & -> & Hp).
      apply list_elem_of_fmap in Hx' as (p' & Hid' & Hp').
      destruct (Hbsel p Hp) as (q & Hqsel & Hqid).
      destruct (Hlater p' Hp') as (q' & _ & Hq'id & _ & Hnot).
      apply Hnot. rewrite Hq'id, <- Hid', <- Hqid.
      apply list_elem_of_fmap. eauto.
    + intros p Hp. apply elem_of_app in Hp as [Hp | Hp].
      * destruct (Hbsel p Hp) as (q & Hqsel & Hqid).
        destruct (pending_products_elem self db q Hqsel) as [Hqdb [_ Hst]].
        eauto.
      * destruct (Hlater p Hp) as (q & ? & ? & ? & _). eauto.
Qed.

(** Marking a batch as sent or as failed re-queues nothing. *)
Lemma update_status_requeues_nothing sel new db :
  new <> pending -> NoDup (map UploadProduct.id db) ->
  requeues_nothing db (update_status sel new db).
Proof.
  intros Hnew Hnd. split.
  - unfold update_status. rewrite map_map.
    erewrite map_ext; [exact Hnd|].
    intros p. cbn beta. destruct (sel p); reflexivity.
  - intros p' Hp' Hst. unfold update_status in Hp'.
    apply list_elem_of_fmap in Hp' as (p & -> & Hp).
    exists p. destruct (sel p).
    + simpl in Hst. contradiction.
    + auto.
Qed.

(** *** Termination of the loop *)

Lemma length_filter_map_le {A} (P : A -> Prop) `{!forall x, Decision (P x)}
    (g : A -> A) (l : list A) :
  (forall x, P (g x) -> P x) ->
  length (filter P (map g l)) <= length (filter P l).
Proof.
  intros Hg. induction l as [|x l IH]; [reflexivity|].
  cbn [map]. rewrite !filter_cons.
  destruct (decide (P (g x))) as [Hgx|Hgx].
  - rewrite decide_True by (apply Hg; assumption). simpl. lia.
  - destruct (decide (P x)); simpl; lia.
Qed.

Lemma length_filter_map_lt {A} (P : A -> Prop) `{!forall x, Decision (P x)}
    (g : A -> A) (l : list A) (x0 : A) :
  (forall x, P (g x) -> P x) ->
  x0 ∈ l -> P x0 -> ~ P (g x0) ->
  length (filter P (map g l)) < length (filter P l).
Proof.
  intros Hg Hin Hx0 Hgx0. induction l as [|x l IH]; [inversion Hin|].
  cbn [map]. rewrite !filter_cons.
  apply elem_of_cons in Hin as [<- | Hin].
  - rewrite decide_False by assumption. rewrite decide_True by assumption.
    pose proof (length_filter_map_le P g l Hg). simpl. lia.
  - specialize (IH Hin). destruct (decide (P (g x))) as [Hgx|Hgx].
    + rewrite decide_True by (apply Hg; assumption). simpl. lia.
    + destruct (decide (P x)); simpl; lia.
Qed.

Lemma update_status_pending_count self sel new db :
  new <> pending ->
  pending_count self (update_status sel new db) <= pending_count self db.
Proof.
  intros Hnew. unfold pending_count, update_status.
  apply length_filter_map_le. intros p. destruct (sel p); [|tauto].
  intros [_ Hst]. simpl in Hst. contradiction.
Qed.

Lemma claim_pending_count self db :
  pending_products self db <> [] ->
  pending_count self
    (claim (map UploadProduct.id (pending_products self db)) db)
  < pending_count self db.
Proof.
  intros Hne. destruct (pending_products self db) as [|p0 sel] eqn:E;
    [contradiction|].
  assert (Hp0 : p0 ∈ pending_products self db) by (rewrite E; left).
  destruct (pending_products_elem self db p0 Hp0) as [Hin Hpend].
  rewrite <- E. unfold pending_count, claim, update_status.
  apply (length_filter_map_lt _ _ db p0); [| assumption | assumption |].
  - intros p. destruct (bool_decide _); [|tauto].
    intros [_ Hst]. simpl in Hst. discriminate.
  - rewrite bool_decide_eq_true_2
      by (apply list_elem_of_fmap; exists p0; auto).
    intros [_ Hst]. simpl in Hst. discriminate.
Qed.

(** A step that fails leaves the state as it was. *)
Lemma guard_cases env op w :
  (fault env op = None /\ guard env op w = (Ok tt, w))
  \/ (exists e, fault env op = Some e /\ guard env op w = (Raise e, w)).
Proof.
  unfold guard. destruct (fault env op) as [e|]; [right; eauto | left; auto].
Qed.

Lemma log_sent_products_table env self batch row product_ids w :
  table (snd (log_sent_products env self batch row product_ids w)) = table w.
Proof.
  revert row w. induction product_ids as [|i rest IH]; intros row w;
    [reflexivity|].
  cbn [log_sent_products]. unfold bind at 1, lift.
  destruct (Sku.extract_sku_id i); [|reflexivity].
  unfold bind at 1.
  destruct (guard_cases env (CreateLog batch row) w) as [[_ ->]|(e & _ & ->)];
    [|reflexivity].
  unfold bind at 1, modify. rewrite IH. reflexivity.
Qed.

(** The body of the loop writes the table through the two marking
    functions only. *)
Lemma body_table env self products products_ids w :
  let db' := table (snd (body env self products products_ids w)) in
  db' = table w
  \/ db' = mark_products_as_sent products_ids (table w)
  \/ db' = mark_products_as_error products_ids (table w).
Proof.
  unfold body, expire, bind, lift, gets, modify.
  destruct (Feed.convert_to_csv products true) as [csv|e]; [|left; reflexivity].
  destruct (guard_cases env (SendToMeta (Nat.pred (fetches w))) w)
    as [[_ ->]|(e & _ & ->)]; [|left; reflexivity].
  destruct (send_to_meta env (Nat.pred (fetches w)) csv).
  - destruct (guard_cases env (MarkSent (Nat.pred (fetches w))) w)
      as [[_ ->]|(e & _ & ->)]; [|left; reflexivity].
    right; left.
    pose proof (log_sent_products_table env self (Nat.pred (fetches w)) 0
                  products_ids
                  (set_table (mark_products_as_sent products_ids) w)) as Ht.
    destruct (log_sent_products env self _ _ products_ids _) as [[[]|e] w1];
      cbn [snd table] in *; [|rewrite Ht; reflexivity].
    destruct (guard_cases env (Expire (Nat.pred (fetches w))) w1)
      as [[_ ->]|(e & _ & ->)]; cbn [snd table]; rewrite Ht; reflexivity.
  - destruct (guard_cases env (MarkError (Nat.pred (fetches w))) w)
      as [[_ ->]|(e & _ & ->)]; [|left; reflexivity].
    right; right.
    destruct (guard_cases env (Expire (Nat.pred (fetches w)))
                (set_table (mark_products_as_error products_ids) w))
      as [[_ ->]|(e & _ & ->)]; reflexivity.
Qed.

Lemma body_pending_count env self products products_ids w :
  pending_count (product_manager self)
    (table (snd (body env self products products_ids w)))
  <= pending_count (product_manager self) (table w).
Proof.
  destruct (body_table env self products products_ids w) as [-> | [-> | ->]];
    [lia | |]; apply update_status_pending_count; discriminate.
Qed.

(** The ways a call of [__next__] in the loop can go. *)
Lemma fetch_cases env self w :
  let w1 db := mkWorld db (upload_log w) (lock_renewals w) (error_log w)
                 (S (fetches w)) in
  (exists e, db_fault env (fetches w) = Some e
             /\ fetch env self w = (Raise e, w1 (table w)))
  \/ (db_fault env (fetches w) = None
      /\ pending_products (product_manager self) (table w) = []
      /\ fetch env self w = (Raise StopIteration, w1 (table w)))
  \/ (db_fault env (fetches w) = None
      /\ exists ps ids db',
          __next__ (product_manager self) (table w) = (Ok (ps, ids), db')
          /\ (reload_fault env (fetches w) = None
              /\ fetch env self w = (Ok (ps, ids), w1 db')
              \/ exists msg,
                  reload_fault env (fetches w) = Some msg
                  /\ fetch env self w = (Raise (ExternalError msg), w1 db'))).
Proof.
  intros w1. unfold fetch. destruct (db_fault env (fetches w)) as [e|].
  { left. exists e. split; reflexivity. }
  right.
  destruct (__next__ (product_manager self) (table w)) as [[[ps ids]|e] db']
    eqn:E.
  - right. split; [reflexivity|]. exists ps, ids, db'. split; [reflexivity|].
    destruct (reload_fault env (fetches w)) as [msg|]; [right | left]; eauto.
  - left. unfold __next__ in E.
    destruct (pending_products (product_manager self) (table w)) eqn:Ep;
      [|discriminate].
    injection E as <- <-. auto.
Qed.

Lemma for_loop_terminates fuel env self products_ids w :
  pending_count (product_manager self) (table w) < fuel ->
  is_Some (for_loop fuel env self products_ids w).
Proof.
  revert products_ids w. induction fuel as [|fuel IH]; intros ids w Hlt;
    [lia|].
  cbn [for_loop].
  destruct (fetch_cases env self w)
    as [(e & _ & ->) | [(_ & _ & ->) | (_ & ps & fbids & db1 & Hnext & Hr)]].
  { destruct e; eauto. }
  { eauto. }
  destruct Hr as [[_ ->] | (msg & _ & ->)]; [|eauto].
  apply next_Ok_inv in Hnext as (Hne & Hdb1 & _ & _).
  pose proof (claim_pending_count _ _ Hne) as Hclaim. rewrite <- Hdb1 in Hclaim.
  match goal with
  | |- context [body env self ps fbids ?w1] =>
      pose proof (body_pending_count env self ps fbids w1) as Hbody;
      destruct (body env self ps fbids w1) as [[[]|e] w2]
  end; [|eauto].
  apply IH. cbn [snd table set_table] in Hbody. lia.
Qed.

(** [process_and_upload] always comes to an end. *)
Lemma process_and_upload_terminates env self w :
  is_Some (process_and_upload env self w).
Proof.
  unfold process_and_upload, process_and_upload_fuel.
  destruct (for_loop_terminates (S (length (table w))) env self None w)
    as [[[r ids] w'] E].
  - unfold pending_count.
    pose proof (length_filter (fun p => pending_for (product_manager self) p)
                  (table w)). lia.
  - rewrite E. destruct r; eauto.
Qed.

(** A failure of the first fetch reaches the handler before
    [products_ids] has been bound. *)
Lemma first_fetch_failure env self w e vtex_uuid :
  db_fault env (fetches w) = Some e -> e <> StopIteration ->
  Catalog.vtex_app (up_catalog self) = Some vtex_uuid ->
  process_and_upload env self w
  = Some (Raise (UnboundLocalError "products_ids"),
          mkWorld (table w) (upload_log w) (lock_renewals w)
            (error_log w ++
               ["Error on 'process_and_upload' " +:+ vtex_uuid +:+ ": "
                  +:+ str_exn e])
            (S (fetches w))).
Proof.
  intros Hf Hne Hv. unfold process_and_upload, process_and_upload_fuel.
  cbn [for_loop]. unfold fetch. rewrite Hf.
  destruct e; try contradiction; unfold handler; rewrite Hv; reflexivity.
Qed.

(** *** Status transitions *)

(** The two marking updates leave alone every row that is not
    [processing]. *)
Lemma mark_guarded (new : Status) (product_ids : list str)
    (db : list UploadProduct.t) (p : UploadProduct.t) :
  UploadProduct.status p <> processing ->
  (if bool_decide (UploadProduct.facebook_product_id p ∈ product_ids)
      && bool_decide (UploadProduct.status p = processing)
   then UploadProduct.set_status new p else p) = p.
Proof.
  intros Hst. rewrite (bool_decide_eq_false_2 (_ = processing)) by assumption.
  rewrite andb_false_r. reflexivity.
Qed.

Lemma mark_products_as_sent_guarded product_ids db :
  Forall2 (fun p p' => UploadProduct.status p <> processing -> p' = p)
    db (mark_products_as_sent product_ids db).
Proof.
  unfold mark_products_as_sent, update_status.
  induction db as [|p db IH]; constructor; [|exact IH].
  intros Hst. apply (mark_guarded success product_ids db p Hst).
Qed.

Lemma mark_products_as_error_guarded product_ids db :
  Forall2 (fun p p' => UploadProduct.status p <> processing -> p' = p)
    db (mark_products_as_error product_ids db).
Proof.
  unfold mark_products_as_error, update_status.
  induction db as [|p db IH]; constructor; [|exact IH].
  intros Hst. apply (mark_guarded error product_ids db p Hst).
Qed.

(** The update of the fetcher looks at the key only: a row whose key is in
    the list becomes [processing] whatever its status was. *)
Lemma claim_unguarded product_ids db p :
  p ∈ db -> UploadProduct.id p ∈ product_ids ->
  UploadProduct.set_status processing p ∈ claim product_ids db.
Proof.
  intros Hp Hid. unfold claim, update_status.
  apply list_elem_of_fmap. exists p. split; [|exact Hp].
  rewrite bool_decide_eq_true_2 by assumption. reflexivity.
Qed.

(** C3: the update of the batch fetcher is scoped by the list of keys
    alone.  Two workers on one row: the first has evaluated the query of
    [__next__] and holds the key of the pending row; the second fetches the
    same row, uploads it and marks it [success]; the update of the first
    then takes the row from [success] back to [processing]. *)
Theorem claim_overwrites_success :
  let self := Samples.fetcher 1 in
  let db0 := [Samples.p1] in
  let product_ids := map UploadProduct.id (pending_products self db0) in
  let db1 := snd (__next__ self db0) in
  let db2 := mark_products_as_sent [Feed.literal "55#7"] db1 in
  product_ids = [1%Z]
  /\ map UploadProduct.status db1 = [processing]
  /\ map UploadProduct.status db2 = [success]
  /\ map UploadProduct.status (claim product_ids db2) = [processing].
Proof. vm_compute. repeat split. Qed.

(** C4: the database fails at the very first fetch.  The handler logs the
    error and then reads [products_ids], which no iteration has bound:
    [process_and_upload] ends with [UnboundLocalError]; no row is marked. *)
Theorem first_fetch_failure_unbound :
  process_and_upload (Samples.db_down_at 0) (Samples.uploader 1)
    (Samples.upload_world [Samples.p1; Samples.p2])
  = Some (Raise (UnboundLocalError "products_ids"),
          mkWorld [Samples.p1; Samples.p2] [] 0
            ["Error on 'process_and_upload' v1: connection lost"] 1).
Proof. vm_compute. reflexivity. Qed.

(** C5: with unique keys, a call of [__next__] selects the pending rows of
    the catalog that were modified first, at most [batch_size] of them and
    in the order of [modified_on]; it raises [StopIteration] exactly when
    it selects no row; otherwise it sets the selected rows, and no other
    row, to [processing] and returns them with their remote product
    identifiers.  Over the calls of one pass, during which no row is put
    back to [pending], no row is returned twice and every row returned was
    pending when the pass began. *)
Theorem batch_fetcher_spec
    (self : ProductBatchFetcher) (db : list UploadProduct.t) :
  NoDup (map UploadProduct.id db) ->
  let sel := pending_products self db in
  length sel = min (batch_size self) (pending_count self db)
  /\ (forall p, p ∈ sel -> p ∈ db /\ pending_for self p)
  /\ Sorted older_eq sel
  /\ (forall p q, p ∈ sel -> q ∈ db -> pending_for self q -> q ∉ sel ->
                  older_eq p q)
  /\ (sel = [] <-> __next__ self db = (Raise StopIteration, db))
  /\ (sel <> [] ->
      exists products db',
        __next__ self db
        = (Ok (products, map UploadProduct.facebook_product_id products), db')
        /\ db' = map (fun p => if bool_decide (p ∈ sel)
                               then UploadProduct.set_status processing p
                               else p) db
        /\ products ≡ₚ map (UploadProduct.set_status processing) sel)
  /\ (forall batches,
        pass self db batches ->
        NoDup (map UploadProduct.id (concat batches))
        /\ forall p, p ∈ concat batches ->
                     exists q, q ∈ db
                               /\ UploadProduct.id q = UploadProduct.id p
                               /\ UploadProduct.status q = pending).
Proof.
  intros Hnd sel. subst sel.
  split; [apply pending_products_length|].
  split; [apply pending_products_elem|].
  split; [apply pending_products_sorted|].
  split; [apply pending_products_oldest|].
  split; [apply next_exhausted_iff|].
  split.
  - intros Hne. eexists _, _. split; [apply next_batch; exact Hne|].
    split; [apply claim_selected | apply claimed_selected]; exact Hnd.
  - intros batches Hpass. apply (pass_no_reemit self db); assumption.
Qed.

Lemma batch_fetcher_spec_witness :
  let db := [Samples.p2; Samples.p1] in
  NoDup (map UploadProduct.id db)
  /\ length (pending_products (Samples.fetcher 1) db) = 1
  /\ Sorted older_eq (pending_products (Samples.fetcher 1) db).
Proof.
  intros db.
  assert (Hnd : NoDup (map UploadProduct.id db)).
  { apply NoDup_cons. split; [|apply NoDup_singleton].
    intros H. apply list_elem_of_singleton in H. discriminate. }
  split; [exact Hnd|].
  pose proof (batch_fetcher_spec (Samples.fetcher 1) db Hnd) as H.
  cbv zeta in H. destruct H as (Hlen & _ & Hsorted & _).
  split; [exact Hlen | exact Hsorted].
Defined.

End UploadFacts.

(** * Further properties *)

(** ** The feed encoder, continued *)

Section FeedMore.
Import Feed Vocabulary Terms.

Lemma utf8_char_encodable c :
  encodable c = true -> exists bs, utf8_char c = Ok bs.
Proof.
  unfold encodable, utf8_char. intros H.
  apply andb_true_iff in H as [Hlt Hs]. rewrite Hlt.
  apply negb_true_iff in Hs. rewrite Hs.
  destruct (c <? 128)%N; [eauto|]. destruct (c <? 2048)%N; [eauto|].
  destruct (c <? 65536)%N; eauto.
Qed.

Lemma utf8_char_refused c :
  encodable c = false -> utf8_char c = Raise UnicodeEncodeError.
Proof.
  unfold encodable, utf8_char. intros H.
  destruct (N.ltb_spec c 128).
  { exfalso. apply andb_false_iff in H as [H | H].
    - apply N.ltb_ge in H. lia.
    - apply negb_false_iff, andb_true_iff in H as [H _].
      apply N.leb_le in H. lia. }
  destruct (N.ltb_spec c 2048).
  { exfalso. apply andb_false_iff in H as [H | H].
    - apply N.ltb_ge in H. lia.
    - apply negb_false_iff, andb_true_iff in H as [H _].
      apply N.leb_le in H. lia. }
  destruct (N.ltb_spec c 65536).
  { apply andb_false_iff in H as [H | H].
    - apply N.ltb_ge in H. lia.
    - apply negb_false_iff in H. rewrite H. reflexivity. }
  apply andb_false_iff in H as [H | H].
  - rewrite H. reflexivity.
  - apply negb_false_iff, andb_true_iff in H as [_ H].
    apply N.leb_le in H. lia.
Qed.

Lemma encode_ok text :
  (forall c, c ∈ text -> encodable c = true) -> exists out, encode text = Ok out.
Proof.
  induction text as [|c r IH]; intros H; [simpl; eauto|].
  destruct (utf8_char_encodable c (H c (list_elem_of_here _ _))) as [bs Hc].
  destruct IH as [rs Hr]; [intros x Hx; apply H; right; exact Hx|].
  simpl. rewrite Hc, Hr. eauto.
Qed.

Lemma encode_refused text c :
  c ∈ text -> encodable c = false -> encode text = Raise UnicodeEncodeError.
Proof.
  induction text as [|x r IH]; intros Hin Hc; [inversion Hin|].
  simpl. apply elem_of_cons in Hin as [<- | Hin].
  - rewrite (utf8_char_refused c Hc). reflexivity.
  - destruct (utf8_char x) as [bs|e] eqn:Hx.
    + rewrite (IH Hin Hc). reflexivity.
    + destruct (encodable x) eqn:Ex.
      * destruct (utf8_char_encodable x Ex) as [bs Hb]. congruence.
      * rewrite (utf8_char_refused x Ex) in Hx. congruence.
Qed.

Lemma replace_keeps old new text c :
  c ∈ text -> c <> old -> c ∈ replace old new text.
Proof.
  intros Hin Hne. unfold replace. apply list_elem_of_In, in_flat_map.
  exists c. split; [apply list_elem_of_In; exact Hin|].
  destruct (N.eqb_spec c old); [contradiction | left; reflexivity].
Qed.

Lemma escape_quotes_keeps text c :
  c ∈ text -> c <> DQUOTE -> c <> SQUOTE -> c ∈ escape_quotes text.
Proof.
  intros Hin Hd Hs. unfold escape_quotes.
  apply replace_keeps; [apply replace_keeps|]; assumption.
Qed.

Lemma escape_quotes_from text c :
  c ∈ escape_quotes text -> c ∈ text \/ c = SPACE.
Proof.
  unfold escape_quotes. intros H.
  apply replace_elem in H as [[H _] | H].
  - apply replace_elem in H as [[H _] | H]; [left; exact H | inversion H].
  - apply list_elem_of_singleton in H. right. exact H.
Qed.

Lemma join_contains sep ls l c : l ∈ ls -> c ∈ l -> c ∈ join sep ls.
Proof.
  induction ls as [|x ls IH]; intros Hl Hc; [inversion Hl|].
  rewrite join_cons. apply elem_of_app.
  apply elem_of_cons in Hl as [-> | Hl]; [left; exact Hc|].
  right. destruct ls as [|y ls']; [inversion Hl|].
  specialize (IH Hl Hc). rewrite join_cons in IH.
  cbn [map concat]. rewrite !elem_of_app.
  apply elem_of_app in IH as [IH | IH]; auto.
Qed.

(** X1: the encoder fails exactly on the records that [str.encode]
    refuses.  [convert_to_csv] returns the octets of the feed when every
    code point of every record is encodable, and raises
    [UnicodeEncodeError] as soon as one record holds a lone surrogate (or a
    value that is no code point); escaping the quotes neither removes nor
    introduces such a value. *)
Theorem convert_to_csv_fails_on_surrogates
    (products : list UploadProduct.t) (include_header : bool) :
  ((forall p c, p ∈ products -> c ∈ UploadProduct.data p ->
                encodable c = true) ->
   exists out, convert_to_csv products include_header = Ok out)
  /\ (forall p c, p ∈ products -> c ∈ UploadProduct.data p ->
                  encodable c = false ->
                  convert_to_csv products include_header
                  = Raise UnicodeEncodeError).
Proof.
  split.
  - intros Hall. unfold convert_to_csv. apply encode_ok.
    intros c Hc. unfold csv_content in Hc.
    apply join_elem in Hc as [Hc | (l & Hl & Hc)].
    + apply list_elem_of_singleton in Hc as ->. reflexivity.
    + apply elem_of_app in Hl as [Hl | Hl].
      * destruct include_header; [|inversion Hl].
        apply list_elem_of_singleton in Hl as ->.
        pose proof header_ascii as Ha.
        rewrite Forall_forall in Ha. specialize (Ha c Hc).
        unfold encodable.
        assert (H1 : (c <? 1114112)%N = true) by (apply N.ltb_lt; lia).
        assert (H2 : (55296 <=? c)%N = false) by (apply N.leb_gt; lia).
        rewrite H1, H2. reflexivity.
      * apply list_elem_of_fmap in Hl as (p & -> & Hp).
        apply escape_quotes_from in Hc as [Hc | ->]; [eauto | reflexivity].
  - intros p c Hp Hc Hbad. unfold convert_to_csv.
    apply (encode_refused _ c); [|exact Hbad].
    unfold csv_content.
    apply (join_contains _ _ (escape_quotes (UploadProduct.data p))).
    + apply elem_of_app. right. apply list_elem_of_fmap. eauto.
    + apply escape_quotes_keeps; [exact Hc | |];
        intros ->; vm_compute in Hbad; discriminate.
Qed.

Lemma convert_to_csv_fails_on_surrogates_witness :
  convert_to_csv
    [UploadProduct.mk 1 (Feed.literal "7#1") "c1" [55; 55357; 56] pending 0]%N true
  = Raise UnicodeEncodeError.
Proof.
  refine (proj2 (convert_to_csv_fails_on_surrogates _ true)
            (UploadProduct.mk 1 (Feed.literal "7#1") "c1" [55; 55357; 56]%N pending 0)
            55357%N _ _ _).
  - left.
  - right. left.
  - reflexivity.
Defined.

Lemma lines_of_single s : NEWLINE ∉ s -> lines_of s = [s].
Proof.
  induction s as [|c r IH]; intros H; [reflexivity|].
  simpl. destruct (N.eqb_spec c NEWLINE) as [->|Hne].
  - exfalso. apply H. left.
  - rewrite IH by (intros Hr; apply H; right; exact Hr). reflexivity.
Qed.

Lemma encoded_no_newline text :
  NEWLINE ∉ text -> NEWLINE ∉ encoded (escape_quotes text).
Proof.
  intros H Hin. unfold encoded in Hin.
  destruct (encode (escape_quotes text)) as [bs|e] eqn:E; [|inversion Hin].
  destruct (encode_bytes _ _ _ E Hin) as [[Hc _] | Hhi].
  - apply escape_quotes_from in Hc as [Hc | Hc]; [exact (H Hc) | discriminate].
  - unfold NEWLINE in Hhi. lia.
Qed.

Lemma flat_map_single {A B} (f : A -> list B) (g : A -> B) (l : list A) :
  (forall x, x ∈ l -> f x = [g x]) -> flat_map f l = map g l.
Proof.
  induction l as [|x l IH]; intros H; [reflexivity|].
  cbn [flat_map map]. rewrite (H x (list_elem_of_here _ _)).
  rewrite IH by (intros y Hy; apply H; right; exact Hy). reflexivity.
Qed.

(** X2: one line per record.  When no record holds a line feed, the feed
    consists of the header (if asked for) followed by one line per record,
    in the order of the batch, each the encoding of the escaped data of its
    record; with the header the feed has one line more than the batch has
    records. *)
Theorem convert_to_csv_one_line_per_record
    (products : list UploadProduct.t) (include_header : bool) (out : list N) :
  (forall p, p ∈ products -> NEWLINE ∉ UploadProduct.data p) ->
  include_header = true \/ products <> [] ->
  convert_to_csv products include_header = Ok out ->
  lines_of out
  = (if include_header then [header] else [])
    ++ map (fun p => encoded (escape_quotes (UploadProduct.data p))) products
  /\ length (lines_of out)
     = (if include_header then 1 else 0) + length products.
Proof.
  intros Hnl Hne H.
  assert (Hlines : lines_of out
                   = (if include_header then [header] else [])
                     ++ map (fun p => encoded
                                        (escape_quotes (UploadProduct.data p)))
                            products).
  { destruct include_header.
    - rewrite (convert_to_csv_lines _ _ H). cbn [app]. f_equal.
      apply flat_map_single. intros p Hp.
      apply lines_of_single, encoded_no_newline, Hnl, Hp.
    - destruct Hne as [? | Hne]; [discriminate|].
      destruct products as [|p ps]; [contradiction|].
      unfold convert_to_csv, csv_content in H. cbn [app map] in H.
      rewrite join_cons in H. rewrite (encode_lines _ _ _ H).
      rewrite flat_map_concat_map, map_map, <- flat_map_concat_map.
      cbn [app map]. rewrite lines_of_single
        by (apply encoded_no_newline, Hnl; left).
      cbn [app]. f_equal. apply flat_map_single. intros q Hq.
      apply lines_of_single, encoded_no_newline, Hnl. right. exact Hq. }
  split; [exact Hlines|].
  rewrite Hlines, length_app, length_map. destruct include_header; reflexivity.
Qed.

Lemma convert_to_csv_one_line_per_record_witness :
  length (lines_of (encoded (csv_content [Samples.p1; Samples.p2] true))) = 3.
Proof.
  refine (proj2 (convert_to_csv_one_line_per_record
                   [Samples.p1; Samples.p2] true _ _ _ _)).
  - intros p Hp.
    repeat (apply elem_of_cons in Hp as [-> | Hp]);
      [| | inversion Hp]; vm_compute; intros Hin;
      repeat (apply elem_of_cons in Hin as [Hin | Hin]; [discriminate|]);
      inversion Hin.
  - left. reflexivity.
  - vm_compute. reflexivity.
Defined.

(** X3: escaping is idempotent, and it never lengthens a text: a second
    pass over escaped data changes nothing. *)
Theorem escape_quotes_idempotent (text : list N) :
  escape_quotes (escape_quotes text) = escape_quotes text
  /\ length (escape_quotes text) <= length text.
Proof.
  split.
  - rewrite (escape_quotes_map (escape_quotes text)).
    assert (Hclean : forall c, c ∈ escape_quotes text ->
                               c <> DQUOTE /\ c <> SQUOTE)
      by apply escape_quotes_clean.
    induction (escape_quotes text) as [|c r IH]; [reflexivity|].
    destruct (Hclean c (list_elem_of_here _ _)) as [Hd Hs].
    rewrite filter_cons, decide_True by assumption. cbn [map].
    destruct (N.eqb_spec c SQUOTE); [contradiction|].
    rewrite IH by (intros x Hx; apply Hclean; right; exact Hx). reflexivity.
  - rewrite escape_quotes_map, length_map. apply length_filter.
Qed.

End FeedMore.

(** ** The upload loop, continued *)

Section UploadMore.
Import Upload Vocabulary Terms.

Lemma advances_refl p : advances p p.
Proof. unfold advances. destruct p; simpl; auto. Qed.

Lemma advances_trans p q r : advances p q -> advances q r -> advances p r.
Proof.
  unfold advances. intros (Hq & Hs1 & He1 & Hp1) (Hr & Hs2 & He2 & Hp2).
  repeat split; auto.
  rewrite Hr, Hq. destruct p; reflexivity.
Qed.

Lemma advances_id p q : advances p q -> UploadProduct.id q = UploadProduct.id p.
Proof. intros [-> _]. reflexivity. Qed.

Lemma Forall2_advances_refl db : Forall2 advances db db.
Proof. induction db; constructor; auto using advances_refl. Qed.

Lemma Forall2_advances_trans db1 db2 db3 :
  Forall2 advances db1 db2 -> Forall2 advances db2 db3 ->
  Forall2 advances db1 db3.
Proof.
  intros H. revert db3. induction H as [|p q l1 l2 Hpq _ IH]; intros db3 H23.
  - inversion H23. constructor.
  - inversion H23 as [|? r ? l3 Hqr Hrest]; subst. constructor.
    + eapply advances_trans; eassumption.
    + apply IH. assumption.
Qed.

Lemma Forall2_advances_ids db db' :
  Forall2 advances db db' ->
  map UploadProduct.id db' = map UploadProduct.id db.
Proof.
  induction 1 as [|p q l1 l2 Hpq _ IH]; [reflexivity|].
  cbn [map]. rewrite IH, (advances_id _ _ Hpq). reflexivity.
Qed.

Lemma Forall2_map_elem {A} (R : A -> A -> Prop) (g : A -> A) (l : list A) :
  (forall x, x ∈ l -> R x (g x)) -> Forall2 R l (map g l).
Proof.
  induction l as [|x l IH]; intros H; constructor.
  - apply H. left.
  - apply IH. intros y Hy. apply H. right. exact Hy.
Qed.

Lemma mark_advances (new : Status) (product_ids : list str) db :
  new = success \/ new = error ->
  Forall2 advances db
    (update_status
       (fun p => bool_decide (UploadProduct.facebook_product_id p ∈ product_ids)
                 && bool_decide (UploadProduct.status p = processing))
       new db).
Proof.
  intros Hnew. unfold update_status. apply Forall2_map_elem. intros p _.
  destruct (bool_decide (UploadProduct.facebook_product_id p ∈ product_ids));
    [|apply advances_refl].
  destruct (bool_decide (UploadProduct.status p = processing)) eqn:E;
    [|apply advances_refl].
  apply bool_decide_eq_true in E. cbn [andb]. unfold advances.
  destruct p as [i f c d st m]. simpl in *. subst st.
  repeat split; try discriminate.
  intros Hp. destruct Hnew; subst new; discriminate.
Qed.

Lemma next_advances self db r db' :
  NoDup (map UploadProduct.id db) ->
  __next__ self db = (r, db') -> Forall2 advances db db'.
Proof.
  intros Hnd. destruct r as [[ps ids]|e].
  2:{ unfold __next__. destruct (pending_products self db);
        intros [= _ <-]. apply Forall2_advances_refl. }
  intros H. apply next_Ok_inv in H as (_ & -> & _ & _).
  - rewrite (claim_selected self db Hnd).
    apply Forall2_map_elem. intros p _.
    destruct (bool_decide (p ∈ pending_products self db)) eqn:Hb;
      [|apply advances_refl].
    apply bool_decide_eq_true in Hb.
    destruct (pending_products_elem self db p Hb) as [_ [_ Hst]].
    unfold advances. destruct p as [i f c d st m]. simpl in *. subst st.
    repeat split; discriminate.
Qed.

Lemma upload_step_refl self w : upload_step self w w.
Proof.
  intros _. split; [apply Forall2_advances_refl|].
  exists []. rewrite app_nil_r. split; [reflexivity | constructor].
Qed.

Lemma upload_step_trans self w1 w2 w3 :
  upload_step self w1 w2 -> upload_step self w2 w3 -> upload_step self w1 w3.
Proof.
  intros H12 H23 Hnd. destruct (H12 Hnd) as (Ha & l1 & Hl1 & Hf1).
  assert (Hnd2 : NoDup (map UploadProduct.id (table w2)))
    by (rewrite (Forall2_advances_ids _ _ Ha); exact Hnd).
  destruct (H23 Hnd2) as (Hb & l2 & Hl2 & Hf2). split.
  - eapply Forall2_advances_trans; eassumption.
  - exists (l1 ++ l2). rewrite Hl2, Hl1, app_assoc. split; [reflexivity|].
    apply Forall_app. auto.
Qed.

Lemma fetch_step env self w r w1 :
  fetch env self w = (r, w1) -> upload_step self w w1.
Proof.
  assert (Hlog : exists logged : list ProductUploadLog.t,
             upload_log w = upload_log w ++ logged
             /\ Forall (fun l => ProductUploadLog.vtex_app l
                                 = Catalog.vtex_app (up_catalog self)) logged).
  { exists []. rewrite app_nil_r. split; [reflexivity | constructor]. }
  destruct (fetch_cases env self w)
    as [(e & _ & ->) | [(_ & _ & ->) | (_ & ps & ids & db' & E & Hr)]].
  - intros [= _ <-] _. split; [apply Forall2_advances_refl | exact Hlog].
  - intros [= _ <-] _. split; [apply Forall2_advances_refl | exact Hlog].
  - destruct Hr as [[_ ->] | (msg & _ & ->)]; intros [= _ <-] Hnd;
      (split; [exact (next_advances _ _ _ _ Hnd E) | exact Hlog]).
Qed.

(** What [log_sent_products] leaves behind: the log rows of the leading
    identifiers that have a SKU. *)
Lemma log_sent_products_run env self batch row product_ids w :
  exists r logged,
    log_sent_products env self batch row product_ids w
    = (r, mkWorld (table w) (upload_log w ++ logged) (lock_renewals w)
            (error_log w) (fetches w))
    /\ Forall (fun l => ProductUploadLog.vtex_app l
                        = Catalog.vtex_app (up_catalog self)) logged.
Proof.
  revert row w. induction product_ids as [|i rest IH]; intros row w.
  - exists (Ok tt), []. rewrite app_nil_r. destruct w. split; [reflexivity|].
    constructor.
  - cbn [log_sent_products]. unfold bind at 1, lift.
    destruct (Sku.extract_sku_id i) as [n|e].
    + unfold bind at 1.
      destruct (guard_cases env (CreateLog batch row) w)
        as [[_ ->]|(e & _ & ->)].
      * unfold bind at 1, modify.
        destruct (IH (S row)
                    (mkWorld (table w)
                       (upload_log w ++
                          [ProductUploadLog.mk n
                             (Catalog.vtex_app (up_catalog self))])
                       (lock_renewals w) (error_log w) (fetches w)))
          as (r & logged & -> & Hf).
        exists r, (ProductUploadLog.mk n (Catalog.vtex_app (up_catalog self))
                   :: logged).
        cbn [table upload_log lock_renewals error_log fetches].
        rewrite <- app_assoc. split; [reflexivity|].
        constructor; [reflexivity | exact Hf].
      * exists (Raise e), []. rewrite app_nil_r. destruct w.
        split; [reflexivity | constructor].
    + exists (Raise e), []. rewrite app_nil_r. destruct w.
      split; [reflexivity | constructor].
Qed.

(** The body of the loop, step by step: what it returns and the state it
    leaves, for each way it can go. *)
Lemma body_run env self products products_ids w :
  let batch := Nat.pred (fetches w) in
  exists r db' logged,
    body env self products products_ids w
    = (r, mkWorld db' (upload_log w ++ logged)
            (match r with
             | Ok _ => S (lock_renewals w)
             | Raise _ => lock_renewals w
             end)
            (error_log w) (fetches w))
    /\ (db' = table w
        \/ db' = mark_products_as_sent products_ids (table w)
        \/ db' = mark_products_as_error products_ids (table w))
    /\ Forall (fun l => ProductUploadLog.vtex_app l
                        = Catalog.vtex_app (up_catalog self)) logged.
Proof.
  intros batch. unfold body, expire, bind, lift, gets, modify. fold batch.
  assert (Hw : forall r, (r, w) = (r, mkWorld (table w) (upload_log w ++ [])
                                       (lock_renewals w) (error_log w)
                                       (fetches w)) :> result unit * World)
    by (intros r; rewrite app_nil_r; destruct w; reflexivity).
  destruct (Feed.convert_to_csv products true) as [csv|e].
  2:{ exists (Raise e), (table w), []. split; [apply Hw | auto]. }
  destruct (guard_cases env (SendToMeta batch) w) as [[_ ->]|(e & _ & ->)].
  2:{ exists (Raise e), (table w), []. split; [apply Hw | auto]. }
  destruct (send_to_meta env batch csv).
  - destruct (guard_cases env (MarkSent batch) w) as [[_ ->]|(e & _ & ->)].
    2:{ exists (Raise e), (table w), []. split; [apply Hw | auto]. }
    destruct (log_sent_products_run env self batch 0 products_ids
                (set_table (mark_products_as_sent products_ids) w))
      as (r0 & logged & -> & Hf).
    cbn [table upload_log lock_renewals error_log fetches set_table].
    destruct r0 as [[]|e].
    + match goal with
      | |- context [guard env (Expire batch) ?w1] =>
          destruct (guard_cases env (Expire batch) w1)
            as [[_ ->]|(e & _ & ->)]
      end.
      * exists (Ok tt), (mark_products_as_sent products_ids (table w)), logged.
        auto.
      * exists (Raise e), (mark_products_as_sent products_ids (table w)),
          logged. auto.
    + exists (Raise e), (mark_products_as_sent products_ids (table w)), logged.
      auto.
  - destruct (guard_cases env (MarkError batch) w) as [[_ ->]|(e & _ & ->)].
    2:{ exists (Raise e), (table w), []. split; [apply Hw | auto]. }
    match goal with
    | |- context [guard env (Expire batch) ?w1] =>
        destruct (guard_cases env (Expire batch) w1)
          as [[_ ->]|(e & _ & ->)]
    end.
    + exists (Ok tt), (mark_products_as_error products_ids (table w)), [].
      unfold set_table. cbn [table upload_log lock_renewals error_log fetches].
      rewrite app_nil_r. auto.
    + exists (Raise e), (mark_products_as_error products_ids (table w)), [].
      unfold set_table. cbn [table upload_log lock_renewals error_log fetches].
      rewrite app_nil_r. auto.
Qed.

Lemma body_step env self products products_ids w r w2 :
  body env self products products_ids w = (r, w2) -> upload_step self w w2.
Proof.
  destruct (body_run env self products products_ids w)
    as (r0 & db' & logged & -> & Hdb & Hf).
  intros [= _ <-] _. cbn [table upload_log]. split; [|eauto].
  destruct Hdb as [-> | [-> | ->]].
  - apply Forall2_advances_refl.
  - apply mark_advances. left. reflexivity.
  - apply mark_advances. right. reflexivity.
Qed.

Lemma for_loop_step fuel env self products_ids w r ids' w' :
  for_loop fuel env self products_ids w = Some (r, ids', w') ->
  upload_step self w w'.
Proof.
  revert products_ids w. induction fuel as [|fuel IH]; intros ids w;
    [discriminate|].
  cbn [for_loop].
  destruct (fetch env self w) as [[[ps fbids]|e] w1] eqn:Ef.
  - pose proof (fetch_step _ _ _ _ _ Ef) as H1.
    destruct (body env self ps fbids w1) as [[[]|e] w2] eqn:Eb.
    + intros H. eapply upload_step_trans; [exact H1|].
      eapply upload_step_trans; [eapply body_step; exact Eb|].
      eapply IH. exact H.
    + intros [= _ _ <-]. eapply upload_step_trans; [exact H1|].
      eapply body_step. exact Eb.
  - pose proof (fetch_step _ _ _ _ _ Ef) as H1.
    destruct e; intros [= _ _ <-]; exact H1.
Qed.

(** The handler, case by case. *)
Lemma handler_run env self e products_ids w :
  let logged vtex_uuid :=
    mkWorld (table w) (upload_log w) (lock_renewals w)
      (error_log w ++
         ["Error on 'process_and_upload' " +:+ vtex_uuid +:+ ": "
            +:+ str_exn e])
      (fetches w) in
  handler env self e products_ids w
  = match Catalog.vtex_app (up_catalog self) with
    | None =>
        (Raise (AttributeError "'NoneType' object has no attribute 'uuid'"),
         w)
    | Some vtex_uuid =>
        match products_ids with
        | None => (Raise (UnboundLocalError "products_ids"), logged vtex_uuid)
        | Some ids =>
            match fault env (HandlerMark (Nat.pred (fetches w))) with
            | Some e' => (Raise e', logged vtex_uuid)
            | None =>
                (Ok tt,
                 set_table (mark_products_as_error ids) (logged vtex_uuid))
            end
        end
    end.
Proof.
  unfold handler. destruct (Catalog.vtex_app (up_catalog self));
    [|reflexivity].
  destruct products_ids as [ids|]; [|reflexivity].
  unfold bind, modify, gets, guard. cbn [fetches].
  destruct (fault env _); reflexivity.
Qed.

Lemma handler_step env self e products_ids w r w' :
  handler env self e products_ids w = (r, w') -> upload_step self w w'.
Proof.
  rewrite handler_run. cbv zeta.
  set (logged u := mkWorld (table w) (upload_log w) (lock_renewals w)
                     (error_log w ++
                        ["Error on 'process_and_upload' " +:+ u +:+ ": "
                           +:+ str_exn e])
                     (fetches w)).
  assert (Hlog : forall u, upload_step self w (logged u)).
  { intros u _. split; [apply Forall2_advances_refl|]. exists [].
    cbn [logged upload_log]. rewrite app_nil_r.
    split; [reflexivity | constructor]. }
  destruct (Catalog.vtex_app (up_catalog self)) as [u|] eqn:Ev.
  2:{ intros [= _ <-]. apply (upload_step_refl self w). }
  destruct products_ids as [ids|].
  2:{ intros [= _ <-]. apply Hlog. }
  destruct (fault env _); intros [= _ <-]; [apply Hlog|].
  intros _. cbn [table upload_log set_table logged]. split.
  - apply mark_advances. right. reflexivity.
  - exists []. rewrite app_nil_r. split; [reflexivity | constructor].
Qed.

(** X4: what [process_and_upload] never does.  On a table with unique
    keys, a run -- whatever fails in it -- creates and deletes no
    [UploadProduct] row, changes no field but the status, takes no row out
    of [success] or [error] and puts none back to [pending]; it only adds
    rows to [ProductUploadLog], each for the VTEX app of the catalog. *)
Theorem process_and_upload_only_advances
    (env : Env) (self : ProductUploader) (w : World)
    (r : result unit) (w' : World) :
  NoDup (map UploadProduct.id (table w)) ->
  process_and_upload env self w = Some (r, w') ->
  Forall2 advances (table w) (table w')
  /\ exists logged,
      upload_log w' = upload_log w ++ logged
      /\ Forall (fun l => ProductUploadLog.vtex_app l
                          = Catalog.vtex_app (up_catalog self)) logged.
Proof.
  intros Hnd H. refine (_ Hnd). change (upload_step self w w').
  unfold process_and_upload, process_and_upload_fuel in H.
  destruct (for_loop _ env self None w) as [[[r0 ids] w0]|] eqn:E;
    [|discriminate].
  pose proof (for_loop_step _ _ _ _ _ _ _ _ E) as Hloop.
  destruct r0 as [[]|e].
  - injection H as _ <-. exact Hloop.
  - injection H as H. eapply upload_step_trans; [exact Hloop|].
    eapply handler_step. exact H.
Qed.

Lemma process_and_upload_only_advances_witness :
  let w := Samples.upload_world [Samples.bad; Samples.p1] in
  exists r w',
    process_and_upload Samples.uploads_ok (Samples.uploader 1) w = Some (r, w')
    /\ Forall2 advances (table w) (table w').
Proof.
  intros w. eexists _, _. split; [vm_compute; reflexivity|].
  refine (proj1 (process_and_upload_only_advances
                   Samples.uploads_ok (Samples.uploader 1) w _ _ _ _)).
  - apply NoDup_cons. split; [|apply NoDup_singleton].
    intros H. apply list_elem_of_singleton in H. discriminate.
  - vm_compute. reflexivity.
Defined.

(** *** What a run counts *)

Lemma fetch_inv env self w r w1 :
  fetch env self w = (r, w1) ->
  upload_log w1 = upload_log w /\ lock_renewals w1 = lock_renewals w
  /\ error_log w1 = error_log w /\ fetches w1 = S (fetches w)
  /\ match r with
     | Ok _ =>
         pending_count (product_manager self) (table w1)
         < pending_count (product_manager self) (table w)
     | Raise e =>
         table w1 = table w
         /\ (db_fault env (fetches w) = Some e
             \/ e = StopIteration
                /\ pending_products (product_manager self) (table w) = [])
         \/ pending_count (product_manager self) (table w1)
            < pending_count (product_manager self) (table w)
            /\ exists msg, reload_fault env (fetches w) = Some msg
                           /\ e = ExternalError msg
     end.
Proof.
  destruct (fetch_cases env self w)
    as [(e & He & ->) | [(_ & Hp & ->) | (_ & ps & ids & db' & E & Hr)]].
  - intros [= <- <-]. cbn. auto 10.
  - intros [= <- <-]. cbn. auto 10.
  - apply next_Ok_inv in E as (Hne & -> & _ & _).
    pose proof (claim_pending_count _ _ Hne) as Hc.
    destruct Hr as [[_ ->] | (msg & Hm & ->)]; intros [= <- <-];
      cbn [table upload_log lock_renewals error_log fetches];
      repeat split; try exact Hc.
    right. split; [exact Hc | eauto].
Qed.

Lemma body_inv env self products products_ids w r w2 :
  body env self products products_ids w = (r, w2) ->
  error_log w2 = error_log w /\ fetches w2 = fetches w
  /\ pending_count (product_manager self) (table w2)
     <= pending_count (product_manager self) (table w)
  /\ match r with
     | Ok _ => lock_renewals w2 = S (lock_renewals w)
     | Raise _ => lock_renewals w2 = lock_renewals w
     end.
Proof.
  intros H. pose proof (body_pending_count env self products products_ids w)
    as Hp. rewrite H in Hp. cbn [snd] in Hp. revert H.
  destruct (body_run env self products products_ids w)
    as (r0 & db' & logged & -> & _ & _).
  intros [= <- <-]. cbn [table lock_renewals error_log fetches].
  destruct r0; auto.
Qed.

Lemma for_loop_counts fuel env self products_ids w r ids' w' :
  for_loop fuel env self products_ids w = Some (r, ids', w') ->
  error_log w' = error_log w
  /\ fetches w < fetches w'
  /\ fetches w' + pending_count (product_manager self) (table w')
     <= S (fetches w + pending_count (product_manager self) (table w))
  /\ S (fetches w + lock_renewals w') <= fetches w' + lock_renewals w
  /\ lock_renewals w <= lock_renewals w'
  /\ (r = Ok tt -> (forall n, db_fault env n <> Some StopIteration) ->
      pending_products (product_manager self) (table w') = []
      /\ S (fetches w + lock_renewals w') = fetches w' + lock_renewals w).
Proof.
  revert products_ids w. induction fuel as [|fuel IH]; intros ids w;
    [discriminate|].
  cbn [for_loop].
  destruct (fetch env self w) as [[[ps fbids]|e] w1] eqn:Ef;
    apply fetch_inv in Ef as (_ & Hl1 & He1 & Hf1 & Hr1).
  - destruct (body env self ps fbids w1) as [[[]|e] w2] eqn:Eb;
      apply body_inv in Eb as (He2 & Hf2 & Hp2 & Hl2).
    + intros H. apply IH in H as (He & Hf & Hp & Hl & Hl' & Hok).
      repeat apply conj; try congruence; try lia.
      intros Hr Hdb. destruct (Hok Hr Hdb). split; [assumption | lia].
    + intros [= <- _ <-]. repeat apply conj; try congruence; try lia.
  - assert (Hp1 : pending_count (product_manager self) (table w1)
                  <= pending_count (product_manager self) (table w))
      by (destruct Hr1 as [[-> _] | [Hlt _]]; lia).
    assert (Hall : error_log w1 = error_log w
              /\ fetches w < fetches w1
              /\ fetches w1 + pending_count (product_manager self) (table w1)
                 <= S (fetches w
                       + pending_count (product_manager self) (table w))
              /\ S (fetches w + lock_renewals w1)
                 <= fetches w1 + lock_renewals w
              /\ lock_renewals w <= lock_renewals w1)
      by (repeat apply conj; try congruence; lia).
    destruct Hall as (? & ? & ? & ? & ?).
    destruct e; intros [= <- _ <-]; repeat apply conj; try assumption;
      try discriminate.
    intros _ Hdb. destruct Hr1 as [[Ht1 Hwhy] | (_ & msg & _ & [=])].
    destruct Hwhy as [Hwhy | [_ Hwhy]].
    + contradiction (Hdb _ Hwhy).
    + rewrite Ht1. split; [exact Hwhy | lia].
Qed.

(** Once [products_ids] is bound it stays bound; as long as it is not, the
    loop has ended in its first fetch. *)
Lemma for_loop_bound fuel env self products_ids w r w' :
  for_loop fuel env self products_ids w = Some (r, None, w') ->
  products_ids = None
  /\ forall e, r = Raise e ->
       db_fault env (fetches w) = Some e /\ table w' = table w
       \/ exists msg ps ids,
            db_fault env (fetches w) = None
            /\ reload_fault env (fetches w) = Some msg
            /\ e = ExternalError msg
            /\ __next__ (product_manager self) (table w)
               = (Ok (ps, ids), table w').
Proof.
  revert products_ids w. induction fuel as [|fuel IH]; intros ids w;
    [discriminate|].
  cbn [for_loop].
  destruct (fetch_cases env self w)
    as [(e & He & ->) | [(_ & _ & ->) | (Hn & ps & fbids & db' & E & Hr)]].
  - destruct e; intros [= <- -> <-]; (split; [reflexivity|]);
      intros e' [= <-]; left; split; (exact He || reflexivity).
  - intros [= <- -> <-]. split; [reflexivity | discriminate].
  - destruct Hr as [[_ ->] | (msg & Hm & ->)].
    + match goal with
      | |- context [body env self ps fbids ?w1] =>
          destruct (body env self ps fbids w1) as [[[]|e] w2] eqn:Eb
      end.
      * intros H. apply IH in H as [H _]. discriminate.
      * discriminate.
    + intros [= <- -> <-]. split; [reflexivity|].
      intros e' [= <-]. right. exists msg, ps, fbids. cbn [table]. auto.
Qed.

Lemma handler_inv env self e products_ids w r w' :
  handler env self e products_ids w = (r, w') ->
  fetches w' = fetches w /\ lock_renewals w' = lock_renewals w
  /\ pending_count (product_manager self) (table w')
     <= pending_count (product_manager self) (table w)
  /\ (r = Ok tt -> length (error_log w') = S (length (error_log w))).
Proof.
  rewrite handler_run. cbv zeta.
  destruct (Catalog.vtex_app (up_catalog self)) as [u|].
  2:{ intros [= <- <-]. repeat apply conj; try reflexivity; discriminate. }
  destruct products_ids as [ids|].
  2:{ intros [= <- <-]. repeat apply conj; try reflexivity; discriminate. }
  destruct (fault env _); intros [= <- <-];
    cbn [table fetches lock_renewals error_log set_table];
    repeat apply conj; try reflexivity; try discriminate.
  - apply update_status_pending_count. discriminate.
  - intros _. rewrite length_app. cbn. lia.
Qed.

(** The database is lost after the first batch: the second query fails,
    the handler catches the error and logs it, then its own update fails,
    and that failure reaches the caller. *)
Example upload_database_lost :
  match process_and_upload (Samples.db_lost_from 1) (Samples.uploader 1)
          (Samples.upload_world [Samples.p1; Samples.p2]) with
  | Some (r, w) =>
      r = Raise (ExternalError "connection lost")
      /\ map UploadProduct.status (table w) = [success; pending]
      /\ fetches w = 2
      /\ error_log w = ["Error on 'process_and_upload' v1: connection lost"]
  | None => False
  end.
Proof. vm_compute. repeat split. Qed.

(** X5: which exceptions leave [process_and_upload].  The method always
    returns.  What the loop raises is caught by the handler, which writes
    one line to the error log; a run that returns normally has written no
    line or this one.  The only exceptions that reach the caller are
    raised by the handler itself: [AttributeError] when the catalog is
    linked to no VTEX app, in which case no line is written;
    [UnboundLocalError] when the first call of [__next__] failed, in
    which case the failure is logged and the table is as it was, or, if
    the call failed after its update, holds the first batch as
    [processing]; and the failure of the handler's own update of the
    rows, after the line was written. *)
Theorem process_and_upload_raises
    (env : Env) (self : ProductUploader) (w : World) :
  let line vtex_uuid e0 :=
    "Error on 'process_and_upload' " +:+ vtex_uuid +:+ ": " +:+ str_exn e0 in
  exists r w',
    process_and_upload env self w = Some (r, w')
    /\ (r = Ok tt ->
        error_log w' = error_log w
        \/ exists vtex_uuid e0,
             Catalog.vtex_app (up_catalog self) = Some vtex_uuid
             /\ error_log w' = error_log w ++ [line vtex_uuid e0])
    /\ forall e, r = Raise e ->
         Catalog.vtex_app (up_catalog self) = None
         /\ e = AttributeError "'NoneType' object has no attribute 'uuid'"
         /\ error_log w' = error_log w
         \/ (exists vtex_uuid e0,
               Catalog.vtex_app (up_catalog self) = Some vtex_uuid
               /\ e = UnboundLocalError "products_ids"
               /\ error_log w' = error_log w ++ [line vtex_uuid e0]
               /\ (db_fault env (fetches w) = Some e0 /\ table w' = table w
                   \/ exists msg ps ids,
                        db_fault env (fetches w) = None
                        /\ reload_fault env (fetches w) = Some msg
                        /\ e0 = ExternalError msg
                        /\ __next__ (product_manager self) (table w)
                           = (Ok (ps, ids), table w')))
         \/ (exists vtex_uuid e0,
               Catalog.vtex_app (up_catalog self) = Some vtex_uuid
               /\ fault env (HandlerMark (Nat.pred (fetches w'))) = Some e
               /\ error_log w' = error_log w ++ [line vtex_uuid e0]).
Proof.
  intros line.
  destruct (process_and_upload_terminates env self w) as [[r w'] E].
  exists r, w'. split; [exact E|].
  unfold process_and_upload, process_and_upload_fuel in E.
  destruct (for_loop _ env self None w) as [[[r0 ids] w0]|] eqn:El;
    [|discriminate].
  pose proof (for_loop_counts _ _ _ _ _ _ _ _ El) as (He & _).
  destruct r0 as [[]|e0].
  { injection E as <- <-. split; [auto | discriminate]. }
  injection E as E. rewrite handler_run in E. cbv zeta in E.
  destruct (Catalog.vtex_app (up_catalog self)) as [u|].
  2:{ injection E as <- <-. split; [discriminate|].
      intros e [= <-]. left. auto. }
  destruct ids as [ids|].
  2:{ injection E as <- <-. split; [discriminate|].
      intros e [= <-]. right; left.
      apply for_loop_bound in El as (_ & Hwhy).
      exists u, e0. cbn [error_log table]. rewrite He.
      repeat apply conj; auto. }
  destruct (fault env (HandlerMark (Nat.pred (fetches w0)))) as [e'|] eqn:Ef;
    injection E as <- <-.
  - split; [discriminate|]. intros e [= <-]. right; right.
    exists u, e0. cbn [error_log fetches]. rewrite He. auto.
  - split; [|discriminate]. intros _. right. exists u, e0.
    cbn [error_log set_table]. rewrite He. auto.
Qed.

(** The first batch is claimed, then the database fails while the rows are
    read back: the handler logs the failure and reads [products_ids],
    which is not bound; the rows stay [processing]. *)
Example upload_first_reload_fails :
  process_and_upload
    {| send_to_meta := fun _ _ => true;
       db_fault := fun _ => None;
       reload_fault := fun _ => Some "connection lost";
       fault := fun _ => None |}
    (Samples.uploader 1) (Samples.upload_world [Samples.p1; Samples.p2])
  = Some (Raise (UnboundLocalError "products_ids"),
          mkWorld [UploadProduct.set_status processing Samples.p1; Samples.p2]
            [] 0 ["Error on 'process_and_upload' v1: connection lost"] 1).
Proof. vm_compute. reflexivity. Qed.

Lemma pending_products_none self db :
  0 < batch_size self -> pending_products self db = [] ->
  pending_count self db = 0.
Proof.
  intros Hb H. pose proof (pending_products_length self db) as Hl.
  rewrite H in Hl. cbn [length] in Hl. unfold pending_count. lia.
Qed.

(** X6: a run without failure drains the queue.  When the batch size is
    positive, the iterator is not cut short, the method returns normally
    and nothing was written to the error log, no row of the catalog is
    [pending] any more, and the lock has been renewed once for every
    batch: once less than there were queries. *)
Theorem process_and_upload_drains
    (env : Env) (self : ProductUploader) (w w' : World) :
  0 < batch_size (product_manager self) ->
  (forall n, db_fault env n <> Some StopIteration) ->
  process_and_upload env self w = Some (Ok tt, w') ->
  error_log w' = error_log w ->
  pending_count (product_manager self) (table w') = 0
  /\ fetches w' - fetches w = S (lock_renewals w' - lock_renewals w).
Proof.
  intros Hb Hdb H Hlog.
  unfold process_and_upload, process_and_upload_fuel in H.
  destruct (for_loop _ env self None w) as [[[r0 ids] w0]|] eqn:El;
    [|discriminate].
  apply for_loop_counts in El as (He & Hf & _ & _ & Hl & Hok).
  destruct r0 as [[]|e].
  - injection H as <-. destruct (Hok eq_refl Hdb) as [Hnone Hcount].
    split; [apply pending_products_none; assumption | lia].
  - injection H as H. apply handler_inv in H as (_ & _ & _ & Hlen).
    specialize (Hlen eq_refl). rewrite Hlog, <- He in Hlen. lia.
Qed.

Lemma process_and_upload_drains_witness :
  let w := Samples.upload_world [Samples.p2; Samples.p1] in
  exists w',
    process_and_upload Samples.uploads_refused (Samples.uploader 1) w
    = Some (Ok tt, w')
    /\ pending_count (Samples.fetcher 1) (table w') = 0
    /\ fetches w' - fetches w = S (lock_renewals w' - lock_renewals w).
Proof.
  intros w. eexists. split; [vm_compute; reflexivity|].
  refine (process_and_upload_drains
            Samples.uploads_refused (Samples.uploader 1) w _ _ _ _ _).
  - cbn. lia.
  - intros n. discriminate.
  - vm_compute. reflexivity.
  - reflexivity.
Defined.

(** X7: how much a run does.  Whatever happens in it, a run queries the
    table at least once and at most once more than there were pending
    rows of the catalog, renews the lock fewer times than it queries, and
    leaves no more rows pending than it found. *)
Theorem process_and_upload_bounded
    (env : Env) (self : ProductUploader) (w : World)
    (r : result unit) (w' : World) :
  process_and_upload env self w = Some (r, w') ->
  fetches w < fetches w'
  /\ fetches w'
     <= S (fetches w + pending_count (product_manager self) (table w))
  /\ lock_renewals w <= lock_renewals w'
  /\ lock_renewals w' - lock_renewals w < fetches w' - fetches w
  /\ pending_count (product_manager self) (table w')
     <= pending_count (product_manager self) (table w).
Proof.
  intros H. unfold process_and_upload, process_and_upload_fuel in H.
  destruct (for_loop _ env self None w) as [[[r0 ids] w0]|] eqn:El;
    [|discriminate].
  apply for_loop_counts in El as (_ & Hf & Hp & Hl & Hl' & _).
  assert (Hw : fetches w' = fetches w0 /\ lock_renewals w' = lock_renewals w0
               /\ pending_count (product_manager self) (table w')
                  <= pending_count (product_manager self) (table w0)).
  { destruct r0 as [[]|e].
    - injection H as _ <-. auto.
    - injection H as H. apply handler_inv in H as (? & ? & ? & _). auto. }
  destruct Hw as (-> & -> & Hp'). lia.
Qed.

Lemma process_and_upload_bounded_witness :
  let w := Samples.upload_world [Samples.p2; Samples.bad; Samples.p1] in
  exists r w',
    process_and_upload (Samples.db_down_at 1) (Samples.uploader 2) w
    = Some (r, w')
    /\ fetches w < fetches w'
    /\ fetches w' <= S (fetches w + pending_count (Samples.fetcher 2) (table w)).
Proof.
  intros w. eexists _, _. split; [vm_compute; reflexivity|].
  refine ((fun H => conj (proj1 H) (proj1 (proj2 H)))
            (process_and_upload_bounded
               (Samples.db_down_at 1) (Samples.uploader 2) w _ _ _)).
  vm_compute. reflexivity.
Defined.

(** X8: what [log_sent_products] writes.  The identifiers are gone
    through in order; each one whose SKU [extract_sku_id] returns and
    whose row can be created gets one row, with that SKU and the VTEX app
    of the catalog.  At the first identifier for which [extract_sku_id]
    raises, or whose row cannot be created, the method raises that
    exception: the rows already written stay, and neither this
    identifier nor those behind it are logged.  When there is no such
    identifier the method returns normally. *)
Theorem log_sent_products_spec
    (env : Env) (self : ProductUploader) (batch row : nat)
    (logged rest : list (list N)) (r : result unit) (w : World) :
  (forall k i, logged !! k = Some i ->
     (exists n, Sku.extract_sku_id i = Ok n)
     /\ fault env (CreateLog batch (row + k)) = None) ->
  match rest with
  | [] => r = Ok tt
  | stop :: _ =>
      exists e, r = Raise e
        /\ (Sku.extract_sku_id stop = Raise e
            \/ (exists n, Sku.extract_sku_id stop = Ok n)
               /\ fault env (CreateLog batch (row + length logged)) = Some e)
  end ->
  log_sent_products env self batch row (logged ++ rest) w
  = (r,
     mkWorld (table w)
       (upload_log w
        ++ map (fun i => ProductUploadLog.mk (sku_of i)
                           (Catalog.vtex_app (up_catalog self))) logged)
       (lock_renewals w) (error_log w) (fetches w)).
Proof.
  revert row w. induction logged as [|i good IH]; intros row w Hgood Hstop.
  - cbn [app map length] in *. rewrite app_nil_r. rewrite Nat.add_0_r in Hstop.
    destruct rest as [|stop rest].
    + subst r. destruct w. reflexivity.
    + destruct Hstop as (e & -> & [Hx | [[n Hn] Hf]]);
        cbn [log_sent_products]; unfold bind at 1, lift.
      * rewrite Hx. destruct w. reflexivity.
      * rewrite Hn. unfold bind at 1, guard. rewrite Hf. destruct w.
        reflexivity.
  - destruct (Hgood 0 i eq_refl) as [[n Hn] Hf]. rewrite Nat.add_0_r in Hf.
    rewrite <- app_comm_cons. cbn [log_sent_products].
    unfold bind at 1, lift. cbn [map]. unfold sku_of at 1.
    rewrite Hn. unfold bind at 1, guard. rewrite Hf.
    unfold bind at 1, modify, ret. rewrite (IH (S row)).
    + cbn [table upload_log lock_renewals error_log fetches].
      rewrite <- app_assoc. reflexivity.
    + intros k j Hk. rewrite Nat.add_succ_comm. apply (Hgood (S k) j Hk).
    + cbn [length] in Hstop. rewrite <- Nat.add_succ_comm in Hstop.
      exact Hstop.
Qed.

Lemma log_sent_products_spec_witness :
  log_sent_products Samples.uploads_ok (Samples.uploader 1) 0 0
    ([Feed.literal "55#7"; [1638; 35; 55]%N]
       ++ [Feed.literal "abc#7"; Feed.literal "57#7"])
    (Samples.upload_world [])
  = (Raise (ValueError "Invalid SKU ID, error: abc is not a number"),
     mkWorld [] [ProductUploadLog.mk 55 (Some "v1");
                 ProductUploadLog.mk 6 (Some "v1")] 0 [] 0).
Proof.
  refine (log_sent_products_spec Samples.uploads_ok (Samples.uploader 1) 0 0
            [Feed.literal "55#7"; [1638; 35; 55]%N]
            [Feed.literal "abc#7"; Feed.literal "57#7"] _
            (Samples.upload_world []) _ _).
  - intros [|[|k]] i [= <-]; (split; [eexists; vm_compute|]; reflexivity).
  - eexists. split; [reflexivity|]. left. vm_compute. reflexivity.
Defined.

End UploadMore.

(** ** Catalog reconciliation, continued *)

Section ReconcileMore.
Import Reconcile Vocabulary Terms.

Lemma filter_app_nil {A} (P : A -> Prop) `{!forall x, Decision (P x)}
    (l new : list A) :
  Forall (fun x => ~ P x) new -> filter P (l ++ new) = filter P l.
Proof.
  intros Hnew. rewrite filter_app.
  assert (E : filter P new = []).
  { induction Hnew as [|x new Hx _ IH]; [reflexivity|].
    rewrite filter_cons, decide_False by exact Hx. exact IH. }
  rewrite E, app_nil_r. reflexivity.
Qed.

Lemma filter_filter_weaker {A} (P Q : A -> Prop)
    `{!forall x, Decision (P x)} `{!forall x, Decision (Q x)} (l : list A) :
  (forall x, P x -> Q x) -> filter P (filter Q l) = filter P l.
Proof.
  intros Himp. induction l as [|x l IH]; [reflexivity|].
  rewrite (filter_cons Q). destruct (decide (Q x)) as [Hq|Hq].
  - rewrite !filter_cons. destruct (decide (P x)); rewrite IH; reflexivity.
  - rewrite IH, filter_cons, decide_False; [reflexivity|].
    intros Hp. apply Hq, Himp, Hp.
Qed.

Lemma delete_none (app : App.t) (del : gset string) (l : list Catalog.t) :
  del = ∅ ->
  l = filter (fun c => ~ (Catalog.app c = App.uuid app
                          /\ Catalog.facebook_catalog_id c ∈ del)) l.
Proof.
  intros ->. symmetry. apply filter_all. intros c _ [_ H]. set_solver.
Qed.

(** What [create_catalog_task] does to the table: nothing, or one row at
    the end. *)
Lemma create_catalog_task_rows env app d w :
  exists r w',
    create_catalog_task env app d w = (Ok r, w')
    /\ (catalogs w' = catalogs w
        \/ exists c, catalogs w' = catalogs w ++ [c] /\ created_for app c
                     /\ d !! "id" = Some (Catalog.facebook_catalog_id c)).
Proof.
  unfold create_catalog_task, handle_exceptions, try_except, bind, lift, ret,
    raise, logger, modify, getitem, get_extra_info.
  destruct (d !! "id") as [i|]; [|eexists _, _; split; [reflexivity | auto]].
  destruct (d !! "name") as [n|]; [|eexists _, _; split; [reflexivity | auto]].
  destruct (d !! "vertical") as [v|];
    [|eexists _, _; split; [reflexivity | auto]].
  destruct (create_fault env app d);
    eexists _, _; (split; [reflexivity|]); [left; reflexivity|].
  right. eexists. split; [reflexivity|]. split; [split|]; reflexivity.
Qed.

Lemma create_catalog_task_ok env app d i n v w :
  d !! "id" = Some i -> d !! "name" = Some n -> d !! "vertical" = Some v ->
  create_fault env app d = None ->
  create_catalog_task env app d w
  = (Ok (Some tt),
     mkWorld (catalogs w ++
                [Catalog.mk (new_uuid env (length (catalogs w))) (App.uuid app)
                   i n v None None])
       (flows_calls w) (log w)).
Proof.
  intros Hi Hn Hv Hf.
  unfold create_catalog_task, handle_exceptions, try_except, bind, lift, ret,
    raise, logger, modify, getitem, get_extra_info.
  rewrite Hi, Hn, Hv, Hf. reflexivity.
Qed.

Lemma get_catalog_details_task_rows env app catalog_id w :
  catalogs (snd (get_catalog_details_task env app catalog_id w)) = catalogs w.
Proof.
  destruct (get_catalog_details env app catalog_id) as [d|e] eqn:E.
  - rewrite (details_task_ok _ _ _ _ _ E). reflexivity.
  - rewrite (details_task_raise _ _ _ _ _ E).
    destruct (client_uuid env app); reflexivity.
Qed.

Lemma create_missing_rows env app to_create w :
  exists new,
    catalogs (snd (create_missing env app to_create w)) = catalogs w ++ new
    /\ Forall (created_for app) new.
Proof.
  revert w. induction to_create as [|catalog_id rest IH]; intros w.
  - exists []. rewrite app_nil_r. split; [reflexivity | constructor].
  - cbn [create_missing]. unfold bind at 1.
    pose proof (get_catalog_details_task_rows env app catalog_id w) as Hd.
    destruct (get_catalog_details_task env app catalog_id w)
      as [[details|e] w1]; cbn [snd] in Hd.
    2:{ exists []. rewrite app_nil_r. split; [exact Hd | constructor]. }
    assert (Hc : exists r w2,
               match details with
               | Some d => if bool_decide (d = ∅) then ret None
                           else create_catalog_task env app d
               | None => ret None
               end w1 = (Ok r, w2)
               /\ exists new, catalogs w2 = catalogs w ++ new
                              /\ Forall (created_for app) new).
    { destruct details as [d|].
      - destruct (bool_decide (d = ∅)).
        + eexists _, _. split; [reflexivity|]. exists []. rewrite app_nil_r.
          split; [exact Hd | constructor].
        + destruct (create_catalog_task_rows env app d w1)
            as (r & w2 & E & [H | (c & H & Hc & _)]).
          * exists r, w2. split; [exact E|]. exists []. rewrite app_nil_r.
            split; [congruence | constructor].
          * exists r, w2. split; [exact E|]. exists [c].
            split; [congruence | repeat constructor; apply Hc].
      - eexists _, _. split; [reflexivity|]. exists []. rewrite app_nil_r.
        split; [exact Hd | constructor]. }
    destruct Hc as (r & w2 & E & new1 & Hw2 & Hnew1).
    unfold bind at 1. rewrite E. destruct (IH w2) as (new2 & Hw3 & Hnew2).
    exists (new1 ++ new2). rewrite Hw3, Hw2, app_assoc.
    split; [reflexivity | apply Forall_app; auto].
Qed.

Lemma delete_catalogs_task_rows env app to_delete w :
  exists del : gset string,
    catalogs (snd (delete_catalogs_task env app to_delete w))
    = filter (fun c => ~ (Catalog.app c = App.uuid app
                          /\ Catalog.facebook_catalog_id c ∈ del))
        (catalogs w)
    /\ del ⊆ to_delete
    /\ (delete_fault env app to_delete = None -> del = to_delete).
Proof.
  unfold delete_catalogs_task, handle_exceptions, try_except, bind, lift, ret,
    raise, logger, modify, get_extra_info.
  destruct (delete_fault env app to_delete) as [e|].
  - exists ∅. cbn [snd catalogs]. split; [|split; [set_solver | discriminate]].
    apply delete_none. reflexivity.
  - exists to_delete. cbn [snd catalogs]. auto.
Qed.

(** The table after [sync_app]: new rows of the connection at the end,
    and rows of the connection taken out that Facebook does not list. *)
Lemma reconcile_rows env app local ids cats w :
  exists new (del : gset string),
    catalogs (snd (reconcile env app local ids cats w))
    = filter (fun c => ~ (Catalog.app c = App.uuid app
                          /\ Catalog.facebook_catalog_id c ∈ del))
        (catalogs w ++ new)
    /\ Forall (created_for app) new
    /\ del ⊆ local ∖ list_to_set ids.
Proof.
  unfold reconcile.
  destruct (update_catalogs_on_flows_task_spec env app cats w)
    as (r & w1 & E & Hc1 & _).
  unfold bind at 1. rewrite E. cbv beta zeta.
  set (to_create := elements _).
  destruct (create_missing_rows env app to_create w1) as (new & Hc2 & Hnew).
  rewrite Hc1 in Hc2.
  pose proof (fun l => delete_none app ∅ l eq_refl) as Hid.
  unfold bind at 1.
  destruct (create_missing env app to_create w1) as [[[]|e] w2];
    cbn [snd] in Hc2.
  2:{ exists new, ∅. cbn [snd]. rewrite Hc2.
      split; [apply Hid | split; [exact Hnew | set_solver]]. }
  destruct (bool_decide _).
  { exists new, ∅. unfold ret. cbn [snd]. rewrite Hc2.
    split; [apply Hid | split; [exact Hnew | set_solver]]. }
  destruct (delete_catalogs_task_rows env app (local ∖ list_to_set ids) w2)
    as (del & Hc3 & Hdel & _).
  unfold bind at 1.
  destruct (delete_catalogs_task env app (local ∖ list_to_set ids) w2)
    as [[r3|e3] w3]; unfold ret; cbn [snd] in *;
    exists new, del; rewrite Hc3, Hc2; auto.
Qed.

Lemma sync_app_rows env app w :
  exists new (del : gset string),
    catalogs (snd (sync_app env app w))
    = filter (fun c => ~ (Catalog.app c = App.uuid app
                          /\ Catalog.facebook_catalog_id c ∈ del))
        (catalogs w ++ new)
    /\ Forall (created_for app) new
    /\ forall ids cats, list_all_catalogs env app = Ok (ids, cats) ->
                        del ## list_to_set ids.
Proof.
  pose proof (fun l => delete_none app ∅ l eq_refl) as Hid.
  destruct (both_identities app) eqn:Hb.
  - destruct (sync_app_unfold env app w Hb) as (p & w1 & _ & Hc & _ & Hm & ->).
    destruct (fst p) as [|i ids0] eqn:Ep.
    + exists [], ∅. cbn [snd]. rewrite Hc, app_nil_r.
      split; [apply Hid | split; [constructor | set_solver]].
    + destruct (reconcile_rows env app (list_to_set (local_catalogs app w))
                  (i :: ids0) (snd p) w1) as (new & del & Hr & Hnew & Hdel).
      exists new, del. rewrite Hr, Hc. split; [reflexivity|].
      split; [exact Hnew|]. intros ids cats Hl. rewrite Hl in Hm.
      destruct Hm as [Hp _]. rewrite Hp in Ep. cbn [fst] in Ep.
      rewrite Ep. intros x Hx Hx'. apply Hdel in Hx.
      apply elem_of_difference in Hx as [_ Hx]. contradiction.
  - rewrite sync_app_skip by assumption. exists [], ∅. cbn [snd].
    rewrite app_nil_r.
    split; [apply Hid | split; [constructor | set_solver]].
Qed.

(** X9: the reach of [sync_app].  Whatever the remote services answer,
    reconciling one connection leaves the rows of every other connection
    as they are and in their order, and every row that it adds belongs to
    the connection and is linked to no VTEX app. *)
Theorem sync_app_reach (env : Env) (app : App.t) (w : World) :
  foreign_rows app (snd (sync_app env app w)) = foreign_rows app w
  /\ forall c, c ∈ catalogs (snd (sync_app env app w)) ->
               c ∈ catalogs w \/ created_for app c.
Proof.
  destruct (sync_app_rows env app w) as (new & del & Hr & Hnew & _).
  unfold foreign_rows. rewrite Hr. split.
  - rewrite filter_filter_weaker by (intros c Hc [Hc' _]; contradiction).
    apply filter_app_nil. eapply Forall_impl; [exact Hnew|].
    intros c [Hc _] Hc'. contradiction.
  - intros c Hc. apply list_elem_of_filter in Hc as [_ Hc].
    apply elem_of_app in Hc as [Hc | Hc]; [left; exact Hc|].
    right. rewrite Forall_forall in Hnew. apply Hnew. exact Hc.
Qed.

(** X10: [sync_app] deletes no catalog that Facebook lists.  When the
    listing is answered, every local row whose identifier is in it is
    still there afterwards, whatever else fails. *)
Theorem sync_app_keeps_listed
    (env : Env) (app : App.t) (w : World)
    (ids : list string) (cats : list (gmap string string)) (c : Catalog.t) :
  list_all_catalogs env app = Ok (ids, cats) ->
  c ∈ catalogs w -> Catalog.facebook_catalog_id c ∈ ids ->
  c ∈ catalogs (snd (sync_app env app w)).
Proof.
  intros Hl Hc Hid.
  destruct (sync_app_rows env app w) as (new & del & Hr & _ & Hdel).
  rewrite Hr. apply list_elem_of_filter. split.
  - intros [_ Hin]. specialize (Hdel ids cats Hl). set_solver.
  - apply elem_of_app. left. exact Hc.
Qed.

Lemma sync_app_keeps_listed_witness :
  Samples.catalog None
  ∈ catalogs (snd (sync_app Samples.details_down Samples.wpp_cloud
                     Samples.stale_catalog)).
Proof.
  refine (sync_app_keeps_listed Samples.details_down Samples.wpp_cloud
            Samples.stale_catalog ["101"] [Samples.entry "101" "Store"]
            _ _ _ _).
  - reflexivity.
  - apply list_elem_of_singleton. reflexivity.
  - apply list_elem_of_singleton. reflexivity.
Defined.

(** *** Convergence *)

Lemma create_missing_complete env app to_create w :
  details_complete env app to_create ->
  (forall d, create_fault env app d = None) ->
  exists new w',
    create_missing env app to_create w = (Ok tt, w')
    /\ catalogs w' = catalogs w ++ new
    /\ map Catalog.facebook_catalog_id new = to_create
    /\ Forall (fun c => Catalog.app c = App.uuid app) new.
Proof.
  intros Hd Hf. revert w.
  induction to_create as [|catalog_id rest IH]; intros w.
  - exists [], w. rewrite app_nil_r. repeat split. constructor.
  - destruct (Hd catalog_id) as (d & n & v & Ed & Hi & Hn & Hv); [left|].
    cbn [create_missing]. unfold bind at 1.
    rewrite (details_task_ok _ _ _ _ _ Ed).
    rewrite bool_decide_eq_false_2
      by (intros ->; rewrite lookup_empty in Hi; discriminate).
    unfold bind at 1.
    rewrite (create_catalog_task_ok env app d catalog_id n v w Hi Hn Hv (Hf d)).
    destruct (IH (fun c Hc => Hd c (list_elem_of_further _ _ _ Hc))
                (mkWorld (catalogs w ++
                   [Catalog.mk (new_uuid env (length (catalogs w)))
                      (App.uuid app) catalog_id n v None None])
                   (flows_calls w) (log w)))
      as (new & w' & E & Hc & Hids & Happ).
    exists (Catalog.mk (new_uuid env (length (catalogs w))) (App.uuid app)
              catalog_id n v None None :: new), w'.
    split; [exact E|]. cbn [catalogs] in Hc. rewrite Hc, <- app_assoc.
    split; [reflexivity|]. cbn [map Catalog.facebook_catalog_id].
    rewrite Hids. split; [reflexivity|]. constructor; [reflexivity | exact Happ].
Qed.

Lemma local_ids_elem app w x :
  x ∈ local_ids app w
  <-> exists c, c ∈ catalogs w /\ Catalog.app c = App.uuid app
                /\ Catalog.facebook_catalog_id c = x.
Proof.
  unfold local_ids, local_catalogs. rewrite elem_of_list_to_set.
  rewrite list_elem_of_fmap. split.
  - intros (c & -> & Hc). apply list_elem_of_filter in Hc as [Ha Hc]. eauto.
  - intros (c & Hc & Ha & <-). exists c. split; [reflexivity|].
    apply list_elem_of_filter. auto.
Qed.

Lemma reconcile_complete env app ids cats w :
  details_complete env app ids -> db_accepts env app ->
  exists w',
    reconcile env app (local_ids app w) ids cats w = (Ok tt, w')
    /\ local_ids app w' = list_to_set ids.
Proof.
  intros Hd [Hcf Hdf]. unfold reconcile.
  destruct (update_catalogs_on_flows_task_spec env app cats w)
    as (r & w1 & E & Hc1 & _).
  unfold bind at 1. rewrite E. cbv beta zeta.
  set (remote := list_to_set ids : gset string).
  set (local := local_ids app w).
  destruct (create_missing_complete env app (elements (remote ∖ local)) w1)
    as (new & w2 & Ec & Hc2 & Hids & Happ); [|exact Hcf|].
  { intros c Hc. apply Hd. apply elem_of_elements in Hc.
    apply elem_of_difference in Hc as [Hc _].
    apply elem_of_list_to_set in Hc. exact Hc. }
  unfold bind at 1. rewrite Ec. rewrite Hc1 in Hc2.
  assert (Hrows : exists w',
            (if bool_decide (local ∖ remote = ∅) then ret tt
             else (delete_catalogs_task env app (local ∖ remote) ;;;
                   ret tt)%py) w2 = (Ok tt, w')
            /\ catalogs w'
               = filter (fun c => ~ (Catalog.app c = App.uuid app
                            /\ Catalog.facebook_catalog_id c ∈ local ∖ remote))
                   (catalogs w ++ new)).
  { destruct (bool_decide (local ∖ remote = ∅)) eqn:Eb.
    - apply bool_decide_eq_true in Eb. exists w2. split; [reflexivity|].
      rewrite Hc2, Eb. apply delete_none. reflexivity.
    - unfold delete_catalogs_task, handle_exceptions, try_except, bind, lift,
        ret, raise, logger, modify, get_extra_info.
      rewrite Hdf. eexists. split; [reflexivity|]. cbn [catalogs].
      rewrite Hc2. reflexivity. }
  destruct Hrows as (w' & -> & Hrows). exists w'. split; [reflexivity|].
  apply set_eq. intros x. rewrite local_ids_elem, Hrows. split.
  - intros (c & Hc & Ha & <-). apply list_elem_of_filter in Hc as [Hkeep Hc].
    apply elem_of_app in Hc as [Hc | Hc].
    + destruct (decide (Catalog.facebook_catalog_id c ∈ remote)) as [|Hn];
        [assumption|].
      contradiction Hkeep. split; [exact Ha|]. apply elem_of_difference.
      split; [|exact Hn]. apply local_ids_elem. eauto.
    + assert (Hx : Catalog.facebook_catalog_id c ∈ elements (remote ∖ local))
        by (rewrite <- Hids; apply list_elem_of_fmap; eauto).
      apply elem_of_elements, elem_of_difference in Hx as [Hx _]. exact Hx.
  - intros Hx. destruct (decide (x ∈ local)) as [Hl | Hl].
    + apply local_ids_elem in Hl as (c & Hc & Ha & <-). exists c.
      split; [|auto]. apply list_elem_of_filter. split.
      * intros [_ Hdel]. apply elem_of_difference in Hdel as [_ Hdel].
        contradiction.
      * apply elem_of_app. left. exact Hc.
    + assert (Hin : x ∈ map Catalog.facebook_catalog_id new).
      { rewrite Hids. apply elem_of_elements, elem_of_difference. auto. }
      apply list_elem_of_fmap in Hin as (c & -> & Hc). exists c.
      rewrite Forall_forall in Happ. split; [|auto].
      apply list_elem_of_filter. split.
      * intros [_ Hdel]. apply elem_of_difference in Hdel as [_ Hdel].
        contradiction.
      * apply elem_of_app. right. exact Hc.
Qed.

(** X11: one pass brings a connection in line with Facebook.  When the
    connection has both identities, the listing is answered and is not
    empty, every catalog listed is described in full under its own
    identifier and the database takes the writes, [sync_app] returns
    normally and the connection then has locally exactly the catalogs of
    the listing. *)
Theorem sync_app_converges
    (env : Env) (app : App.t) (w : World)
    (ids : list string) (cats : list (gmap string string)) :
  both_identities app = true ->
  list_all_catalogs env app = Ok (ids, cats) -> ids <> [] ->
  details_complete env app ids -> db_accepts env app ->
  exists w',
    sync_app env app w = (Ok tt, w')
    /\ local_ids app w' = list_to_set ids.
Proof.
  intros Hb Hl Hne Hd Hdb.
  destruct (sync_app_unfold env app w Hb) as (p & w1 & _ & _ & _ & Hm & ->).
  rewrite Hl in Hm. destruct Hm as [-> ->]. cbn [fst snd].
  destruct ids as [|i ids]; [contradiction|].
  apply (reconcile_complete env app (i :: ids) cats w Hd Hdb).
Qed.

Lemma sync_app_converges_witness :
  exists w',
    sync_app Samples.healthy Samples.wpp_cloud2 Samples.stale_catalog
    = (Ok tt, w')
    /\ local_ids Samples.wpp_cloud2 w' = list_to_set ["202"].
Proof.
  refine (sync_app_converges Samples.healthy Samples.wpp_cloud2
            Samples.stale_catalog ["202"] [Samples.entry "202" "Shop"]
            _ _ _ _ _).
  - reflexivity.
  - reflexivity.
  - discriminate.
  - intros c _. eexists _, "Store", "commerce". repeat split.
  - split; reflexivity.
Defined.

(** X12: a connection that is in line is left alone.  When the catalogs
    that the connection has locally are those of the listing, [sync_app]
    returns normally and writes no [Catalog] row, whatever the other
    services would answer. *)
Theorem sync_app_settled
    (env : Env) (app : App.t) (w : World)
    (ids : list string) (cats : list (gmap string string)) :
  list_all_catalogs env app = Ok (ids, cats) ->
  local_ids app w = list_to_set ids ->
  exists w', sync_app env app w = (Ok tt, w') /\ catalogs w' = catalogs w.
Proof.
  intros Hl Hsame. destruct (both_identities app) eqn:Hb.
  2:{ rewrite sync_app_skip by assumption. eauto. }
  destruct (sync_app_unfold env app w Hb) as (p & w1 & _ & _ & _ & Hm & ->).
  rewrite Hl in Hm. destruct Hm as [-> ->]. cbn [fst snd].
  destruct ids as [|i ids]; [eauto|].
  unfold reconcile. fold (local_ids app w). rewrite Hsame.
  destruct (update_catalogs_on_flows_task_spec env app cats w)
    as (r & w1 & E & Hc1 & _).
  unfold bind at 1. rewrite E. cbv beta zeta.
  rewrite difference_diag_L, elements_empty. cbn [create_missing].
  unfold bind, ret. rewrite bool_decide_eq_true_2 by reflexivity. eauto.
Qed.

Lemma sync_app_settled_witness :
  exists w',
    sync_app Samples.details_down Samples.wpp_cloud Samples.stale_catalog
    = (Ok tt, w')
    /\ catalogs w' = catalogs Samples.stale_catalog.
Proof.
  refine (sync_app_settled Samples.details_down Samples.wpp_cloud
            Samples.stale_catalog ["101"] [Samples.entry "101" "Store"] _ _).
  - reflexivity.
  - apply set_eq. intros x. rewrite local_ids_elem.
    rewrite elem_of_list_to_set, list_elem_of_singleton. split.
    + intros (c & Hc & _ & <-). apply list_elem_of_singleton in Hc. subst c.
      reflexivity.
    + intros ->. exists (Samples.catalog None).
      split; [apply list_elem_of_singleton; reflexivity | split; reflexivity].
Defined.

(** *** The whole pass *)

Lemma sync_app_local_other env a b w :
  App.uuid a <> App.uuid b ->
  local_catalogs b (snd (sync_app env a w)) = local_catalogs b w.
Proof.
  intros Hab. destruct (sync_app_rows env a w) as (new & del & Hr & Hnew & _).
  unfold local_catalogs. rewrite Hr. f_equal.
  rewrite filter_filter_weaker by (intros c Hc [Hc' _]; congruence).
  apply filter_app_nil. eapply Forall_impl; [exact Hnew|].
  intros c [Hc _] Hc'. congruence.
Qed.

Lemma for_apps_local_other env apps b w :
  (forall a, a ∈ apps -> App.uuid a <> App.uuid b) ->
  local_catalogs b (snd (for_apps env apps w)) = local_catalogs b w.
Proof.
  revert w. induction apps as [|a rest IH]; intros w Hne; [reflexivity|].
  cbn [for_apps]. unfold bind.
  pose proof (sync_app_local_other env a b w (Hne a ltac:(left))) as Ha.
  destruct (sync_app env a w) as [[[]|e] w1]; cbn [snd] in *; [|exact Ha].
  rewrite IH by (intros a' Ha'; apply Hne; right; exact Ha'). exact Ha.
Qed.

Lemma for_apps_converges env apps w :
  NoDup (map App.uuid apps) ->
  (forall app, app ∈ apps -> both_identities app = true -> served env app) ->
  exists w',
    for_apps env apps w = (Ok tt, w')
    /\ forall app ids cats,
         app ∈ apps -> both_identities app = true ->
         list_all_catalogs env app = Ok (ids, cats) ->
         local_ids app w' = list_to_set ids.
Proof.
  revert w. induction apps as [|a rest IH]; intros w Hnd Hserved.
  - exists w. split; [reflexivity|]. intros app ids cats Hin.
    inversion Hin.
  - cbn [map] in Hnd. apply NoDup_cons in Hnd as [Hfresh Hnd].
    assert (Ha : exists w1,
              sync_app env a w = (Ok tt, w1)
              /\ forall ids cats, both_identities a = true ->
                   list_all_catalogs env a = Ok (ids, cats) ->
                   local_ids a w1 = list_to_set ids).
    { destruct (both_identities a) eqn:Hb.
      - destruct (Hserved a ltac:(left) Hb) as (ids & cats & Hl & Hne & Hd & Hdb).
        destruct (sync_app_unfold env a w Hb)
          as (p & w1 & _ & _ & _ & Hm & E).
        rewrite Hl in Hm. destruct Hm as [-> ->]. cbn [fst snd] in E.
        destruct ids as [|i ids]; [contradiction|].
        destruct (reconcile_complete env a (i :: ids) cats w Hd Hdb)
          as (w1 & E1 & Hw1).
        exists w1. split; [rewrite E; exact E1|].
        intros ids' cats' _ Hl'. rewrite Hl in Hl'. injection Hl' as <- <-.
        exact Hw1.
      - rewrite sync_app_skip by assumption. exists w.
        split; [reflexivity | discriminate]. }
    destruct Ha as (w1 & Ea & Hwa).
    destruct (IH w1 Hnd) as (w' & Er & Hw').
    { intros app Hin. apply Hserved. right. exact Hin. }
    exists w'. cbn [for_apps]. unfold bind. rewrite Ea.
    split; [exact Er|].
    intros app ids cats Hin Hb Hl. apply elem_of_cons in Hin as [-> | Hin].
    + rewrite <- (Hwa ids cats Hb Hl). unfold local_ids. f_equal.
      rewrite <- (for_apps_local_other env rest a w1); [rewrite Er; reflexivity|].
      intros a' Ha' Heq. apply Hfresh. rewrite <- Heq.
      apply list_elem_of_fmap. eauto.
    + apply (Hw' app ids cats Hin Hb Hl).
Qed.

(** X13: one pass of [sync_facebook_catalogs] brings every connection in
    line.  When the lock is free, the connections have distinct keys and
    each connection with both identities is served, the task returns
    normally and afterwards every such connection has locally exactly
    the catalogs of its listing: reconciling a later connection does not
    undo an earlier one. *)
Theorem sync_facebook_catalogs_converges (env : Env) (w : World) :
  lock_held env = false ->
  NoDup (map App.uuid (apps env)) ->
  (forall app, app ∈ apps env -> both_identities app = true ->
               served env app) ->
  exists w',
    sync_facebook_catalogs env w = (Ok tt, w')
    /\ forall app ids cats,
         app ∈ apps env -> both_identities app = true ->
         list_all_catalogs env app = Ok (ids, cats) ->
         local_ids app w' = list_to_set ids.
Proof.
  intros Hlock Hnd Hserved. unfold sync_facebook_catalogs. rewrite Hlock.
  apply for_apps_converges; assumption.
Qed.

Lemma sync_facebook_catalogs_converges_witness :
  exists w',
    sync_facebook_catalogs Samples.healthy Samples.stale_catalog = (Ok tt, w')
    /\ forall app ids cats,
         app ∈ apps Samples.healthy -> both_identities app = true ->
         list_all_catalogs Samples.healthy app = Ok (ids, cats) ->
         local_ids app w' = list_to_set ids.
Proof.
  refine (sync_facebook_catalogs_converges Samples.healthy
            Samples.stale_catalog _ _ _).
  - reflexivity.
  - apply NoDup_cons. split; [|apply NoDup_singleton].
    intros H. apply list_elem_of_singleton in H. discriminate.
  - intros app Hin _.
    assert (Hl : exists ids cats,
               list_all_catalogs Samples.healthy app = Ok (ids, cats)
               /\ ids <> []).
    { apply elem_of_cons in Hin as [-> | Hin];
        [|apply list_elem_of_singleton in Hin; subst app];
        eexists _, _; (split; [reflexivity | discriminate]). }
    destruct Hl as (ids & cats & Hl & Hne). exists ids, cats.
    split; [exact Hl|]. split; [exact Hne|]. split.
    + intros c _. eexists _, "Store", "commerce". repeat split.
    + split; reflexivity.
Defined.

End ReconcileMore.

(** ** Admission, continued *)

Section AdmissionMore.
Import Admission Admission.CatalogInsertionBySeller Vocabulary Terms.

Lemma linked_catalog_inv vtex_app w credentials catalog w' :
  linked_catalog vtex_app w = (Ok (credentials, catalog), w') ->
  w' = w
  /\ _get_credentials vtex_app = Ok credentials
  /\ catalog ∈ catalogs w
  /\ exists linked,
      linked ∈ catalogs w
      /\ Catalog.vtex_app linked = Some (App.uuid vtex_app)
      /\ Catalog.facebook_catalog_id catalog
         = Catalog.facebook_catalog_id linked.
Proof.
  unfold linked_catalog. intros H.
  apply bind_Ok_inv in H as (u & w1 & Hu & H).
  unfold lift in Hu. injection Hu as Hu <-.
  apply bind_Ok_inv in H as (cr & w1 & Hc & H).
  unfold lift in Hc. injection Hc as Hc <-.
  apply bind_Ok_inv in H as (wpp & w1 & Hw & H).
  unfold _get_wpp_cloud in Hw. destruct (first _) in Hw; [|discriminate].
  injection Hw as <- <-.
  apply bind_Ok_inv in H as (c & w1 & Hv & H).
  unfold ret in H. injection H as <- <- <-.
  unfold _validate_link_apps in Hv.
  destruct (first (filter (fun c => Catalog.vtex_app c = Some _) _))
    as [linked|] eqn:E1; [|discriminate].
  destruct (first (filter (fun c => _ /\ _) _)) as [c'|] eqn:E2;
    [|discriminate].
  injection Hv as <- <-.
  unfold first in E1, E2.
  apply head_Some_elem_of, list_elem_of_filter in E1 as [Hl1 Hl2].
  apply head_Some_elem_of, list_elem_of_filter in E2 as [[_ Hc1] Hc2].
  repeat split; try assumption. eauto.
Qed.

(** The outcome of an admission by seller, read off its checks. *)
Lemma by_seller_outcome
    (vtex_app : option App.t) (sellers : list string) (w : World)
    (r : result unit) (w' : World) :
  start_insertion_by_seller vtex_app sellers w = (r, w') ->
  match r with
  | Raise _ => w' = w
  | Ok _ =>
      exists app credentials catalog linked,
        vtex_app = Some app /\ sellers <> []
        /\ w' = mkWorld (apps w) (catalogs w) (feeds w)
                  (tasks w ++ [by_seller_task credentials catalog sellers])
        /\ _get_credentials app = Ok credentials
        /\ catalog ∈ catalogs w /\ linked ∈ catalogs w
        /\ Catalog.vtex_app linked = Some (App.uuid app)
        /\ Catalog.facebook_catalog_id catalog
           = Catalog.facebook_catalog_id linked
        /\ sync_completed app = true /\ connected app = true
        /\ (legacy_sync app = true -> has_feed catalog w)
  end.
Proof.
  destruct vtex_app as [app|]; [|intros [= <- <-]; reflexivity].
  destruct sellers as [|s0 sellers]; [intros [= <- <-]; reflexivity|].
  destruct (linked_catalog_outcome app w)
    as [(credentials & catalog & Hl) | (e & Hl & _)].
  2:{ unfold start_insertion_by_seller. unfold bind at 1. rewrite Hl.
      intros [= <- <-]. reflexivity. }
  rewrite (start_insertion_by_seller_checked app (s0 :: sellers) w
             credentials catalog ltac:(discriminate) Hl).
  destruct (linked_catalog_inv _ _ _ _ _ Hl)
    as (_ & Hcr & Hc & linked & Hlk & Hv & Hid).
  destruct (sync_completed app) eqn:Hs; cbn [negb];
    [|intros [= <- <-]; reflexivity].
  assert (Hfeed : forall r0 w0,
            (if legacy_sync app then _validate_catalog_feed catalog w
             else (Ok tt, w)) = (r0, w0) ->
            w0 = w /\ (r0 = Ok tt -> legacy_sync app = true ->
                       has_feed catalog w)).
  { intros r0 w0. destruct (legacy_sync app); [|intros [= <- <-]].
    - unfold _validate_catalog_feed.
      destruct (first _) as [f|] eqn:Ef; intros [= <- <-];
        (split; [reflexivity|]); [|discriminate].
      intros _ _. unfold first in Ef.
      apply head_Some_elem_of, list_elem_of_filter in Ef as [Hf1 Hf2].
      exists f. auto.
    - split; [reflexivity | discriminate]. }
  destruct (if legacy_sync app then _ else _) as [[[]|e] w0] eqn:Ef;
    destruct (Hfeed _ _ eq_refl) as [-> Hhas];
    [|intros [= <- <-]; reflexivity].
  destruct (connected app) eqn:Hcn; cbn [negb];
    [|intros [= <- <-]; reflexivity].
  unfold _send_task, send_task, modify. intros [= <- <-].
  exists app, credentials, catalog, linked.
  repeat split; try assumption; try discriminate. auto.
Qed.

(** X14: what a dispatch by seller vouches for.  [start_insertion_by_seller]
    writes no [App], [Catalog] or [ProductFeed] row; when it raises it
    leaves the world as it was, and when it returns it has dispatched
    exactly one job, for a catalog of the database that carries the
    Facebook identifier of a catalog linked to the app, with the sellers
    given, and then the app was given, the sellers were not empty, the
    first synchronisation was completed, the catalog connected and, under
    the legacy method, a feed exists. *)
Theorem start_insertion_by_seller_sound
    (vtex_app : option App.t) (sellers : list string) (w : World)
    (r : result unit) (w' : World) :
  start_insertion_by_seller vtex_app sellers w = (r, w') ->
  match r with
  | Raise _ => w' = w
  | Ok _ =>
      exists app credentials catalog linked,
        vtex_app = Some app /\ sellers <> []
        /\ w' = mkWorld (apps w) (catalogs w) (feeds w)
                  (tasks w ++ [by_seller_task credentials catalog sellers])
        /\ _get_credentials app = Ok credentials
        /\ catalog ∈ catalogs w /\ linked ∈ catalogs w
        /\ Catalog.vtex_app linked = Some (App.uuid app)
        /\ Catalog.facebook_catalog_id catalog
           = Catalog.facebook_catalog_id linked
        /\ sync_completed app = true /\ connected app = true
        /\ (legacy_sync app = true -> has_feed catalog w)
  end.
Proof. apply by_seller_outcome. Qed.

Lemma start_insertion_by_seller_sound_witness :
  let v := Samples.vtex (PBool true) (PBool true) (PBool false) in
  let w := Samples.admission_world v (Some "v1") [Samples.feed] in
  exists w' task,
    start_insertion_by_seller (Some v) ["7"] w = (Ok tt, w')
    /\ tasks w' = tasks w ++ [task].
Proof.
  intros v w.
  assert (H : start_insertion_by_seller (Some v) ["7"] w
              = (Ok tt, snd (start_insertion_by_seller (Some v) ["7"] w)))
    by (vm_compute; reflexivity).
  destruct (start_insertion_by_seller_sound (Some v) ["7"] w _ _ H)
    as (app & cr & c & l & _ & _ & Hw & _).
  eexists _, _. split; [exact H|]. rewrite Hw. reflexivity.
Defined.

End AdmissionMore.

Section FirstInsertionMore.
Import Admission Admission.CatalogProductInsertion Vocabulary Terms.

(** X15: a first insertion dispatches nothing.  Every call of
    [first_product_insert_with_catalog] raises and leaves the database
    and the queue as they were: an app without the identifier of its
    connection, without credentials or without a connection is refused
    by the checks, and every other call ends in the [ImportError] of
    [_get_or_sync_catalog], before a feed is deleted, a flag set, a
    catalog linked or a job sent. *)
Theorem first_insert_stops_at_import
    (env : Env) (vtex_app : App.t) (catalog_id : string)
    (sellers : option (list string)) (w : World) :
  exists e,
    first_product_insert_with_catalog env vtex_app catalog_id sellers w
    = (Raise e, w)
    /\ (forall u credentials wpp,
          _get_wpp_cloud_uuid vtex_app = Ok u ->
          _get_credentials vtex_app = Ok credentials ->
          _get_wpp_cloud u w = (Ok wpp, w) ->
          e = ImportError "FacebookCatalogSyncService"
                "marketplace.wpp_products.tasks").
Proof.
  destruct (first_insert_raises env vtex_app catalog_id sellers w)
    as (e & He & Hwhy).
  exists e. split; [exact He | exact Hwhy].
Qed.

(** X16: the three writes of a first insertion are idempotent one by
    one.  Called again on the app object and the state it has left,
    [_update_app_connected_catalog_flag] writes nothing; called again on
    the catalog object it has linked, [_link_catalog_to_vtex_app_if_needed]
    writes nothing; and [_delete_existing_feeds_ifexists] deletes nothing
    the second time. *)
Theorem first_insert_steps_idempotent
    (env : Env) (app : App.t) (c : Catalog.t) (w : World)
    (app1 : App.t) (w1 w2 : World) :
  _update_app_connected_catalog_flag app w = (Ok app1, w1) ->
  _link_catalog_to_vtex_app_if_needed env c app1 w1 = (Ok tt, w2) ->
  _update_app_connected_catalog_flag app1 w1 = (Ok app1, w1)
  /\ _link_catalog_to_vtex_app_if_needed env
       (match Catalog.vtex_app c with
        | Some _ => c
        | None => linked_to env app1 c
        end) app1 w2
     = (Ok tt, w2)
  /\ _delete_existing_feeds_ifexists c
       (snd (_delete_existing_feeds_ifexists c w))
     = _delete_existing_feeds_ifexists c w.
Proof.
  intros Hflag Hlink. split; [|split].
  - apply update_flag_noop.
    apply update_flag_inv in Hflag as [(-> & _ & Hc) | (-> & _)];
      [exact Hc | apply flagged_connected].
  - apply link_noop. destruct (Catalog.vtex_app c) eqn:E;
      [rewrite E|]; discriminate.
  - unfold _delete_existing_feeds_ifexists, modify.
    cbn [snd apps catalogs feeds tasks].
    rewrite (delete_feeds_twice c c) by reflexivity. reflexivity.
Qed.

Lemma first_insert_steps_idempotent_witness :
  let v := Samples.vtex (PBool false) (PBool false) (PBool true) in
  let c := Samples.catalog None in
  let w := Samples.admission_world v None [Samples.feed] in
  let w1 := snd (_update_app_connected_catalog_flag v w) in
  let w2 := snd (_link_catalog_to_vtex_app_if_needed Samples.no_sync c
                   (flagged v) w1) in
  _update_app_connected_catalog_flag (flagged v) w1 = (Ok (flagged v), w1)
  /\ _link_catalog_to_vtex_app_if_needed Samples.no_sync
       (linked_to Samples.no_sync (flagged v) c) (flagged v) w2
     = (Ok tt, w2).
Proof.
  intros v c w w1 w2.
  destruct (first_insert_steps_idempotent Samples.no_sync v c w (flagged v)
              w1 w2) as (H1 & H2 & _).
  - vm_compute. reflexivity.
  - vm_compute. reflexivity.
  - split; [exact H1 | exact H2].
Defined.

End FirstInsertionMore.

(** ** The VTEX service *)

Section ServiceFacts.
Import Admission Admission.CatalogInsertionBySeller Vocabulary Terms Service.

Lemma synchronized_sellers_run app sellers_id w :
  match start_insertion_by_seller (Some app) sellers_id (db w) with
  | (Ok _, d) =>
      synchronized_sellers (Some app) sellers_id w
      = (Ok true, mkWorld d (error_log w))
  | (Raise e, d) =>
      synchronized_sellers (Some app) sellers_id w
      = (Ok false,
         mkWorld d (error_log w
                    ++ ["Error on synchronized_sellers: " +:+ str_exn e]))
  end.
Proof.
  unfold synchronized_sellers, try_except, bind, on_db, logger_error, modify,
    ret.
  destruct (start_insertion_by_seller (Some app) sellers_id (db w))
    as [[[]|e] d]; reflexivity.
Qed.

(** X17: [synchronized_sellers] turns every failure into [False].  For an
    app that is given, the method never raises; it returns [True] exactly
    when the admission by seller dispatched its job, and then nothing is
    logged; when it returns [False] the database and the queue are as they
    were and one line has been written to the error log. *)
Theorem synchronized_sellers_spec
    (app : App.t) (sellers_id : list string) (w : World) :
  exists success w',
    synchronized_sellers (Some app) sellers_id w = (Ok success, w')
    /\ if success
       then error_log w' = error_log w
            /\ exists credentials catalog,
                db w' = Admission.mkWorld (apps (db w)) (catalogs (db w))
                          (feeds (db w))
                          (tasks (db w)
                           ++ [by_seller_task credentials catalog sellers_id])
       else db w' = db w
            /\ exists line, error_log w' = error_log w ++ [line].
Proof.
  pose proof (synchronized_sellers_run app sellers_id w) as Hrun.
  destruct (start_insertion_by_seller (Some app) sellers_id (db w))
    as [[[]|e] d] eqn:E; apply by_seller_outcome in E.
  - destruct E as (a & cr & c & l & _ & _ & -> & _).
    exists true. eexists. split; [exact Hrun|]. cbn [db error_log]. eauto.
  - subst d. exists false. eexists. split; [exact Hrun|].
    cbn [db error_log]. eauto.
Qed.

(** With no app the handler itself fails, and nothing is logged. *)
Example synchronized_sellers_without_app sellers_id w :
  synchronized_sellers None sellers_id w
  = (Raise (AttributeError "'NoneType' object has no attribute 'uuid'"), w).
Proof. destruct w. reflexivity. Qed.

(** X18: the answer of the view [sync_sellers].  The view never raises;
    it answers 200 without a body when the job has been dispatched, and
    400 with the message of failure when nothing has been dispatched and
    the database is as it was. *)
Theorem sync_sellers_answers
    (app : App.t) (sellers_id : list string) (w : World) :
  exists response w',
    sync_sellers app sellers_id w = (Ok response, w')
    /\ (response = mkResponse PNone HTTP_200_OK
        /\ (exists task, tasks (db w') = tasks (db w) ++ [task])
        \/ response
           = mkResponse
               (PDict [("message", PStr "failure to start synchronization")])
               HTTP_400_BAD_REQUEST
          /\ db w' = db w).
Proof.
  pose proof (synchronized_sellers_run app sellers_id w) as Hrun.
  unfold sync_sellers, bind.
  destruct (start_insertion_by_seller (Some app) sellers_id (db w))
    as [[[]|e] d] eqn:E; apply by_seller_outcome in E; rewrite Hrun;
    cbn [negb]; eexists _, _; (split; [reflexivity|]).
  - left. split; [reflexivity|].
    destruct E as (a & cr & c & l & _ & _ & -> & _). cbn [db tasks]. eauto.
  - right. split; [reflexivity|]. subst d. reflexivity.
Qed.

Lemma configure_config app credentials wpp_cloud_uuid store_domain w app' w' :
  configure app credentials wpp_cloud_uuid store_domain w = (Ok app', w') ->
  App.uuid app' = App.uuid app
  /\ App.config app' !! "api_credentials" = Some (to_dict credentials)
  /\ App.config app' !! "wpp_cloud_uuid" = Some wpp_cloud_uuid
  /\ App.config app' !! "initial_sync_completed" = Some (PBool false)
  /\ App.config app' !! "connected_catalog" = Some (PBool false)
  /\ App.config app' !! "use_sync_v2" = Some (PBool true).
Proof.
  unfold configure, bind, save_app, ret. cbn [App.modified_by].
  destruct (App.modified_by app); [|discriminate].
  intros [= <- _]. cbn [App.uuid App.config].
  repeat split; repeat (rewrite lookup_insert_ne by discriminate);
    rewrite lookup_insert_eq; reflexivity.
Qed.

(** X19: a freshly configured app is not yet admitted by seller.  Whatever
    the app was before, once [configure] has stored it, every call of
    [start_insertion_by_seller] for it raises and dispatches nothing, in
    every state of the database; and [synchronized_sellers] answers
    [False]. *)
Theorem configure_blocks_by_seller
    (app : App.t) (credentials : APICredentials)
    (wpp_cloud_uuid store_domain : pyval) (w : Admission.World)
    (app' : App.t) (w' : Admission.World) :
  configure app credentials wpp_cloud_uuid store_domain w = (Ok app', w') ->
  forall sellers (w0 : World),
    (exists e, start_insertion_by_seller (Some app') sellers (db w0)
               = (Raise e, db w0))
    /\ fst (synchronized_sellers (Some app') sellers w0) = Ok false.
Proof.
  intros Hc sellers w0.
  destruct (configure_config _ _ _ _ _ _ _ Hc) as (_ & _ & _ & Hs & _).
  destruct (start_insertion_by_seller_rejects app' sellers (db w0))
    as (e & He & _).
  { left. unfold sync_completed, get_default. rewrite Hs. reflexivity. }
  split; [eauto|].
  pose proof (synchronized_sellers_run app' sellers w0) as Hrun.
  rewrite He in Hrun. rewrite Hrun. reflexivity.
Qed.

Lemma configure_blocks_by_seller_witness :
  let v := Samples.vtex (PBool true) (PBool true) (PBool true) in
  let w := Samples.admission_world v (Some "v1") [Samples.feed] in
  exists app',
    fst (configure v (mkAPICredentials (PStr "shop.example") (PStr "key")
                        (PStr "token")) (PStr "w1") (PStr "shop.example") w)
    = Ok app'
    /\ fst (synchronized_sellers (Some app') ["7"] (mkWorld w [])) = Ok false.
Proof.
  intros v w.
  destruct (configure v (mkAPICredentials (PStr "shop.example") (PStr "key")
                           (PStr "token")) (PStr "w1") (PStr "shop.example") w)
    as [[app'|e] w'] eqn:E.
  - exists app'. split; [reflexivity|].
    exact (proj2 (configure_blocks_by_seller _ _ _ _ _ _ _ E ["7"]
                    (mkWorld w []))).
  - exfalso. revert E. vm_compute. discriminate.
Defined.

Lemma subscript_to_dict credentials :
  subscript (to_dict credentials) "domain" = Ok (domain credentials)
  /\ subscript (to_dict credentials) "app_key" = Ok (app_key credentials)
  /\ subscript (to_dict credentials) "app_token" = Ok (app_token credentials).
Proof. repeat split. Qed.

(** X20: the credentials survive the round trip through the
    configuration.  From an app stored by [configure],
    [get_vtex_credentials_or_raise] gives back the credentials that were
    configured when none of the three is empty, and raises
    [CredentialsValidationError] otherwise; the admission check
    [_get_credentials], which only looks for the three keys, accepts the
    app in both cases. *)
Theorem configure_credentials_round_trip
    (app : App.t) (credentials : APICredentials)
    (wpp_cloud_uuid store_domain : pyval) (w : Admission.World)
    (app' : App.t) (w' : Admission.World) :
  configure app credentials wpp_cloud_uuid store_domain w = (Ok app', w') ->
  get_vtex_credentials_or_raise app'
  = (if usable credentials then Ok credentials
     else Raise CredentialsValidationError)
  /\ _get_credentials app' = Ok (to_dict credentials).
Proof.
  intros Hc.
  destruct (configure_config _ _ _ _ _ _ _ Hc) as (_ & Hcr & _).
  split.
  - unfold get_vtex_credentials_or_raise. rewrite Hcr.
    destruct (subscript_to_dict credentials) as (-> & -> & ->).
    unfold usable.
    destruct (truthy (domain credentials)), (truthy (app_key credentials)),
      (truthy (app_token credentials)); cbn; try reflexivity.
    destruct credentials; reflexivity.
  - unfold _get_credentials, get_default. rewrite Hcr. reflexivity.
Qed.

Lemma configure_credentials_round_trip_witness :
  let v := Samples.vtex (PBool true) (PBool true) (PBool true) in
  let w := Samples.admission_world v (Some "v1") [] in
  exists app',
    fst (configure v (mkAPICredentials (PStr "shop.example") (PStr "")
                        (PStr "token")) (PStr "w1") (PStr "shop.example") w)
    = Ok app'
    /\ get_vtex_credentials_or_raise app' = Raise CredentialsValidationError
    /\ _get_credentials app'
       = Ok (PDict [("domain", PStr "shop.example"); ("app_key", PStr "");
                    ("app_token", PStr "token")]).
Proof.
  intros v w.
  destruct (configure v (mkAPICredentials (PStr "shop.example") (PStr "")
                           (PStr "token")) (PStr "w1") (PStr "shop.example") w)
    as [[app'|e] w'] eqn:E.
  - exists app'. split; [reflexivity|].
    exact (configure_credentials_round_trip _ _ _ _ _ _ _ E).
  - exfalso. revert E. vm_compute. discriminate.
Defined.

End ServiceFacts.

(** ** Locks *)

Section LockFacts.
Import Locks Terms.

Lemma seller_key_inj u u' : seller_key u = seller_key u' -> u = u'.
Proof. unfold seller_key. intros H. simplify_eq/=. reflexivity. Qed.

Lemma seller_key_upload_key u u' : seller_key u <> upload_key u'.
Proof. discriminate. Qed.

Lemma create_lock_run env app_uuid sellers expiration_time w :
  create_lock env app_uuid sellers expiration_time w
  = match expire_error env expiration_time with
    | Some e => (Raise e, w)
    | None =>
        match redis w !! seller_key app_uuid with
        | None =>
            (Ok (Some (seller_key app_uuid)),
             mkWorld
               (<[seller_key app_uuid :=
                    mkEntry
                      (dumps env
                         (PDict [("app_uuid", PStr app_uuid);
                                 ("sellers", PList (map PStr sellers));
                                 ("start_time", PStr (now env))]))
                      (Some (Z.to_N expiration_time))]> (redis w))
               (sent w))
        | Some _ => (Ok None, w)
        end
    end.
Proof.
  unfold create_lock, set_nx_ex, bind, ret. fold (seller_key app_uuid).
  destruct (expire_error env expiration_time); [reflexivity|].
  destruct (redis w !! seller_key app_uuid); reflexivity.
Qed.

(** Time adds up. *)
Lemma elapse_add a b w : elapse a (elapse b w) = elapse (b + a) w.
Proof.
  unfold elapse. cbn [redis sent]. f_equal. apply map_eq. intros k.
  rewrite !lookup_omap. destruct (redis w !! k) as [[v [t|]]|];
    cbn; [|reflexivity..].
  unfold age. cbn [ttl value].
  destruct (N.ltb_spec b t) as [Hb|Hb]; cbn.
  - destruct (N.ltb_spec a (t - b)) as [Ha|Ha];
      destruct (N.ltb_spec (b + a) t) as [Hab|Hab]; try lia;
      [|reflexivity].
    do 3 f_equal. lia.
  - destruct (N.ltb_spec (b + a) t); [lia | reflexivity].
Qed.

(** X21: the lock of a synchronisation by seller excludes for as long
    as it lives.  Once [create_lock] has given out the lock of an app
    for [expiration_time] seconds, then for as long as fewer seconds
    have gone by, every further [create_lock] for that app whose expire
    time the server takes is refused and changes nothing, and, the JSON
    codec being sound, [get_lock_data] reads back the app, the sellers
    and the start time of the holder.  The lock is given out again
    after [release_lock] has been called with the key, and also, without
    any release, once [expiration_time] seconds have gone by.  A call
    whose expire time the server refuses raises the error of the server
    and changes nothing, whether the lock is held or not. *)
Theorem create_lock_excludes
    (env : Env) (app_uuid : string) (sellers : list string)
    (expiration_time : Z) (w : World) (lock_key : string) (w1 : World) :
  create_lock env app_uuid sellers expiration_time w
  = (Ok (Some lock_key), w1) ->
  lock_key = seller_key app_uuid
  /\ (forall elapsed env2 sellers2 ex2,
        (Z.of_N elapsed < expiration_time)%Z ->
        expire_error env2 ex2 = None ->
        create_lock env2 app_uuid sellers2 ex2 (elapse elapsed w1)
        = (Ok None, elapse elapsed w1))
  /\ (forall elapsed env2 sellers2 ex2,
        expire_error env2 ex2 = None ->
        exists w2,
          create_lock env2 app_uuid sellers2 ex2
            (snd (release_lock lock_key (elapse elapsed w1)))
          = (Ok (Some lock_key), w2))
  /\ (forall elapsed env2 sellers2 ex2,
        (expiration_time <= Z.of_N elapsed)%Z ->
        expire_error env2 ex2 = None ->
        exists w2,
          create_lock env2 app_uuid sellers2 ex2 (elapse elapsed w1)
          = (Ok (Some lock_key), w2))
  /\ (forall env2 sellers2 ex2 e w',
        expire_error env2 ex2 = Some e ->
        create_lock env2 app_uuid sellers2 ex2 w' = (Raise e, w'))
  /\ (codec_sound env ->
      forall elapsed,
        (Z.of_N elapsed < expiration_time)%Z ->
        get_lock_data env lock_key (elapse elapsed w1)
        = (Ok (Some (PDict [("app_uuid", PStr app_uuid);
                            ("sellers", PList (map PStr sellers));
                            ("start_time", PStr (now env))])),
           elapse elapsed w1)).
Proof.
  rewrite create_lock_run.
  destruct (expire_error env expiration_time); [discriminate|].
  destruct (redis w !! seller_key app_uuid) eqn:E; [discriminate|].
  intros [= <- <-]. split; [reflexivity|].
  set (held := mkEntry _ (Some (Z.to_N expiration_time))).
  assert (Hlive : forall elapsed, (Z.of_N elapsed < expiration_time)%Z ->
            redis (elapse elapsed
                     (mkWorld (<[seller_key app_uuid := held]> (redis w))
                        (sent w))) !! seller_key app_uuid
            = Some (mkEntry (value held)
                      (Some (Z.to_N expiration_time - elapsed)%N))).
  { intros elapsed Hlt. unfold elapse. cbn [redis].
    rewrite lookup_omap, lookup_insert_eq. cbn. unfold age. cbn [ttl held].
    destruct (N.ltb_spec elapsed (Z.to_N expiration_time)); [reflexivity|].
    lia. }
  assert (Hgone : forall elapsed, (expiration_time <= Z.of_N elapsed)%Z ->
            redis (elapse elapsed
                     (mkWorld (<[seller_key app_uuid := held]> (redis w))
                        (sent w))) !! seller_key app_uuid
            = None).
  { intros elapsed Hle. unfold elapse. cbn [redis].
    rewrite lookup_omap, lookup_insert_eq. cbn. unfold age. cbn [ttl held].
    destruct (N.ltb_spec elapsed (Z.to_N expiration_time)); [lia|].
    reflexivity. }
  repeat apply conj.
  - intros elapsed env2 sellers2 ex2 Hlt Hex. rewrite create_lock_run, Hex.
    rewrite (Hlive elapsed Hlt). reflexivity.
  - intros elapsed env2 sellers2 ex2 Hex. rewrite create_lock_run, Hex.
    unfold release_lock, modify. cbn [snd redis sent].
    rewrite lookup_delete_eq. eauto.
  - intros elapsed env2 sellers2 ex2 Hle Hex. rewrite create_lock_run, Hex.
    rewrite (Hgone elapsed Hle). eauto.
  - intros env2 sellers2 ex2 e w' Hex. rewrite create_lock_run, Hex.
    reflexivity.
  - intros Hcodec elapsed Hlt. unfold get_lock_data.
    rewrite (Hlive elapsed Hlt). cbn [value held].
    destruct (Hcodec (PDict [("app_uuid", PStr app_uuid);
                             ("sellers", PList (map PStr sellers));
                             ("start_time", PStr (now env))])) as [-> Hne].
    apply String.eqb_neq in Hne. rewrite Hne. reflexivity.
Qed.

Lemma create_lock_excludes_witness :
  let w1 := mkWorld (<["sync-sellers:v1" := mkEntry "{}" (Some 86400%N)]> ∅)
              [] in
  create_lock Cases.codec "v1" ["7"] expiration_time_default (mkWorld ∅ [])
  = (Ok (Some "sync-sellers:v1"), w1)
  /\ create_lock Cases.codec "v1" ["8"] 60 (elapse 86399 w1)
     = (Ok None, elapse 86399 w1)
  /\ exists w2,
       create_lock Cases.codec "v1" ["8"] 60 (elapse 86400 w1)
       = (Ok (Some "sync-sellers:v1"), w2).
Proof.
  intros w1.
  assert (H : create_lock Cases.codec "v1" ["7"] expiration_time_default
                (mkWorld ∅ [])
              = (Ok (Some "sync-sellers:v1"), w1)) by reflexivity.
  split; [exact H|].
  pose proof (create_lock_excludes Cases.codec "v1" ["7"]
                expiration_time_default (mkWorld ∅ []) "sync-sellers:v1" w1 H)
    as (_ & Hheld & _ & Hgone & _).
  split.
  - apply (Hheld 86399%N Cases.codec ["8"] 60%Z); [|reflexivity].
    unfold expiration_time_default. lia.
  - apply (Hgone 86400%N Cases.codec ["8"] 60%Z); [|reflexivity].
    unfold expiration_time_default. lia.
Defined.

(** X22: the locks do not get in each other's way.  Taking the seller
    lock of an app writes that one key: the seller locks of other apps
    and all upload locks are as before, so [check_and_start_upload]
    decides as it would have; and [check_and_start_upload] itself never
    writes to Redis: it dispatches the upload job when the upload lock
    of the app is absent, and nothing otherwise. *)
Theorem locks_independent
    (env : Env) (app_uuid : string) (sellers : list string)
    (expiration_time : Z) (w : World) (other : string) :
  let w1 := snd (create_lock env app_uuid sellers expiration_time w) in
  sent w1 = sent w
  /\ redis w1 !! upload_key other = redis w !! upload_key other
  /\ (other <> app_uuid ->
      redis w1 !! seller_key other = redis w !! seller_key other)
  /\ sent (snd (check_and_start_upload other w1))
     = sent (snd (check_and_start_upload other w))
  /\ redis (snd (check_and_start_upload other w)) = redis w
  /\ sent (snd (check_and_start_upload other w))
     = (if bool_decide (is_Some (redis w !! upload_key other)) then sent w
        else sent w ++ [mkTask "task_upload_vtex_products" other
                          "vtex-product-upload"]).
Proof.
  intros w1.
  assert (H1 : sent w1 = sent w
               /\ redis w1 !! upload_key other = redis w !! upload_key other
               /\ (other <> app_uuid ->
                   redis w1 !! seller_key other = redis w !! seller_key other)).
  { subst w1. rewrite create_lock_run.
    destruct (expire_error env expiration_time); [cbn [snd]; auto|].
    destruct (redis w !! seller_key app_uuid); cbn [snd sent redis];
      [auto|].
    split; [reflexivity|]. split.
    - apply lookup_insert_ne. apply seller_key_upload_key.
    - intros Hne. apply lookup_insert_ne. intros Heq.
      apply seller_key_inj in Heq. congruence. }
  destruct H1 as (Hs & Hu & Hk). repeat apply conj; try assumption.
  - unfold check_and_start_upload. fold (upload_key other). rewrite Hu.
    destruct (redis w !! upload_key other); cbn [snd sent]; congruence.
  - unfold check_and_start_upload. fold (upload_key other).
    destruct (redis w !! upload_key other); reflexivity.
  - unfold check_and_start_upload. fold (upload_key other).
    destruct (redis w !! upload_key other); reflexivity.
Qed.

End LockFacts.

(** ** Sending a file to Meta *)

Section MetaFacts.
Import Meta Vocabulary Terms.

Lemma generate_file_upload_log_linked self csv e file_name upload_id w v :
  Catalog.vtex_app (catalog self) = Some v ->
  _generate_file_upload_log self csv e file_name upload_id w
  = (Ok tt,
     mkWorld
       (file_logs w ++
          [mkFileLog csv file_name
             ("Error on upload feed to Meta: " +:+ str_exn e)
             (Catalog.name (catalog self)) v (feed_id self) file_name
             upload_id])
       (notifications w)).
Proof.
  intros Hv. unfold _generate_file_upload_log. rewrite Hv. reflexivity.
Qed.

Lemma handler_linked env self csv e file_name upload_id w v :
  Catalog.vtex_app (catalog self) = Some v ->
  exists w',
    handler env self csv e file_name upload_id w = (Ok false, w')
    /\ file_logs w'
       = file_logs w ++
           [mkFileLog csv file_name
              ("Error on upload feed to Meta: " +:+ str_exn e)
              (Catalog.name (catalog self)) v (feed_id self) file_name
              upload_id]
    /\ exists n, notifications w' = notifications w ++ [n].
Proof.
  intros Hv. unfold handler. rewrite Hv. unfold bind at 1.
  rewrite (generate_file_upload_log_linked _ _ _ _ _ _ _ Hv).
  unfold bind, try_except, modify, lift, ret.
  destruct (create_notification env _ _ e); eexists;
    (split; [reflexivity|]); cbn [file_logs notifications]; eauto.
Qed.

Lemma handler_unlinked env self csv e file_name upload_id w :
  Catalog.vtex_app (catalog self) = None ->
  handler env self csv e file_name upload_id w
  = (Raise (AttributeError "'NoneType' object has no attribute 'uuid'"), w).
Proof. intros Hv. unfold handler. rewrite Hv. reflexivity. Qed.

Lemma is_None_false v : v <> PNone -> is_None v = false.
Proof. destruct v; try reflexivity. contradiction. Qed.

Lemma is_False_false v : v <> PBool false -> is_False v = false.
Proof. destruct v as [|[]| | | |]; try reflexivity. contradiction. Qed.

Lemma send_to_meta_accepted env self csv w :
  accepted env self csv -> send_to_meta env self csv w = (Ok true, w).
Proof.
  intros (ip & uid & uc & Hip & Hwait & Hup & Hne & Hw & Hc).
  unfold send_to_meta. rewrite Hip.
  assert (Hfirst : exists r,
            (if truthy ip
             then _wait_for_upload_completion env (feed_id self) ip
             else Ok PNone) = Ok r).
  { destruct (truthy ip); [|eauto]. apply Hwait. reflexivity. }
  destruct Hfirst as [r ->]. rewrite Hup, (is_None_false _ Hne), Hw,
    (is_False_false _ Hc). reflexivity.
Qed.

(** The outcome of [send_to_meta] for a catalog linked to a VTEX app. *)
Lemma send_to_meta_outcome env self csv w v :
  Catalog.vtex_app (catalog self) = Some v ->
  accepted env self csv /\ send_to_meta env self csv w = (Ok true, w)
  \/ ~ accepted env self csv
     /\ exists w' l,
         send_to_meta env self csv w = (Ok false, w')
         /\ file_logs w' = file_logs w ++ [l]
         /\ attachment l = csv /\ log_vtex_app l = v
         /\ log_feed_id l = feed_id self
         /\ (notifications w' = notifications w
             \/ exists n, notifications w' = notifications w ++ [n]).
Proof.
  intros Hv.
  assert (Hh : forall e file_name upload_id,
            exists w' l,
              handler env self csv e file_name upload_id w = (Ok false, w')
              /\ file_logs w' = file_logs w ++ [l]
              /\ attachment l = csv /\ log_vtex_app l = v
              /\ log_feed_id l = feed_id self
              /\ (notifications w' = notifications w
                  \/ exists n, notifications w' = notifications w ++ [n])).
  { intros e fn uid.
    destruct (handler_linked env self csv e fn uid w v Hv)
      as (w' & E & Hl & Hn).
    exists w'. eexists. split; [exact E|]. split; [exact Hl|]. auto. }
  assert (Hg : forall e file_name upload_id,
            exists w' l,
              _generate_file_upload_log self csv e file_name upload_id w
              = (Ok tt, w')
              /\ file_logs w' = file_logs w ++ [l]
              /\ attachment l = csv /\ log_vtex_app l = v
              /\ log_feed_id l = feed_id self
              /\ (notifications w' = notifications w
                  \/ exists n, notifications w' = notifications w ++ [n])).
  { intros e fn uid. eexists _, _.
    split; [apply generate_file_upload_log_linked; exact Hv|].
    cbn [file_logs notifications]. split; [reflexivity|].
    cbn. auto. }
  unfold send_to_meta, accepted.
  destruct (uploads_in_progress env (feed_id self)) as [ip|e] eqn:Hip.
  2:{ right. split; [intros (? & ? & ? & ? & _); discriminate | apply Hh]. }
  destruct (if truthy ip
            then _wait_for_upload_completion env (feed_id self) ip
            else Ok PNone) as [r|e] eqn:Hfirst.
  2:{ right. split; [|apply Hh].
      intros (ip' & ? & ? & [= <-] & Hwait & _).
      destruct (truthy ip); [|discriminate].
      destruct (Hwait eq_refl) as [r Hr]. congruence. }
  destruct (update_product_feed env (feed_id self) csv _) as [uid|e] eqn:Hup.
  2:{ right. split; [|apply Hh].
      intros (? & ? & ? & _ & _ & Hup' & _). congruence. }
  destruct (is_None uid) eqn:Hnone.
  { right. split.
    - intros (? & uid' & ? & _ & _ & Hup' & Hne & _).
      rewrite ?Hup in Hup'. injection Hup' as <-.
      destruct uid; try discriminate. contradiction.
    - destruct (Hg (ValueError "Feed upload was not complete.")
                  ("update_" +:+ now env +:+ "_"
                   +:+ Catalog.facebook_catalog_id (catalog self)) uid)
        as (w' & l & -> & H). eauto. }
  destruct (_wait_for_upload_completion env (feed_id self) uid)
    as [uc|e] eqn:Hw.
  2:{ right. split; [|apply Hh].
      intros (? & uid' & ? & _ & _ & Hup' & _ & Hw' & _).
      rewrite ?Hup in Hup'. injection Hup' as <-. congruence. }
  destruct (is_False uc) eqn:Hfalse.
  { right. split.
    - intros (? & uid' & uc' & _ & _ & Hup' & _ & Hw' & Hc).
      rewrite ?Hup in Hup'. injection Hup' as <-.
      rewrite ?Hw in Hw'. injection Hw' as <-.
      destruct uc as [|[]| | | |]; try discriminate. contradiction.
    - destruct (Hg (TimeoutError
                      "Upload did not complete within the expected time frame.")
                  ("update_" +:+ now env +:+ "_"
                   +:+ Catalog.facebook_catalog_id (catalog self)) uid)
        as (w' & l & -> & H). eauto. }
  left. split; [|reflexivity].
  exists ip, uid, uc. repeat split; try assumption.
  - intros Ht. rewrite Ht in Hfirst. eauto.
  - intros ->. discriminate.
  - intros ->. discriminate.
Qed.

(** X23: the answer of [send_to_meta] for a linked catalog.  When the
    catalog is linked to a VTEX app the method never raises.  It returns
    [True] exactly when the upload went through, and then it logs and
    notifies nothing; otherwise it returns [False] after one call of
    [generate_log_with_file] that attaches the file as it was sent, and
    at most one notification, whose failure is ignored. *)
Theorem send_to_meta_linked
    (env : Env) (self : Uploader) (csv_content : bytes) (w : World)
    (vtex_uuid : string) :
  Catalog.vtex_app (catalog self) = Some vtex_uuid ->
  exists success w',
    send_to_meta env self csv_content w = (Ok success, w')
    /\ (success = true <-> accepted env self csv_content)
    /\ if success then w' = w
       else exists l,
           file_logs w' = file_logs w ++ [l]
           /\ attachment l = csv_content /\ log_vtex_app l = vtex_uuid
           /\ log_feed_id l = feed_id self
           /\ (notifications w' = notifications w
               \/ exists n, notifications w' = notifications w ++ [n]).
Proof.
  intros Hv.
  destruct (send_to_meta_outcome env self csv_content w vtex_uuid Hv)
    as [[Hacc ->] | (Hnot & w' & l & -> & H)].
  - exists true, w. split; [reflexivity|]. split; [tauto | reflexivity].
  - exists false, w'. split; [reflexivity|]. split; [|eauto].
    split; [discriminate | contradiction].
Qed.

Lemma send_to_meta_linked_witness :
  exists success w',
    send_to_meta Cases.meta_without_id (Cases.meta_uploader (Some "v1"))
      (Feed.literal "id,title") (mkWorld [] [])
    = (Ok success, w')
    /\ (success = true
        <-> accepted Cases.meta_without_id (Cases.meta_uploader (Some "v1"))
              (Feed.literal "id,title")).
Proof.
  destruct (send_to_meta_linked Cases.meta_without_id
              (Cases.meta_uploader (Some "v1")) (Feed.literal "id,title")
              (mkWorld [] []) "v1" eq_refl) as (b & w' & E & Hiff & _).
  eauto.
Defined.

(** X24: with a catalog that is linked to no VTEX app, a failed upload
    is not reported.  Whatever goes wrong, the exception that leaves
    [send_to_meta] is the [AttributeError] of reading the app of the
    catalog, and neither a file log nor a notification is written. *)
Theorem send_to_meta_unlinked
    (env : Env) (self : Uploader) (csv_content : bytes) (w : World) :
  Catalog.vtex_app (catalog self) = None ->
  ~ accepted env self csv_content ->
  send_to_meta env self csv_content w
  = (Raise (AttributeError "'NoneType' object has no attribute 'uuid'"), w).
Proof.
  intros Hv Hnot. unfold send_to_meta.
  pose proof (fun e fn uid w0 =>
                handler_unlinked env self csv_content e fn uid w0 Hv) as Hh.
  destruct (uploads_in_progress env (feed_id self)) as [ip|e] eqn:Hip;
    [|apply Hh].
  destruct (if truthy ip
            then _wait_for_upload_completion env (feed_id self) ip
            else Ok PNone) as [r|e] eqn:Hfirst; [|apply Hh].
  destruct (update_product_feed env (feed_id self) csv_content _)
    as [uid|e] eqn:Hup; [|apply Hh].
  unfold _generate_file_upload_log. rewrite Hv. unfold raise.
  destruct (is_None uid) eqn:Hnone; [apply Hh|].
  destruct (_wait_for_upload_completion env (feed_id self) uid)
    as [uc|e] eqn:Hw; [|apply Hh].
  destruct (is_False uc) eqn:Hfalse; [apply Hh|].
  contradiction Hnot. exists ip, uid, uc. repeat split; try assumption.
  - intros Ht. rewrite Ht in Hfirst. eauto.
  - intros ->. discriminate.
  - intros ->. discriminate.
Qed.

Lemma send_to_meta_unlinked_witness :
  send_to_meta Cases.meta_down (Cases.meta_uploader None)
    (Feed.literal "id,title") (mkWorld [] [])
  = (Raise (AttributeError "'NoneType' object has no attribute 'uuid'"),
     mkWorld [] []).
Proof.
  refine (send_to_meta_unlinked Cases.meta_down (Cases.meta_uploader None)
            (Feed.literal "id,title") (mkWorld [] []) eq_refl _).
  intros (ip & uid & uc & H & _). discriminate.
Defined.

Lemma init_has_feed c feeds :
  (exists f, f ∈ feeds /\ ProductFeed.catalog f = Catalog.uuid c) ->
  exists self, __init__ c feeds = Ok self /\ catalog self = c.
Proof.
  intros (f & Hf & Hc). unfold __init__.
  destruct (Admission.first _) as [f0|] eqn:E; [eauto|].
  exfalso. unfold Admission.first in E. apply head_None in E.
  assert (Hin : f ∈ filter (fun f => ProductFeed.catalog f = Catalog.uuid c)
                      feeds) by (apply list_elem_of_filter; auto).
  rewrite E in Hin. inversion Hin.
Qed.

End MetaFacts.

(** ** From admission to the products *)

Section ProductFacts.
Import Admission.CatalogInsertionBySeller Vocabulary Terms Products.

(** X25: under the legacy method an admitted catalog has an uploader.
    When admission by seller succeeds for an app whose [use_sync_v2] is
    [False], the catalog of the dispatched job has a feed, so that
    [ProductUploader.__init__] finds its feed identifier instead of
    failing on [None]. *)
Theorem legacy_admission_gives_uploader
    (app : App.t) (sellers : list string) (d d1 : Admission.World) :
  start_insertion_by_seller (Some app) sellers d = (Ok tt, d1) ->
  legacy_sync app = true ->
  exists credentials c self,
    Admission.tasks d1
    = Admission.tasks d ++ [by_seller_task credentials c sellers]
    /\ Meta.__init__ c (Admission.feeds d1) = Ok self
    /\ Meta.catalog self = c.
Proof.
  intros H Hlegacy. apply by_seller_outcome in H
    as (a & cr & c & l & [= <-] & _ & -> & _ & _ & _ & _ & _ & _ & _ & Hfeed).
  destruct (init_has_feed c (Admission.feeds d) (Hfeed Hlegacy))
    as (self & Hi & Hc).
  exists cr, c, self. cbn [Admission.tasks Admission.feeds]. auto.
Qed.

Lemma legacy_admission_gives_uploader_witness :
  let v := Samples.vtex (PBool true) (PBool true) (PBool false) in
  let d := Samples.admission_world v (Some "v1") [Samples.feed] in
  exists credentials c self,
    Admission.tasks (snd (start_insertion_by_seller (Some v) ["7"] d))
    = Admission.tasks d ++ [by_seller_task credentials c ["7"]]
    /\ Meta.__init__ c
         (Admission.feeds (snd (start_insertion_by_seller (Some v) ["7"] d)))
       = Ok self
    /\ Meta.catalog self = c.
Proof.
  intros v d.
  refine (legacy_admission_gives_uploader v ["7"] d _ _ _).
  - vm_compute. reflexivity.
  - reflexivity.
Defined.

(** Under the new method admission asks for no feed, and then the
    uploader cannot be built. *)
Example v2_admission_without_feed :
  let v := Samples.vtex (PBool true) (PBool true) (PBool true) in
  let d := Samples.admission_world v (Some "v1") [] in
  fst (start_insertion_by_seller (Some v) ["7"] d) = Ok tt
  /\ Meta.__init__ (Samples.catalog (Some "v1")) (Admission.feeds d)
     = Raise (AttributeError
                "'NoneType' object has no attribute 'facebook_feed_id'").
Proof. vm_compute. split; reflexivity. Qed.

Lemma insertion_saves env credentials c sellers w r w' :
  insertion_products_by_seller env credentials c sellers w = (r, w') ->
  db w' = db w
  /\ (saves w' = saves w
      \/ exists app products,
          vtex_app_of c w = Some app
          /\ truthy (get_default (App.config app) "use_sync_v2"
                       (PBool false)) = false
          /\ products <> []
          /\ saves w'
             = saves w ++ [mkSave products (Catalog.uuid c) (first_feed c w)]).
Proof.
  unfold insertion_products_by_seller.
  destruct sellers as [|s0 sellers]; [intros [= _ <-]; auto|].
  unfold bind at 1, gets.
  destruct (vtex_app_of c w) as [app|]; [|intros [= _ <-]; auto].
  unfold bind at 1, lift.
  destruct (list_all_products env _ c _ _) as [products|e];
    [|intros [= _ <-]; auto].
  destruct (truthy _) eqn:Ht; cbn [negb]; [intros [= _ <-]; auto|].
  destruct products as [|p products]; [intros [= _ <-]; auto|].
  unfold bind, gets, record_save, modify, lift, ret, raise.
  destruct (bulk_save_csv_product_data env _ c _) as [[]|e];
    intros [= _ <-]; (split; [reflexivity|]); right;
    exists app, (p :: products); cbn [saves]; repeat split;
    try assumption; discriminate.
Qed.

(** X26: an admitted insertion by seller saves with a feed.  When
    admission by seller has succeeded for an app whose [use_sync_v2] is
    a boolean, [insertion_products_by_seller] for the catalog of the
    dispatched job -- which reads the method from the app the catalog is
    linked to -- changes no row, and either saves nothing or makes one
    bulk save, of products that are not empty, with a feed of the
    catalog; under the new method it saves nothing. *)
Theorem by_seller_insertion_saves_with_feed
    (app : App.t) (sellers : list string) (d d1 : Admission.World)
    (use_sync_v2 : bool) :
  start_insertion_by_seller (Some app) sellers d = (Ok tt, d1) ->
  get_default (App.config app) "use_sync_v2" (PBool false)
  = PBool use_sync_v2 ->
  exists cr c,
    Admission.tasks d1 = Admission.tasks d ++ [by_seller_task cr c sellers]
    /\ forall env credentials saved r w2,
        vtex_app_of c (mkWorld d1 saved) = Some app ->
        insertion_products_by_seller env credentials c sellers
          (mkWorld d1 saved) = (r, w2) ->
        db w2 = d1
        /\ (saves w2 = saved
            \/ use_sync_v2 = false
               /\ exists products f,
                   products <> []
                   /\ ProductFeed.catalog f = Catalog.uuid c
                   /\ saves w2
                      = saved ++ [mkSave products (Catalog.uuid c) (Some f)]).
Proof.
  intros H Hv2. apply by_seller_outcome in H
    as (a & cr & c & l & [= <-] & _ & -> & _ & _ & _ & _ & _ & _ & _ & Hfeed).
  exists cr, c. split; [reflexivity|].
  intros env credentials saved r w2 Happ Hrun.
  apply insertion_saves in Hrun as [Hdb [Hs | (app' & ps & Happ' & Ht & Hne & Hs)]];
    cbn [db saves] in *; (split; [exact Hdb|]); [left; exact Hs|].
  right. rewrite Happ in Happ'. injection Happ' as <-.
  rewrite Hv2 in Ht. cbn [truthy] in Ht. subst use_sync_v2.
  split; [reflexivity|].
  assert (Hlegacy : legacy_sync app = true)
    by (unfold legacy_sync; rewrite Hv2; reflexivity).
  destruct (Hfeed Hlegacy) as (f & Hf & Hfc).
  unfold first_feed in Hs. cbn [db Admission.feeds] in Hs.
  destruct (Admission.first _) as [f0|] eqn:E.
  - exists ps, f0. split; [exact Hne|]. split; [|exact Hs].
    unfold Admission.first in E.
    apply head_Some_elem_of, list_elem_of_filter in E as [E _]. exact E.
  - exfalso. unfold Admission.first in E. apply head_None in E.
    assert (Hin : f ∈ filter (fun f => ProductFeed.catalog f = Catalog.uuid c)
                        (Admission.feeds d))
      by (apply list_elem_of_filter; auto).
    rewrite E in Hin. inversion Hin.
Qed.

Lemma by_seller_insertion_saves_with_feed_witness :
  let v := Samples.vtex (PBool true) (PBool true) (PBool false) in
  let d := Samples.admission_world v (Some "v1") [Samples.feed] in
  exists cr c,
    Admission.tasks (snd (start_insertion_by_seller (Some v) ["7"] d))
    = Admission.tasks d ++ [by_seller_task cr c ["7"]].
Proof.
  intros v d.
  destruct (by_seller_insertion_saves_with_feed v ["7"] d
              (snd (start_insertion_by_seller (Some v) ["7"] d)) false)
    as (cr & c & Ht & _).
  - vm_compute. reflexivity.
  - reflexivity.
  - eauto.
Defined.

(** X27: with a seller in the webhook the active sellers are not
    needed.  When the payload names a seller, [webhook_product_insert]
    gives the same result and makes the same saves whatever the list
    of active sellers of the store is, also when that request would
    fail. *)
Theorem webhook_product_insert_seller_given
    (env1 env2 : Env) (self : ProductUpdateService)
    (wh : gmap string pyval) (w : World) :
  webhook self = Some wh ->
  truthy (Sellers.extract_sellers_ids wh) = true ->
  same_but_sellers env1 env2 ->
  webhook_product_insert env1 self w = webhook_product_insert env2 self w.
Proof.
  intros Hwh Ht [Hu Hs]. unfold webhook_product_insert. rewrite Hwh.
  unfold Sellers._get_sellers_ids. rewrite Ht, Hu, Hs. reflexivity.
Qed.

Lemma webhook_product_insert_seller_given_witness :
  let env (sellers : result (list pyval)) : Env :=
    {| list_all_actives_sellers := fun _ => sellers;
       update_webhook_product_info := fun _ _ _ _ => Ok ["55#7"];
       save_csv_product_data := fun _ _ _ => Ok true;
       update_batch_webhook := fun _ _ _ => Ok true;
       list_all_products := fun _ _ _ _ => Ok [];
       bulk_save_csv_product_data := fun _ _ _ => Ok true |} in
  let self :=
    {| api_credentials :=
         Service.mkAPICredentials (PStr "shop.example") (PStr "key")
           (PStr "token");
       catalog := Samples.catalog (Some "v1");
       skus_ids := ["55"];
       webhook := Some (<["An" := PStr "store"]> ∅);
       sellers_skus := [];
       feed := Some Samples.feed |} in
  let w := mkWorld (Samples.admission_world
                      (Samples.vtex (PBool true) (PBool true) (PBool false))
                      (Some "v1") [Samples.feed]) [] in
  webhook_product_insert (env (Raise (ExternalError "timeout"))) self w
  = webhook_product_insert (env (Ok [])) self w.
Proof.
  intros env self w.
  refine (webhook_product_insert_seller_given _ _ self
            (<["An" := PStr "store"]> ∅) w _ _ _).
  - reflexivity.
  - reflexivity.
  - split; reflexivity.
Defined.



End ProductFacts.
